(** * TradingView symbol search through rotating proxies

    A shallow embedding of the fetch pipeline of the
    tradingview-server-package: [proxy_pool.py] (location catalogue and
    proxy selector), [browser_config.py] (fingerprint generation) and
    [tradingview_proxy.py] (retrying search and result normalisation),
    and of the request handler of [tradingview_main.py] that calls it.

    Conventions of the embedding.
    - Python text is a [string] that holds its UTF-8 encoding; a slice
      [s[:n]], an index and a length count characters, not bytes
      ([Py.take_chars], [Py.char_at], [Py.len_chars]). Case folding,
      white space and the digit class of the regular expression are the
      ASCII ones: they are exact on ASCII text.
    - A call of the [random] module consumes one raw draw [r : nat] of an
      explicit randomness source; [random.choice seq] reads
      [seq[r mod len(seq)]].
    - A Python exception is the [None] of an [option] where a single
      exception can occur, and a constructor of a result type otherwise.
    - A [set] of strings is a [gset string], a [Dict[str, str]] a
      [gmap string string]; a parsed JSON object keeps its insertion order
      and is an association list. *)

From Stdlib Require Import ZArith QArith Lqa String Ascii.
From stdpp Require Import base option list gmap sets strings pretty.



(** ** Python primitives *)

Module Py.

(** [c.lower()] on one ASCII character. *)
Definition lower_ascii (c : ascii) : ascii :=
  let n := nat_of_ascii c in
  if (65 <=? n)%nat && (n <=? 90)%nat then ascii_of_nat (n + 32) else c.

(** [s.lower()]. *)
Fixpoint lower (s : string) : string :=
  match s with
  | EmptyString => EmptyString
  | String c rest => String (lower_ascii c) (lower rest)
  end.

(** [s.startswith(p)]. *)
Fixpoint startswith (p s : string) : bool :=
  match p, s with
  | EmptyString, _ => true
  | String a p', String b s' => if Ascii.eqb a b then startswith p' s' else false
  | String _ _, EmptyString => false
  end.

(** [sub in s]. *)
Fixpoint contains (sub s : string) : bool :=
  startswith sub s ||
  match s with
  | EmptyString => false
  | String _ rest => contains sub rest
  end.

(** [s.split(sep)] for a one-character separator; [cur] is the piece
    read so far. *)
Fixpoint split_from (sep : ascii) (cur : string) (s : string) : list string :=
  match s with
  | EmptyString => [cur]
  | String c rest =>
      if Ascii.eqb c sep then cur :: split_from sep EmptyString rest
      else split_from sep (cur +:+ String c EmptyString) rest
  end.

Definition split (sep : ascii) (s : string) : list string :=
  split_from sep EmptyString s.

(** [sep.join(parts)]. *)
Fixpoint join (sep : string) (parts : list string) : string :=
  match parts with
  | [] => EmptyString
  | [p] => p
  | p :: rest => p +:+ sep +:+ join sep rest
  end.

(** Truth value of a string: non-empty. *)
Definition truthy_str (s : string) : bool :=
  match s with EmptyString => false | String _ _ => true end.

(** [random.choice(seq)] on the raw draw [r]; [None] is the [IndexError]
    of an empty sequence. *)
Definition choice {A} (seq : list A) (r : nat) : option A :=
  seq !! (r mod length seq)%nat.

(** One double-quote character, for header values that carry quotes. *)
Definition dq : string := String (ascii_of_nat 34) EmptyString.

(** Whether a byte continues a character of UTF-8 text (the bytes
    [10xxxxxx]); every other byte starts a character. *)
Definition is_continuation (c : ascii) : bool :=
  let n := nat_of_ascii c in
  (128 <=? n)%nat && (n <? 192)%nat.

(** [s[:n]]: the first [n] characters, each with its continuation
    bytes. *)
Fixpoint take_chars (n : nat) (s : string) : string :=
  match s with
  | EmptyString => EmptyString
  | String c rest =>
      if is_continuation c then String c (take_chars n rest)
      else match n with
           | O => EmptyString
           | S n' => String c (take_chars n' rest)
           end
  end.

(** [s[n:]]: what is left once the first [n] characters and their
    continuation bytes are gone. *)
Fixpoint drop_chars (n : nat) (s : string) : string :=
  match s with
  | EmptyString => EmptyString
  | String c rest =>
      if is_continuation c then drop_chars n rest
      else match n with
           | O => s
           | S n' => drop_chars n' rest
           end
  end.

(** [s[i]] for [i >= 0]: the character number [i]; [None] is the
    [IndexError] of an index past the end. *)
Definition char_at (i : nat) (s : string) : option string :=
  match take_chars 1 (drop_chars i s) with
  | EmptyString => None
  | c => Some c
  end.

(** [len(s)]: the number of characters. *)
Fixpoint len_chars (s : string) : nat :=
  match s with
  | EmptyString => O
  | String c rest => if is_continuation c then len_chars rest else S (len_chars rest)
  end.


End Py.

(** ** proxy_pool.py *)

Module proxy_pool.

(** [class ProxyLocation]: the fields as stored by [__init__]. *)
Record ProxyLocation := { state : string; city : option string }.

(** [ProxyLocation.__init__(state, city=None)]: both parts are stored
    lower-cased, a missing or empty city as [None]. *)
Definition ProxyLocation_init (st : string) (ct : option string) : ProxyLocation :=
  {| state := Py.lower st;
     city := match ct with
             | Some c => if Py.truthy_str c then Some (Py.lower c) else None
             | None => None
             end |}.

(** [ProxyLocation.__str__]. *)
Definition to_str (loc : ProxyLocation) : string :=
  match city loc with
  | Some c => if Py.truthy_str c then "us-" +:+ state loc +:+ "-" +:+ c
              else "us-" +:+ state loc
  | None => "us-" +:+ state loc
  end.

(** [ProxyPool.LOCATIONS]. *)
Definition LOCATIONS : list ProxyLocation :=
  [ ProxyLocation_init "ca" (Some "losangeles");
    ProxyLocation_init "ca" (Some "sanfrancisco");
    ProxyLocation_init "ca" (Some "sandiego");
    ProxyLocation_init "wa" (Some "seattle");
    ProxyLocation_init "or" (Some "portland");
    ProxyLocation_init "ny" (Some "newyork");
    ProxyLocation_init "ma" (Some "boston");
    ProxyLocation_init "dc" (Some "washington");
    ProxyLocation_init "fl" (Some "miami");
    ProxyLocation_init "ga" (Some "atlanta");
    ProxyLocation_init "il" (Some "chicago");
    ProxyLocation_init "tx" (Some "austin");
    ProxyLocation_init "tx" (Some "dallas");
    ProxyLocation_init "co" (Some "denver");
    ProxyLocation_init "nv" (Some "lasvegas");
    ProxyLocation_init "az" (Some "phoenix");
    ProxyLocation_init "pa" (Some "philadelphia");
    ProxyLocation_init "tx" (Some "houston");
    ProxyLocation_init "oh" (Some "columbus");
    ProxyLocation_init "mi" (Some "detroit") ].

(** The instance state of [class ProxyPool]. *)
Record ProxyPool := { current_index : nat; used_locations : gset string }.

(** [ProxyPool.__init__]. *)
Definition ProxyPool_init : ProxyPool :=
  {| current_index := 0; used_locations := ∅ |}.

Section WithCatalog.
(** The selector's operations, over the catalogue they read
    ([self.LOCATIONS]). *)
Variable catalog : list ProxyLocation.

(** [ProxyPool.get_next_location]; [None] is the [IndexError] of the
    subscript. *)
Definition get_next_location (p : ProxyPool) : option (ProxyLocation * ProxyPool) :=
  location ← catalog !! current_index p;
  Some (location,
        {| current_index := (current_index p + 1) mod length catalog;
           used_locations := used_locations p |}).

(** The comprehension of [get_random_location]: the locations whose
    string is not in [used_locations]. *)
Definition available (p : ProxyPool) : list ProxyLocation :=
  filter (λ loc, to_str loc ∉ used_locations p) catalog.

(** [ProxyPool.get_random_location] on the raw draw [r]; [None] is the
    [IndexError] of [random.choice]. *)
Definition get_random_location (r : nat) (p : ProxyPool)
  : option (ProxyLocation * ProxyPool) :=
  let '(used, avail) :=
    match available p with
    | [] => (∅, catalog)
    | _ :: _ => (used_locations p, available p)
    end in
  location ← Py.choice avail r;
  Some (location,
        {| current_index := current_index p;
           used_locations := {[to_str location]} ∪ used |}).

(** [n] successive calls of [get_next_location], with the locations
    they return in call order. *)
Fixpoint next_calls (n : nat) (p : ProxyPool) : option (list ProxyLocation * ProxyPool) :=
  match n with
  | O => Some ([], p)
  | S n' =>
      '(loc, p1) ← get_next_location p;
      '(locs, p2) ← next_calls n' p1;
      Some (loc :: locs, p2)
  end.

(** Whether a call of [get_random_location] in state [p] takes the
    branch that clears [used_locations]. *)
Definition resets (p : ProxyPool) : bool :=
  match available p with [] => true | _ :: _ => false end.

(** Successive calls of [get_random_location], one per raw draw; each
    returned location is paired with whether its call cleared the
    set. *)
Fixpoint random_calls (draws : list nat) (p : ProxyPool)
  : option (list (bool * ProxyLocation) * ProxyPool) :=
  match draws with
  | [] => Some ([], p)
  | r :: rest =>
      '(loc, p1) ← get_random_location r p;
      '(tr, p2) ← random_calls rest p1;
      Some ((resets p, loc) :: tr, p2)
  end.

End WithCatalog.

(** The locations returned since the last call that cleared the set
    (that call's own location included), in call order. *)
Definition since_reset (tr : list (bool * ProxyLocation)) : list ProxyLocation :=
  foldl (λ acc (c : bool * ProxyLocation), if c.1 then [c.2] else acc ++ [c.2]) [] tr.

(** [@dataclass class OxyLabsProxy]; [__post_init__] installs a fresh
    pool. *)
Record OxyLabsProxy := { username : string; password : string; _proxy_pool : ProxyPool }.

(** [OxyLabsProxy(username=user, password=pass)]. *)
Definition OxyLabsProxy_init (user pass : string) : OxyLabsProxy :=
  {| username := user; password := pass; _proxy_pool := ProxyPool_init |}.

(** [_get_full_username(location)] for a given location (a
    [ProxyLocation] object is always true, so the pool is not asked). *)
Definition _get_full_username (px : OxyLabsProxy) (location : ProxyLocation) : string :=
  "customer-" +:+ username px +:+ "-residential-" +:+ to_str location.

(** [get_url(location)]. *)
Definition get_url (px : OxyLabsProxy) (location : ProxyLocation) : string :=
  "http://" +:+ _get_full_username px location +:+ ":" +:+ password px
    +:+ "@pr.oxylabs.io:7777".

(** The dictionary returned by [get_next_proxy] and [get_random_proxy]. *)
Definition proxy_conf (px : OxyLabsProxy) (location : ProxyLocation) : gmap string string :=
  list_to_map
    [ ("url", get_url px location);
      ("username", _get_full_username px location);
      ("password", password px);
      ("location", to_str location);
      ("type", "residential") ].

(** The proxy object with its pool in state [p]. *)
Definition with_pool (px : OxyLabsProxy) (p : ProxyPool) : OxyLabsProxy :=
  {| username := username px; password := password px; _proxy_pool := p |}.

(** [OxyLabsProxy.get_next_proxy]. *)
Definition get_next_proxy (px : OxyLabsProxy) : option (gmap string string * OxyLabsProxy) :=
  '(location, p) ← get_next_location LOCATIONS (_proxy_pool px);
  Some (proxy_conf px location, with_pool px p).

(** [OxyLabsProxy.get_random_proxy] on the raw draw [r]. *)
Definition get_random_proxy (r : nat) (px : OxyLabsProxy)
  : option (gmap string string * OxyLabsProxy) :=
  '(location, p) ← get_random_location LOCATIONS r (_proxy_pool px);
  Some (proxy_conf px location, with_pool px p).

End proxy_pool.

(** ** browser_config.py *)

Module browser_config.

(** [@dataclass class ProxyLocation]. *)
Record ProxyLocation := { state : string; country : string }.

(** [ProxyLocation(state=st)], the country left at its default. *)
Definition ProxyLocation_of_state (st : string) : ProxyLocation :=
  {| state := st; country := "US" |}.

(** [BrowserFingerprint.RESOLUTIONS]. *)
Definition RESOLUTIONS : list (Z * Z) :=
  [ (1920, 1080); (1366, 768); (1536, 864);
    (1440, 900); (1280, 720); (1600, 900) ]%Z.

(** [BrowserFingerprint.CHROME_VERSIONS]. *)
Definition CHROME_VERSIONS : list string :=
  [ "120.0.0.0"; "119.0.0.0"; "118.0.0.0";
    "117.0.0.0"; "116.0.0.0"; "115.0.0.0" ].

(** One entry of [BrowserFingerprint.OS_CONFIGS]. *)
Record os_config := { os : string; versions : list string; platform : string }.

(** [BrowserFingerprint.OS_CONFIGS]. *)
Definition OS_CONFIGS : list os_config :=
  [ {| os := "Windows";
       versions := ["10.0"; "11.0"];
       platform := "Win64; x64" |};
    {| os := "Macintosh";
       versions := ["10_15_7"; "11_0_0"; "12_0_0"; "13_0_0"];
       platform := "Intel Mac OS X" |} ].

(** [BrowserFingerprint.TIMEZONE_MAP]. *)
Definition TIMEZONE_MAP : gmap string string :=
  list_to_map
    [ ("ny", "America/New_York");
      ("nj", "America/New_York");
      ("ca", "America/Los_Angeles");
      ("wa", "America/Los_Angeles");
      ("tx", "America/Chicago");
      ("fl", "America/New_York");
      ("il", "America/Chicago");
      ("az", "America/Phoenix");
      ("ga", "America/New_York") ].

(** [BrowserFingerprint.LOCALE_MAP]. *)
Definition LOCALE_MAP : gmap string string :=
  list_to_map
    [ ("ca", "en-CA");
      ("fl", "en-US");
      ("tx", "en-US");
      ("ny", "en-US");
      ("nj", "en-US");
      ("wa", "en-US");
      ("il", "en-US");
      ("az", "en-US");
      ("ga", "en-US") ].

(** The viewport dictionary [{'width': w, 'height': h}]. *)
Record viewport := { width : Z; height : Z }.

(** What one call of [generate] reads from outside: its raw random draws
    in call order, and the clock ([utc_offset tz] is
    [datetime.now(pytz.timezone(tz)).strftime('%z')] at call time). *)
Record fp_env := {
  utc_offset : string → string;
  r_os : nat;
  r_version : nat;
  r_chrome : nat;
  r_viewport : nat;
  r_shuffle : nat → nat
}.

(** [BrowserFingerprint._get_geographic_viewport] on the raw draw [r]. *)
Definition _get_geographic_viewport (location : ProxyLocation) (r : nat) : option viewport :=
  let east_coast : gset string := {[ "ny"; "nj"; "fl"; "ga" ]} in
  let west_coast : gset string := {[ "ca"; "wa" ]} in
  if decide (Py.lower (state location) ∈ east_coast) then
    Py.choice [ {| width := 1366; height := 768 |};
                {| width := 1440; height := 900 |};
                {| width := 1280; height := 720 |} ] r
  else if decide (Py.lower (state location) ∈ west_coast) then
    Py.choice [ {| width := 1920; height := 1080 |};
                {| width := 1536; height := 864 |};
                {| width := 1600; height := 900 |} ] r
  else
    Py.choice ((λ size : Z * Z, {| width := size.1; height := size.2 |}) <$> RESOLUTIONS) r.

(** [x[i], x[j] = x[j], x[i]]. *)
Definition swap {A} (x : list A) (i j : nat) : list A :=
  match x !! i, x !! j with
  | Some a, Some b => <[i:=b]> (<[j:=a]> x)
  | _, _ => x
  end.

(** The loop of [random.shuffle]: for [i] from [len(x) - 1] down to 1,
    swap [x[i]] with [x[randbelow(i + 1)]]; [draw i] is the raw draw of
    round [i]. *)
Fixpoint shuffle_from {A} (i : nat) (draw : nat → nat) (x : list A) : list A :=
  match i with
  | O => x
  | S i' => shuffle_from i' draw (swap x i (draw i mod (i + 1)))
  end.

(** [random.shuffle(x)]. *)
Definition shuffle {A} (draw : nat → nat) (x : list A) : list A :=
  shuffle_from (length x - 1) draw x.

(** The quality weights [1.0 - i * 0.1] for [i = 0 .. 3], printed with one
    decimal. *)
Definition quality_weights : list string := [ "1.0"; "0.9"; "0.8"; "0.7" ].

(** The dictionary returned by [generate]. The three fixed
    [evaluateOnNewDocument] script texts are constants that nothing in the
    package reads; they are not carried by the record. *)
Record fingerprint := {
  user_agent : string;
  fp_viewport : viewport;
  headers : gmap string string;
  timezone_id : string
}.

(** The user-agent text that [generate] composes from its three picks:
    the head by operating system, then the engine and browser part. *)
Definition compose_user_agent (cfg : os_config) (os_version chrome_version : string) : string :=
  let user_agent :=
    if decide (os cfg = "Windows") then
      "Mozilla/5.0 (" +:+ os cfg +:+ " NT " +:+ os_version +:+ "; " +:+ platform cfg +:+ ") "
    else
      "Mozilla/5.0 (" +:+ os cfg +:+ "; " +:+ platform cfg +:+ " " +:+ os_version +:+ ") " in
  user_agent +:+ "AppleWebKit/537.36 (KHTML, like Gecko) Chrome/" +:+ chrome_version
             +:+ " Safari/537.36".

(** [BrowserFingerprint.generate]; [None] is the [IndexError] of a
    [random.choice]. *)
Definition generate (proxy_location : ProxyLocation) (e : fp_env) : option fingerprint :=
  let timezone := default "America/Chicago" (TIMEZONE_MAP !! Py.lower (state proxy_location)) in
  let locale := default "en-US" (LOCALE_MAP !! Py.lower (state proxy_location)) in
  let timezone_offset := utc_offset e timezone in
  cfg ← Py.choice OS_CONFIGS (r_os e);
  os_version ← Py.choice (versions cfg) (r_version e);
  chrome_version ← Py.choice CHROME_VERSIONS (r_chrome e);
  let ua := compose_user_agent cfg os_version chrome_version in
  vp ← _get_geographic_viewport proxy_location (r_viewport e);
  let languages := shuffle (r_shuffle e) [ "en-US"; "en-GB"; "en-CA"; "en" ] in
  let accept_language :=
    Py.join "," (zip_with (λ lang q, lang +:+ ";q=" +:+ q) languages quality_weights) in
  Some {| user_agent := ua;
          fp_viewport := vp;
          headers := list_to_map
            [ ("accept-language", accept_language);
              ("sec-ch-ua-timezone", timezone);
              ("cookie", "timezone_offset=" +:+ timezone_offset +:+ ";") ];
          timezone_id := timezone |}.

End browser_config.

(** ** Parsed JSON and the Python operations applied to it *)

Module Json.

(** A value as [json.loads] builds it: [None], [bool], [int], [str],
    [list], and [dict] with its entries in insertion order. Numbers are the
    integer ones; fractional numbers are outside the model. *)
#[warnings="-register-all"]
Inductive json :=
| JNull
| JBool (b : bool)
| JNum (n : Z)
| JStr (s : string)
| JArr (xs : list json)
| JObj (kvs : list (string * json)).

(** The entries of a [dict]. *)
Abbreviation dict := (list (string * json)).

(** [d.get(k)], with [None] for Python's [None] of a missing key. *)
Fixpoint dict_get (k : string) (d : dict) : option json :=
  match d with
  | [] => None
  | (k', v) :: rest => if decide (k' = k) then Some v else dict_get k rest
  end.

(** [d[k] = v]: the value of an existing key is replaced in place, a new
    key goes last. *)
Fixpoint dict_set (k : string) (v : json) (d : dict) : dict :=
  match d with
  | [] => [(k, v)]
  | (k', v') :: rest =>
      if decide (k' = k) then (k', v) :: rest else (k', v') :: dict_set k v rest
  end.

(** [d.get(k)] as a value: a missing key reads [None]. *)
Definition get_or_none (k : string) (d : dict) : json :=
  default JNull (dict_get k d).

(** Truth value of a value ([bool(v)]). *)
Definition truthy (v : json) : bool :=
  match v with
  | JNull => false
  | JBool b => b
  | JNum n => negb (n =? 0)%Z
  | JStr s => Py.truthy_str s
  | JArr xs => match xs with [] => false | _ :: _ => true end
  | JObj kvs => match kvs with [] => false | _ :: _ => true end
  end.

(** [a or b]. *)
Definition py_or (a b : json) : json := if truthy a then a else b.

(** [str(v)]. Exact on text and on scalars. The display of a list or of a
    mapping is cut after its opening bracket: the callers only compare the
    result with names that hold no bracket. *)
Definition py_str (v : json) : string :=
  match v with
  | JNull => "None"
  | JBool true => "True"
  | JBool false => "False"
  | JNum n => pretty n
  | JStr s => s
  | JArr _ => "["
  | JObj _ => "{"
  end.

(** [[s.lower() for s in ts if isinstance(s, str)]]: iterating a list
    yields its elements, a string its characters, a mapping its keys; any
    other value is not iterable ([None] is the [TypeError]). *)
Definition lowered_strings (ts : json) : option (list string) :=
  match ts with
  | JArr xs =>
      Some (omap (λ x, match x with JStr s => Some (Py.lower s) | _ => None end) xs)
  | JStr s =>
      Some ((λ c, Py.lower (String c EmptyString)) <$> list_ascii_of_string s)
  | JObj kvs => Some ((λ kv : string * json, Py.lower kv.1) <$> kvs)
  | JNull | JBool _ | JNum _ => None
  end.

(** The key under which a [set] files a value: equal values share a key
    ([True == 1], [False == 0]); lists and mappings are unhashable ([None]
    is the [TypeError]). *)
Inductive hkey := KNone | KNum (n : Z) | KStr (s : string).

Definition hash_key (v : json) : option hkey :=
  match v with
  | JNull => Some KNone
  | JBool b => Some (KNum (if b then 1 else 0))
  | JNum n => Some (KNum n)
  | JStr s => Some (KStr s)
  | JArr _ | JObj _ => None
  end.

#[global] Instance hkey_eq_dec : EqDecision hkey.
Proof. solve_decision. Defined.

#[global] Instance hkey_countable : Countable hkey.
Proof.
  refine (inj_countable'
    (λ k, match k with
          | KNone => inl ()
          | KNum n => inr (inl n)
          | KStr s => inr (inr s)
          end)
    (λ x : unit + (Z + string), match x with
          | inl _ => KNone
          | inr (inl n) => KNum n
          | inr (inr s) => KStr s
          end) _).
  intros []; reflexivity.
Defined.

End Json.

(** ** tradingview_proxy.py *)

Module tradingview_proxy.
Import Json.

(** [_parse_state_from_location]. *)
Definition _parse_state_from_location (location : string) : string :=
  let parts := Py.split "-" location in
  if decide (2 ≤ length parts) then default "ca" (parts !! 1) else "ca".

(** The digits that [\d+] takes greedily at the head of [s]. The digit
    class is the ASCII one, [0] to [9]: exact on ASCII text, which every
    user agent that [generate] composes is; on other text the regular
    expression also takes the decimal digits of other scripts. *)
Fixpoint leading_digits (s : string) : string :=
  match s with
  | EmptyString => EmptyString
  | String c rest =>
      if (48 <=? nat_of_ascii c) && (nat_of_ascii c <=? 57)
      then String c (leading_digits rest) else EmptyString
  end.

(** [s[n:]]. *)
Fixpoint string_drop (n : nat) (s : string) : string :=
  match n, s with
  | O, _ => s
  | S n', String _ rest => string_drop n' rest
  | S _, EmptyString => EmptyString
  end.

(** [re.search(r"Chrome/(\d+)", ua)], returning [m.group(1)] of the
    leftmost match; [None] when there is no match. *)
Fixpoint search_chrome_major (ua : string) : option string :=
  let here :=
    if Py.startswith "Chrome/" ua then leading_digits (string_drop 7 ua)
    else EmptyString in
  if Py.truthy_str here then Some here
  else match ua with
       | EmptyString => None
       | String _ rest => search_chrome_major rest
       end.

(** [_infer_client_hints_from_ua]: (platform, sec_ch_ua, mobile). *)
Definition _infer_client_hints_from_ua (ua : string) : string * string * string :=
  let platform :=
    if Py.contains "Windows" ua then Py.dq +:+ "Windows" +:+ Py.dq
    else if Py.contains "Macintosh" ua then Py.dq +:+ "macOS" +:+ Py.dq
    else Py.dq +:+ "Linux" +:+ Py.dq in
  let m := search_chrome_major ua in
  let major := match m with Some g => g | None => "120" end in
  let sec_ch_ua :=
    Py.dq +:+ "Chromium" +:+ Py.dq +:+ ";v=" +:+ Py.dq +:+ major +:+ Py.dq +:+ ", "
      +:+ Py.dq +:+ "Google Chrome" +:+ Py.dq +:+ ";v=" +:+ Py.dq +:+ major +:+ Py.dq +:+ ", "
      +:+ Py.dq +:+ "Not:A-Brand" +:+ Py.dq +:+ ";v=" +:+ Py.dq +:+ "99" +:+ Py.dq in
  let mobile := "?0" in
  (platform, sec_ch_ua, mobile).

(** [item.get("typespecs") or item.get("typeSpecs") or []]. *)
Definition typespecs_of (item : dict) : json :=
  py_or (py_or (get_or_none "typespecs" item) (get_or_none "typeSpecs" item)) (JArr []).

(** [has_crypto] of [keep], also the test of [_strip_tv_fields]:
    ["crypto" in ts_lower]. *)
Definition has_crypto (item : dict) : option bool :=
  ts_lower ← lowered_strings (typespecs_of item);
  Some (bool_decide ("crypto" ∈ ts_lower)).

(** [v == s] for a looked-up value [v] and a text [s]. *)
Definition eq_text (v : option json) (s : string) : bool :=
  match v with
  | Some (JStr s') => bool_decide (s' = s)
  | _ => false
  end.

(** [remove_keys] of [_strip_tv_fields]. *)
Definition remove_keys : gset string :=
  {[ "provider_id"; "source_logoid"; "source2"; "source_id" ]}.

(** [_strip_tv_fields]; [None] is the [TypeError] of iterating markers
    that are not iterable. *)
Definition _strip_tv_fields (item : json) : option json :=
  match item with
  | JObj kvs =>
      let cleaned := filter (λ kv : string * json, kv.1 ∉ remove_keys) kvs in
      if eq_text (dict_get "type" cleaned) "spot" then
        crypto ← has_crypto cleaned;
        Some (JObj (if crypto : bool then dict_set "type" (JStr "crypto") cleaned else cleaned))
      else Some (JObj cleaned)
  | _ => Some item
  end.

(** [t] of [keep]: [str(item.get("type", "")).lower()]. *)
Definition category (item : dict) : string :=
  Py.lower (py_str (default (JStr EmptyString) (dict_get "type" item))).

(** The local function [keep] of the search; [None] is the [TypeError] of
    iterating markers that are not iterable. *)
Definition keep (item : dict) : option bool :=
  let t := category item in
  crypto ← has_crypto item;
  if decide (t ∈ ({[ "index"; "forex"; "stock" ]} : gset string)) then Some (negb crypto)
  else if decide (t = "spot") then Some (crypto : bool)
  else Some false.

(** [[x for x in data if isinstance(x, dict) and keep(x)]]. *)
Fixpoint filtered_of (data : list json) : option (list dict) :=
  match data with
  | [] => Some []
  | JObj item :: rest =>
      k ← keep item;
      tail ← filtered_of rest;
      Some (if k : bool then item :: tail else tail)
  | _ :: rest => filtered_of rest
  end.

(** One round of the deduplication loop on the pair ([seen], [deduped]);
    [None] is the [TypeError] of an unhashable symbol. *)
Definition dedupe_step (st : gset hkey * list dict) (item : dict)
  : option (gset hkey * list dict) :=
  let sym := get_or_none "symbol" item in
  if truthy sym then
    k ← hash_key sym;
    if decide (k ∈ st.1) then Some st
    else Some ({[k]} ∪ st.1, st.2 ++ [item])
  else Some st.

(** The loop [for item in filtered: ...] from a given pair. *)
Fixpoint dedupe_from (st : gset hkey * list dict) (filtered : list dict)
  : option (gset hkey * list dict) :=
  match filtered with
  | [] => Some st
  | item :: rest => st' ← dedupe_step st item; dedupe_from st' rest
  end.

(** The deduplication block: [seen = set(); deduped = []; for ...]. *)
Definition dedupe (filtered : list dict) : option (list dict) :=
  snd <$> dedupe_from (∅, []) filtered.

(** Filter, deduplicate and strip one sequence of items. *)
Definition deduped_clean_of (items : list json) : option (list json) :=
  filtered ← filtered_of items;
  deduped ← dedupe filtered;
  mapM (λ it, _strip_tv_fields (JObj it)) deduped.

(** What the three-way test on the parsed payload leads to. *)
Inductive shaped := Normalized (payload : json) | UnknownStructure.

(** The body of the [try] after [resp.json()]: the payload to serialise,
    or the unknown-structure branch; [None] when an exception is raised
    on the way. *)
Definition normalize (data : json) : option shaped :=
  match data with
  | JArr items =>
      deduped_clean ← deduped_clean_of items;
      Some (Normalized (JArr deduped_clean))
  | JObj kvs =>
      match dict_get "symbols" kvs with
      | Some (JArr items) =>
          deduped_clean ← deduped_clean_of items;
          Some (Normalized (JObj (dict_set "symbols" (JArr deduped_clean) kvs)))
      | _ => Some UnknownStructure
      end
  | _ => Some UnknownStructure
  end.


(** The upstream answer as the search reads it: [resp.status_code],
    [resp.content], [resp.text], the content-type header if any, and the
    value of [resp.json()] ([None] when parsing raises). *)
Record response := {
  status_code : Z;
  content : string;
  text : string;
  content_type_header : option string;
  json_body : option json
}.

(** What [client.get] does in one attempt: it answers, or raises an
    exception whose [str()] is the message. *)
Inductive reply := Answers (resp : response) | Raises (message : string).

(** What one attempt reads from outside, in the order of use: the raw draw
    of the proxy choice, the environment of the fingerprint, the network,
    and the value of [random.random()] behind [random.uniform]. *)
Record attempt_env := {
  proxy_draw : nat;
  fingerprint_env : browser_config.fp_env;
  network : reply;
  jitter_draw : Q
}.

(** The observable effects of a search, in order: an upstream GET through
    a proxy, and a sleep of so many seconds. *)
Inductive event :=
| Get (proxy_url : string) (params : gmap string string) (hdrs : gmap string string)
| Sleep (seconds : Q).

(** How a search ends: [return content, content_type], or
    [raise TradingViewProxyError(message)]. *)
Inductive result :=
| Return (body : string) (content_type : string)
| TradingViewProxyError (message : string).

(** How one round of the loop ends: a [return], or a failure with its
    diagnostic ([last_error]). *)
Inductive attempt_end :=
| Done (body : string) (content_type : string)
| Failed (last_error : string).

(** [random.uniform(a, b)] on the value [u] of [random.random()]. *)
Definition uniform (a b u : Q) : Q := (a + (b - a) * u)%Q.

(** [d.setdefault(k, v)]. *)
Definition setdefault (k v : string) (d : gmap string string) : gmap string string :=
  match d !! k with
  | Some _ => d
  | None => <[k := v]> d
  end.

(** The parameters sent upstream: a copy of the caller's with the two
    defaults. *)
Definition outbound_params (params : gmap string string) : gmap string string :=
  setdefault "limit" "50" (setdefault "lang" "en" params).

(** The header dictionary of one attempt. *)
Definition outbound_headers (fp : browser_config.fingerprint) : gmap string string :=
  let ua := browser_config.user_agent fp in
  let '(platform, sec_ch_ua, sec_ch_mobile) := _infer_client_hints_from_ua ua in
  let accept_language :=
    default "en-US,en;q=0.9" (browser_config.headers fp !! "accept-language") in
  let headers : gmap string string :=
    list_to_map
      [ ("User-Agent", ua);
        ("Accept", "application/json, text/plain, */*");
        ("Accept-Language", accept_language);
        ("Accept-Encoding", "gzip, deflate, br");
        ("Origin", "https://www.tradingview.com");
        ("Referer", "https://www.tradingview.com/");
        ("Connection", "keep-alive");
        ("Pragma", "no-cache");
        ("Cache-Control", "no-cache");
        ("sec-ch-ua", sec_ch_ua);
        ("sec-ch-ua-mobile", sec_ch_mobile);
        ("sec-ch-ua-platform", platform);
        ("Sec-Fetch-Site", "same-site");
        ("Sec-Fetch-Mode", "cors");
        ("Sec-Fetch-Dest", "empty") ] in
  let headers :=
    match browser_config.headers fp !! "cookie" with
    | Some c => <["Cookie" := c]> headers
    | None => headers
    end in
  match browser_config.headers fp !! "sec-ch-ua-timezone" with
  | Some tz => <["sec-ch-ua-timezone" := tz]> headers
  | None => headers
  end.

(** [str()] of the [IndexError] that [random.choice] raises on an empty
    sequence. *)
Definition empty_choice_message : string := "Cannot choose from an empty sequence".

Section Search.
(** [json.dumps(value).encode("utf-8")]. *)
Variable dumps : json → string.

(** The branch [if 200 <= resp.status_code < 300] of an attempt. *)
Definition on_success (resp : response) : string * string :=
  let content_type := default "application/json" (content_type_header resp) in
  match json_body resp with
  | None => (content resp, content_type)
  | Some data =>
      match normalize data with
      | Some (Normalized payload) => (dumps payload, "application/json")
      | Some UnknownStructure => (content resp, content_type)
      | None => (content resp, content_type)
      end
  end.

(** What a round makes of the GET: a 2xx answer ends the search with
    [on_success]; any other answer, and any exception, is a failure with
    its diagnostic. *)
Definition classify (r : reply) : attempt_end :=
  match r with
  | Raises message => Failed message
  | Answers resp =>
      if decide (200 ≤ status_code resp < 300)%Z then
        let '(body, content_type) := on_success resp in Done body content_type
      else
        Failed (pretty (status_code resp) +:+ " " +:+ Py.take_chars 200 (text resp))
  end.

(** The body of the loop up to the point where it returns or records
    [last_error]: the proxy after the selection, the effects, and how the
    round ends. This is the round in which the transport and the client
    are set up, so that [client.get] is reached; [attempt_with_setup]
    below is the round in full. *)
Definition attempt (params : gmap string string) (e : attempt_env)
    (proxy : proxy_pool.OxyLabsProxy)
  : proxy_pool.OxyLabsProxy * list event * attempt_end :=
  match proxy_pool.get_random_proxy (proxy_draw e) proxy with
  | None => (proxy, [], Failed empty_choice_message)
  | Some (conf, proxy') =>
      let location := default EmptyString (conf !! "location") in
      let state := _parse_state_from_location location in
      match browser_config.generate (browser_config.ProxyLocation_of_state state)
                                    (fingerprint_env e) with
      | None => (proxy', [], Failed empty_choice_message)
      | Some fp =>
          let headers := outbound_headers fp in
          let get := Get (default EmptyString (conf !! "url")) params headers in
          (proxy', [get], classify (network e))
      end
  end.

(** What a search did: its end, its effects in order, and the proxy
    object as the search leaves it. *)
Record run := { outcome : result; trace : list event; proxy_after : proxy_pool.OxyLabsProxy }.

(** The run [r] preceded by the effects [evs]. *)
Definition after (evs : list event) (r : run) : run :=
  {| outcome := outcome r; trace := evs ++ trace r; proxy_after := proxy_after r |}.

(** [str(last_error)] in the final message. *)
Definition show_last_error (last_error : option string) : string :=
  match last_error with Some s => s | None => "None" end.

(** The loop [for _ in range(attempts)] with [n] rounds to go, round [k]
    reading [envs k], followed by the final [raise]. Both failure paths
    record [last_error], draw the jitter, sleep and continue. *)
Fixpoint rounds (params : gmap string string) (envs : nat → attempt_env)
    (n k : nat) (last_error : option string) (proxy : proxy_pool.OxyLabsProxy) : run :=
  match n with
  | O =>
      {| outcome := TradingViewProxyError
           ("TradingView search failed after retries: " +:+ show_last_error last_error);
         trace := [];
         proxy_after := proxy |}
  | S n' =>
      let '(proxy', evs, ending) := attempt params (envs k) proxy in
      match ending with
      | Done body content_type =>
          {| outcome := Return body content_type; trace := evs; proxy_after := proxy' |}
      | Failed message =>
          let jitter := uniform (1 # 4) (4 # 5) (jitter_draw (envs k)) in
          after (evs ++ [Sleep jitter])
                (rounds params envs n' (S k) (Some message) proxy')
      end
  end.

(** [tradingview_symbol_search(proxy, params, attempts)], every round
    reaching its [client.get]. *)
Definition tradingview_symbol_search (proxy : proxy_pool.OxyLabsProxy)
    (params : gmap string string) (attempts : Z) (envs : nat → attempt_env) : run :=
  rounds (outbound_params params) envs (Z.to_nat attempts) 0 None proxy.

(** The rounds in full. The [try] of a round also covers
    [httpx.AsyncHTTPTransport(proxy=conf["url"], verify=True)] and
    [httpx.AsyncClient(transport=transport, timeout=15.0)], which come
    after the headers and before [client.get]. What they do in a round is
    its [set_up]: [None] when the transport and the client are set up, and
    the [str()] of the exception when setting them up raises. Nothing is
    sent then, and the [except] branch records the message, sleeps and
    continues as for any other exception. *)
Definition attempt_with_setup (params : gmap string string) (e : attempt_env)
    (set_up : option string) (proxy : proxy_pool.OxyLabsProxy)
  : proxy_pool.OxyLabsProxy * list event * attempt_end :=
  match proxy_pool.get_random_proxy (proxy_draw e) proxy with
  | None => (proxy, [], Failed empty_choice_message)
  | Some (conf, proxy') =>
      let location := default EmptyString (conf !! "location") in
      let state := _parse_state_from_location location in
      match browser_config.generate (browser_config.ProxyLocation_of_state state)
                                    (fingerprint_env e) with
      | None => (proxy', [], Failed empty_choice_message)
      | Some fp =>
          let headers := outbound_headers fp in
          match set_up with
          | Some message => (proxy', [], Failed message)
          | None =>
              let get := Get (default EmptyString (conf !! "url")) params headers in
              (proxy', [get], classify (network e))
          end
      end
  end.

(** The loop over the rounds in full: round [k] reads [envs k] and
    [set_ups k]. *)
Fixpoint rounds_with_setup (params : gmap string string) (envs : nat → attempt_env)
    (set_ups : nat → option string) (n k : nat) (last_error : option string)
    (proxy : proxy_pool.OxyLabsProxy) : run :=
  match n with
  | O =>
      {| outcome := TradingViewProxyError
           ("TradingView search failed after retries: " +:+ show_last_error last_error);
         trace := [];
         proxy_after := proxy |}
  | S n' =>
      let '(proxy', evs, ending) := attempt_with_setup params (envs k) (set_ups k) proxy in
      match ending with
      | Done body content_type =>
          {| outcome := Return body content_type; trace := evs; proxy_after := proxy' |}
      | Failed message =>
          let jitter := uniform (1 # 4) (4 # 5) (jitter_draw (envs k)) in
          after (evs ++ [Sleep jitter])
                (rounds_with_setup params envs set_ups n' (S k) (Some message) proxy')
      end
  end.

(** [tradingview_symbol_search(proxy, params, attempts)] in full. *)
Definition tradingview_symbol_search_with_setup (proxy : proxy_pool.OxyLabsProxy)
    (params : gmap string string) (attempts : Z) (envs : nat → attempt_env)
    (set_ups : nat → option string) : run :=
  rounds_with_setup (outbound_params params) envs set_ups (Z.to_nat attempts) 0 None proxy.

End Search.

End tradingview_proxy.

(** ** tradingview_main.py *)

Module tradingview_main.
Import Json.

(** The line feed of the literals. *)
Definition newline : string := String (ascii_of_nat 10) EmptyString.

(** [c.isspace()] on one ASCII character. *)
Definition isspace (c : ascii) : bool :=
  let n := nat_of_ascii c in
  ((9 <=? n)%nat && (n <=? 13)%nat) || ((28 <=? n)%nat && (n <=? 32)%nat).

(** [s.lstrip()]. *)
Fixpoint lstrip (s : string) : string :=
  match s with
  | EmptyString => EmptyString
  | String c rest => if isspace c then lstrip rest else s
  end.

(** [s.rstrip()]. *)
Fixpoint rstrip (s : string) : string :=
  match s with
  | EmptyString => EmptyString
  | String c rest =>
      match rstrip rest with
      | EmptyString => if isspace c then EmptyString else String c EmptyString
      | kept => String c kept
      end
  end.

(** [s.strip()]. *)
Definition strip (s : string) : string := lstrip (rstrip s).

(** A subscript: [v[i]] or [v[k]]. *)
Inductive subscript := Index (i : nat) | Key (k : string).

(** The exceptions that the handler's code can raise on a parsed value:
    [or_resp.json()] on a body that is no JSON, a missing key or index, a
    value that takes no such subscript, has no length, or has no such
    method. *)
Inductive exception :=
| JSONDecodeError
| KeyError (k : subscript)
| IndexError
| TypeError_subscript (v : json) (k : subscript)
| TypeError_len (v : json)
| AttributeError (v : json) (attribute : string).

(** A value, or the exception raised instead. *)
Definition raising (A : Type) : Type := exception + A.

Definition bind_raising {A B} (x : raising A) (f : A → raising B) : raising B :=
  match x with inl e => inl e | inr a => f a end.

Notation "x ←! e ; k" := (bind_raising e (λ x, k))
  (at level 20, e at level 100, k at level 200, right associativity, only parsing).

(** [v[k]]. A parsed mapping has text keys only, so an integer subscript
    is a missing key. *)
Definition getitem (v : json) (k : subscript) : raising json :=
  match v, k with
  | JObj d, Key s =>
      match dict_get s d with Some x => inr x | None => inl (KeyError k) end
  | JObj _, Index _ => inl (KeyError k)
  | JArr xs, Index i =>
      match xs !! i with Some x => inr x | None => inl IndexError end
  | JStr s, Index i =>
      match Py.char_at i s with
      | Some c => inr (JStr c)
      | None => inl IndexError
      end
  | _, _ => inl (TypeError_subscript v k)
  end.

(** [len(v)]. *)
Definition len (v : json) : raising nat :=
  match v with
  | JArr xs => inr (length xs)
  | JObj d => inr (length d)
  | JStr s => inr (Py.len_chars s)
  | _ => inl (TypeError_len v)
  end.

(** [d.pop(k, None)] on a copy of the mapping. *)
Definition pop (k : string) (d : dict) : dict := filter (λ kv, kv.1 ≠ k) d.

Definition OPENROUTER_URL : string := "https://openrouter.ai/api/v1/chat/completions".

Definition model_name : string := "google/gemini-2.0-flash-lite-001".

(** [schema]. *)
Definition schema : json :=
  JObj
    [ ("type", JStr "array");
      ("items",
       JObj
         [ ("type", JStr "object");
           ("properties",
            JObj
              [ ("symbol",
                 JObj
                   [ ("type", JStr "string");
                     ("description",
                      JStr "Normalized canonical symbol in UPPERCASE. CRYPTO uses BASE-QUOTE with hyphen (e.g., BTC-USD), FOREX uses concatenated (e.g., EURUSD).") ]);
                ("type",
                 JObj
                   [ ("type", JStr "string");
                     ("enum",
                      JArr [ JStr "stocks"; JStr "indices"; JStr "crypto"; JStr "forex" ]) ]);
                ("score",
                 JObj
                   [ ("type", JStr "number");
                     ("description", JStr "Relevance score; higher is better") ]) ]);
           ("required", JArr [ JStr "symbol"; JStr "type"; JStr "score" ]);
           ("additionalProperties", JBool false) ]) ].

(** [system_instructions]: the adjacent literals of the source, one per
    line. *)
Definition system_instructions : string :=
  "You are a STRICT normalizer, deduplicator, and ranker of market symbols for API consumption. "
  +:+ "STRICTLY return only JSON that matches the provided schema (no prose, no code fences, no explanations). "
  +:+ "Each array item MUST contain: symbol, type, score; display is optional. "
  +:+ "TYPE MUST BE EXACTLY one of: stocks, indices, forex, crypto (lowercase). "
  +:+ "SYMBOL normalization rules: "
  +:+ "- !! STOCKS/INDICES: Use exact uppercase ticker (AAPL, SPY, SPX, DJI). "
  +:+ "- !!! FOREX: Concatenated pairs in uppercase (EURUSD, GBPUSD, USDJPY). "
  +:+ "- !!!!!!!!!!!!! CRYPTO: MANDATORY BASE-USD format with hyphen (BTC-USD, ETH-USD, SOL-USD). !!!!! !!!!NEVER use BTCUSD, SOLUSDT, or other variations.1!!!!!"
  +:+ "DEDUPLICATION: Return ONLY 1 crypto symbol per base asset. For 'solana' query return ONLY SOL-USD, not SOLANA/SOLUSD/SOLUSDT variants. "
  +:+ "!! MANDATORY: Always return at least 1 object in the response array, never return empty array !! "
  +:+ "SCORING: Use 0.0-1.0 range, higher = more relevant to query. "
  +:+ "Available symbol universe includes: "
  +:+ "RANKING: Rank primarily by intent match to the user's query, then by general popularity/commonness. Break ties by shorter canonical symbol. "
  +:+ "SCORE: Use a 0..1 float (3 decimals preferred). Sort the array by descending score. "
  +:+ "LIMIT: Return at most 25 items. "
  +:+ newline +:+ newline
  +:+ "CONSTRAINTS: Only include assets present in or directly implied by the provided Symbols JSON. Do NOT invent unrelated assets. "
  +:+ "IGNORE non-supported categories (e.g., commodities) if they appear; only output the allowed types. "
  +:+ newline +:+ newline
  +:+ "MAPPING EXAMPLES (NOT OUTPUT, FOR REFERENCE ONLY): "
  +:+ "Crypto: BTC-USD, ETH-USD, SOL-USD, DOGE-USD, TON-USD. "
  +:+ "Forex: EURUSD, GBPUSD, USDJPY, USDCAD, CADUSD, JPYUSD. "
  +:+ "Stocks: SPY, NVDA, PLTR, TSLA, AAPL, MSFT. "
  +:+ "Indices: SPX, DJI, NDX, DAX, UKX. "
  +:+ "ALL SYMBOLS THAT ARE OF TYPE CRYPTO MUST BE IN THE FORMAT XXX-XXX MUST HAVE THE DASH IN BETWEEN THE BASE AND QUOTE AS IN SOL-USD NOT SOLUSDT OR SOLUSD"
  +:+ "NEVER EVER RETURN ANYHTING LIKE SOL-USDT, SOLUSD, SOLANA, solan||||||| !!!SOL-USD IS THE ONLY CORRECT ONE!!"
  +:+ "ALL SYMBOLS THAT ARE OF TYPE CRYPTO MUST BE IN THE FORMAT XXX-XXX MUST HAVE THE DASH IN BETWEEN THE BASE AND QUOTE AS IN SOL-USD NOT SOLUSDT OR SOLUSD"
  +:+ "NEVER EVER RETURN ANYHTING LIKE SOL-USDT, SOLUSD, SOLANA, solan||||||| !!!SOL-USD IS THE ONLY CORRECT ONE!!"
  +:+ "ALL SYMBOLS THAT ARE OF TYPE CRYPTO MUST BE IN THE FORMAT XXX-XXX MUST HAVE THE DASH IN BETWEEN THE BASE AND QUOTE AS IN SOL-USD NOT SOLUSDT OR SOLUSD"
  +:+ "NEVER EVER RETURN ANYHTING LIKE SOL-USDT, SOLUSD, SOLANA, solan||||||| !!!SOL-USD IS THE ONLY CORRECT ONE!!"
  +:+ "ALL SYMBOLS THAT ARE OF TYPE CRYPTO MUST BE IN THE FORMAT XXX-XXX MUST HAVE THE DASH IN BETWEEN THE BASE AND QUOTE AS IN SOL-USD NOT SOLUSDT OR SOLUSD"
  +:+ "NEVER EVER RETURN ANYHTING LIKE SOL-USDT, SOLUSD, SOLANA, solan||||||| !!!SOL-USD IS THE ONLY CORRECT ONE!!"
  +:+ "ALL SYMBOLS THAT ARE OF TYPE CRYPTO MUST BE IN THE FORMAT XXX-XXX MUST HAVE THE DASH IN BETWEEN THE BASE AND QUOTE AS IN SOL-USD NOT SOLUSDT OR SOLUSD"
  +:+ "NEVER EVER RETURN ANYHTING LIKE SOL-USDT, SOLUSD, SOLANA, solan||||||| !!!SOL-USD IS THE ONLY CORRECT ONE!!".

(** The list of items handed to the ranking model: the payload itself
    when it is a list, its [symbols] when that is a list, else none. *)
Definition items_of (data : json) : list json :=
  match data with
  | JArr items => items
  | JObj kvs =>
      match dict_get "symbols" kvs with
      | Some (JArr items) => items
      | _ => []
      end
  | _ => []
  end.

(** [params.get("text") or params.get("query") or ""]. *)
Definition user_query (params : gmap string string) : string :=
  match params !! "text" with
  | Some t => if Py.truthy_str t then t else
      match params !! "query" with
      | Some q => if Py.truthy_str q then q else EmptyString
      | None => EmptyString
      end
  | None =>
      match params !! "query" with
      | Some q => if Py.truthy_str q then q else EmptyString
      | None => EmptyString
      end
  end.

(** How the request ends: a [Response] (status 200), a raised
    [HTTPException], or the [TradingViewProxyError] of the search, which
    is raised again and reaches [tv_proxy_error_handler]. *)
Inductive handled :=
| Response (content : string) (media_type : string)
| HTTPException (status_code : Z) (detail : string)
| ProxyError (message : string).

(** [tv_proxy_error_handler]: the status and the content of its
    [JSONResponse]. *)
Definition tv_proxy_error_handler (message : string) : Z * json :=
  (502%Z, JObj [ ("error", JStr message) ]).

(** The observable effects of a request, in order: those of the search,
    and a POST to the ranking service. *)
Inductive effect :=
| Upstream (e : tradingview_proxy.event)
| Post (url : string) (hdrs : gmap string string) (body : json).

(** What a request did: its end, its effects in order, and the proxy
    object as the request leaves it. *)
Record run := {
  response : handled;
  effects : list effect;
  proxy_after : proxy_pool.OxyLabsProxy
}.

Section Handler.
(** [json.dumps(value).encode("utf-8")] of the search. *)
Variable dumps : json → string.
(** [json.loads(content.decode("utf-8"))]; [None] when it raises. *)
Variable loads_utf8 : string → option json.
(** [json.dumps(value, ensure_ascii=False)]. *)
Variable dumps_unicode : json → string.
(** [json.loads(s)]; [None] when it raises. *)
Variable loads : string → option json.
(** [str(e)] of an exception raised on a parsed value. *)
Variable str_exception : exception → string.
(** The module constant [OPENROUTER_API_KEY]. *)
Variable OPENROUTER_API_KEY : string.

(** [user_content]. *)
Definition user_content (query : string) (items : list json) : string :=
  "Query:" +:+ query +:+ newline +:+ "Symbols JSON: " +:+ dumps_unicode (JArr items).

(** [payload]. *)
Definition payload (query : string) (items : list json) : dict :=
  [ ("model", JStr model_name);
    ("messages",
     JArr
       [ JObj [ ("role", JStr "system"); ("content", JStr system_instructions) ];
         JObj [ ("role", JStr "user"); ("content", JStr (user_content query items)) ] ]);
    ("temperature", JNum 0);
    ("max_tokens", JNum 800);
    ("provider", JObj [ ("require_parameters", JBool true) ]);
    ("response_format",
     JObj
       [ ("type", JStr "json_schema");
         ("json_schema",
          JObj
            [ ("name", JStr "ranked_symbols");
              ("strict", JBool true);
              ("schema", schema) ]) ]) ].

(** [headers] of the POST. *)
Definition headers : gmap string string :=
  list_to_map
    [ ("Authorization", "Bearer " +:+ OPENROUTER_API_KEY);
      ("Content-Type", "application/json") ].

(** The test that sends the request again without [response_format]. *)
Definition schema_refused (resp : tradingview_proxy.response) : bool :=
  let txt := Py.take_chars 500 (tradingview_proxy.text resp) in
  (tradingview_proxy.status_code resp =? 400)%Z
  && (Py.contains "json_schema" txt || Py.contains "structured" txt
      || Py.contains "schema" txt).

(** [or_resp.status_code // 100 != 2]. *)
Definition not_2xx (resp : tradingview_proxy.response) : bool :=
  negb (tradingview_proxy.status_code resp / 100 =? 2)%Z.

(** From [or_data = or_resp.json()] to [llm_json]. *)
Definition llm_json_of (or_resp : tradingview_proxy.response) : raising json :=
  or_data ←! match tradingview_proxy.json_body or_resp with
             | Some d => inr d
             | None => inl JSONDecodeError
             end;
  choices ←! getitem or_data (Key "choices");
  choice ←! getitem choices (Index 0);
  message ←! getitem choice (Key "message");
  match message with
  | JObj m =>
      let tool_calls := get_or_none "tool_calls" m in
      use_tool_calls ←! (if truthy tool_calls
                         then n ←! len tool_calls; inr (0 <? n)%nat
                         else inr false);
      if use_tool_calls : bool then
        calls ←! getitem message (Key "tool_calls");
        call ←! getitem calls (Index 0);
        function ←! getitem call (Key "function");
        getitem function (Key "arguments")
      else inr (default (JStr EmptyString) (dict_get "content" m))
  | _ => inl (AttributeError message "get")
  end.

(** The [try] that normalises [llm_json] to a list; [None] when it
    raises. *)
Definition parsed_of (llm_json : json) : option json :=
  parsed ← match llm_json with
           | JObj _ | JArr _ => Some llm_json
           | JStr s => loads (strip s)
           | _ => None
           end;
  Some (match parsed with JArr _ => parsed | _ => JArr [] end).

(** From [llm_json] to the content of the [Response]. *)
Definition content_of (llm_json : json) : string :=
  if truthy llm_json then
    match parsed_of llm_json with
    | Some parsed => dumps_unicode parsed
    | None => "[]"
    end
  else "[]".

(** The end of the request once the ranking service has answered 2xx. *)
Definition ranked (or_resp : tradingview_proxy.response) : handled :=
  match llm_json_of or_resp with
  | inr llm_json => Response (content_of llm_json) "application/json"
  | inl e => HTTPException 500 (str_exception e)
  end.

(** Step 4: the POSTs and how the request ends; [post1] and [post2] are
    what the first and the second [client.post] do. *)
Definition call_openrouter (body : dict) (post1 post2 : tradingview_proxy.reply)
  : handled * list effect :=
  let first := Post OPENROUTER_URL headers (JObj body) in
  match post1 with
  | tradingview_proxy.Raises message => (HTTPException 500 message, [first])
  | tradingview_proxy.Answers or_resp =>
      if not_2xx or_resp then
        if schema_refused or_resp then
          let second := Post OPENROUTER_URL headers (JObj (pop "response_format" body)) in
          match post2 with
          | tradingview_proxy.Raises message =>
              (HTTPException 500 message, [first; second])
          | tradingview_proxy.Answers or_resp' =>
              if not_2xx or_resp' then
                (HTTPException 502 "LLM ranking service unavailable", [first; second])
              else (ranked or_resp', [first; second])
          end
        else (HTTPException 502 "LLM ranking service unavailable", [first])
      else (ranked or_resp, [first])
  end.

(** [tradingview_search(request)] on the query parameters [params], with
    the module's proxy object [tv_proxy], every round of the search
    reaching its [client.get]. *)
Definition tradingview_search (tv_proxy : proxy_pool.OxyLabsProxy)
    (params : gmap string string) (envs : nat → tradingview_proxy.attempt_env)
    (post1 post2 : tradingview_proxy.reply) : run :=
  let search := tradingview_proxy.tradingview_symbol_search dumps tv_proxy params 3 envs in
  let searched := Upstream <$> tradingview_proxy.trace search in
  match tradingview_proxy.outcome search with
  | tradingview_proxy.TradingViewProxyError message =>
      {| response := ProxyError message;
         effects := searched;
         proxy_after := tradingview_proxy.proxy_after search |}
  | tradingview_proxy.Return content content_type =>
      match loads_utf8 content with
      | None =>
          {| response := HTTPException 500 "Invalid TradingView JSON payload";
             effects := searched;
             proxy_after := tradingview_proxy.proxy_after search |}
      | Some data =>
          let '(end_, posts) :=
            call_openrouter (payload (user_query params) (items_of data)) post1 post2 in
          {| response := end_;
             effects := searched ++ posts;
             proxy_after := tradingview_proxy.proxy_after search |}
      end
  end.

(** [tradingview_search(request)] with the rounds of the search in full:
    [set_ups] is what setting up the transport and the client does in
    each round of the search. *)
Definition tradingview_search_with_setup (tv_proxy : proxy_pool.OxyLabsProxy)
    (params : gmap string string) (envs : nat → tradingview_proxy.attempt_env)
    (set_ups : nat → option string) (post1 post2 : tradingview_proxy.reply) : run :=
  let search :=
    tradingview_proxy.tradingview_symbol_search_with_setup dumps tv_proxy params 3 envs
      set_ups in
  let searched := Upstream <$> tradingview_proxy.trace search in
  match tradingview_proxy.outcome search with
  | tradingview_proxy.TradingViewProxyError message =>
      {| response := ProxyError message;
         effects := searched;
         proxy_after := tradingview_proxy.proxy_after search |}
  | tradingview_proxy.Return content content_type =>
      match loads_utf8 content with
      | None =>
          {| response := HTTPException 500 "Invalid TradingView JSON payload";
             effects := searched;
             proxy_after := tradingview_proxy.proxy_after search |}
      | Some data =>
          let '(end_, posts) :=
            call_openrouter (payload (user_query params) (items_of data)) post1 post2 in
          {| response := end_;
             effects := searched ++ posts;
             proxy_after := tradingview_proxy.proxy_after search |}
      end
  end.

End Handler.

(** The status that the client sees. *)
Definition status_of (h : handled) : Z :=
  match h with
  | Response _ _ => 200
  | HTTPException status_code _ => status_code
  | ProxyError message => (tv_proxy_error_handler message).1
  end.

End tradingview_main.

(** ** Calls on the selector in any order *)

(** One call on the selector: the round-robin one, or the randomised one
    with its raw draw. *)
Inductive selector_call := CallNext | CallRandom (r : nat).

(** The call [c] in state [p]. *)
Definition call_selector (catalog : list proxy_pool.ProxyLocation) (c : selector_call)
    (p : proxy_pool.ProxyPool) : option (proxy_pool.ProxyLocation * proxy_pool.ProxyPool) :=
  match c with
  | CallNext => proxy_pool.get_next_location catalog p
  | CallRandom r => proxy_pool.get_random_location catalog r p
  end.

(** The calls [cs] one after the other, with the locations they return. *)
Fixpoint selector_calls (catalog : list proxy_pool.ProxyLocation) (cs : list selector_call)
    (p : proxy_pool.ProxyPool)
  : option (list proxy_pool.ProxyLocation * proxy_pool.ProxyPool) :=
  match cs with
  | [] => Some ([], p)
  | c :: rest =>
      '(loc, p1) ← call_selector catalog c p;
      '(locs, p2) ← selector_calls catalog rest p1;
      Some (loc :: locs, p2)
  end.

(** How many of the calls are round-robin calls. *)
Fixpoint nexts (cs : list selector_call) : nat :=
  match cs with
  | [] => 0
  | CallNext :: rest => S (nexts rest)
  | CallRandom _ :: rest => nexts rest
  end.

(** * Vocabulary of the properties *)

(** ** The result normaliser: vocabulary of the properties *)

Section NormalizerVocabulary.
Import Json tradingview_proxy.

(** The symbol value of an item. *)
Definition symbol_of (item : dict) : json := get_or_none "symbol" item.

(** An item has a symbol value when its symbol is true in Python's sense:
    present, and not null, empty, zero or false. *)
Definition has_symbol (item : dict) : bool := truthy (symbol_of item).

(** The identity of an item's symbol value as a set tells values apart;
    [None] for a symbol that cannot be put in a set. *)
Definition symbol_key (item : dict) : option hkey := hash_key (symbol_of item).

(** Truth value of a hashable value, read off its key. *)
Definition key_truthy (k : hkey) : bool :=
  match k with
  | KNone => false
  | KNum n => negb (n =? 0)%Z
  | KStr s => Py.truthy_str s
  end.

(** Deduplication as the specification words it: going through the items
    in their original order, keep an item when it has a symbol value and
    no item before it ([earlier], kept or not) has the same symbol value. *)
Fixpoint first_occurrences (earlier items : list dict) : list dict :=
  match items with
  | [] => []
  | item :: rest =>
      if has_symbol item
         && bool_decide (Forall (λ e, symbol_key e ≠ symbol_key item) earlier)
      then item :: first_occurrences (earlier ++ [item]) rest
      else first_occurrences (earlier ++ [item]) rest
  end.

(** The filter as the specification words it, on a lower-cased category
    and the presence of a crypto marker. *)
Definition keep_rule (t : string) (crypto : bool) : bool :=
  if decide (t = "index" ∨ t = "forex" ∨ t = "stock") then negb crypto
  else if decide (t = "spot") then crypto
  else false.

(** An item carries none of the provenance-only fields. *)
Definition no_provenance (item : dict) : Prop :=
  Forall (λ kv : string * json, kv.1 ∉ remove_keys) item.




End NormalizerVocabulary.

(** ** The search executor: vocabulary of the properties *)

Section SearchVocabulary.
Import Json tradingview_proxy.

(** An attempt is a retryable failure when the GET raises or answers
    with a status outside [200, 300). *)
Definition retryable (r : reply) : Prop :=
  match r with
  | Raises _ => True
  | Answers resp => ¬ (200 ≤ status_code resp < 300)%Z
  end.

(** The diagnostic that a failed attempt records. *)
Definition diagnostic (r : reply) : string :=
  match r with
  | Raises message => message
  | Answers resp => pretty (status_code resp) +:+ " " +:+ Py.take_chars 200 (text resp)
  end.

(** A parsed payload that is neither a bare sequence nor a mapping with a
    sequence under symbols. *)
Definition unknown_structure (data : json) : Prop :=
  match data with
  | JArr _ => False
  | JObj kvs => ∀ items, dict_get "symbols" kvs ≠ Some (JArr items)
  | _ => True
  end.

(** The jitter of round [k]. *)
Definition jitter_of (envs : nat → attempt_env) (k : nat) : Q :=
  uniform (1 # 4) (4 # 5) (jitter_draw (envs k)).

End SearchVocabulary.

(** The sleeps of a run, in order. *)
Definition sleeps (tr : list tradingview_proxy.event) : list Q :=
  omap (λ ev, match ev with
              | tradingview_proxy.Sleep s => Some s
              | tradingview_proxy.Get _ _ _ => None
              end) tr.

(** * Sample data *)

(** A catalogue of three locations. *)
Definition small_catalog : list proxy_pool.ProxyLocation :=
  [ proxy_pool.ProxyLocation_init "NY" (Some "NewYork");
    proxy_pool.ProxyLocation_init "ca" None;
    proxy_pool.ProxyLocation_init "tx" (Some "austin") ].

(** An environment for examples: every raw draw is 0 and the clock reads
    eight hours behind UTC. *)
Definition sample_fp_env : browser_config.fp_env :=
  {| browser_config.utc_offset := λ _, "-0800";
     browser_config.r_os := 0;
     browser_config.r_version := 0;
     browser_config.r_chrome := 0;
     browser_config.r_viewport := 0;
     browser_config.r_shuffle := λ _, 0 |}.

(** Four filtered items: two that share the symbol AAPL and differ in a
    provenance field, one without a symbol, one with the symbol MSFT. *)
Definition sample_filtered : list Json.dict :=
  [ [("symbol", Json.JStr "AAPL"); ("type", Json.JStr "stock"); ("provider_id", Json.JStr "ice")];
    [("symbol", Json.JStr "AAPL"); ("type", Json.JStr "stock"); ("provider_id", Json.JStr "cboe")];
    [("type", Json.JStr "stock")];
    [("symbol", Json.JStr "MSFT"); ("type", Json.JStr "stock")] ].

(** The three items of the specification's filter example. *)
Definition filter_example : list Json.json :=
  [ Json.JObj [("symbol", Json.JStr "AAPL"); ("type", Json.JStr "stock");
               ("typespecs", Json.JArr [])];
    Json.JObj [("symbol", Json.JStr "BTC"); ("type", Json.JStr "spot");
               ("typespecs", Json.JArr [Json.JStr "crypto"])];
    Json.JObj [("symbol", Json.JStr "ETHX"); ("type", Json.JStr "spot");
               ("typespecs", Json.JArr [])] ].

(** A spot item with a crypto marker whose category is spelled in
    capitals. *)
Definition upper_spot_item : Json.dict :=
  [("symbol", Json.JStr "BTC"); ("type", Json.JStr "SPOT");
   ("typespecs", Json.JArr [Json.JStr "crypto"])].

(** An item as the normaliser itself emits it for a spot item with a
    crypto marker. *)
Definition crypto_item : Json.dict :=
  [("symbol", Json.JStr "BTC"); ("type", Json.JStr "crypto");
   ("typespecs", Json.JArr [Json.JStr "crypto"])].

(** Two items that pass the filter; the symbol value of the second is a
    list, which cannot be put in a set. *)
Definition list_symbol_items : list Json.dict :=
  [ [("symbol", Json.JStr "AAPL"); ("type", Json.JStr "stock")];
    [("symbol", Json.JArr [Json.JStr "A"]); ("type", Json.JStr "stock")] ].


(** A freshly constructed proxy object. *)
Definition sample_proxy : proxy_pool.OxyLabsProxy :=
  proxy_pool.OxyLabsProxy_init "user" "secret".

(** Environments in which attempt [k] is answered with the status
    [500 + k] and draws a jitter in the middle of the window. *)
Definition failing_envs (k : nat) : tradingview_proxy.attempt_env :=
  {| tradingview_proxy.proxy_draw := k;
     tradingview_proxy.fingerprint_env := sample_fp_env;
     tradingview_proxy.network :=
       tradingview_proxy.Answers
         {| tradingview_proxy.status_code := 500 + Z.of_nat k;
            tradingview_proxy.content := "blocked";
            tradingview_proxy.text := "blocked";
            tradingview_proxy.content_type_header := Some "text/plain";
            tradingview_proxy.json_body := None |};
     tradingview_proxy.jitter_draw := 1 # 2 |}.

(** A 200 answer whose body is a page, not JSON. *)
Definition html_page : tradingview_proxy.response :=
  {| tradingview_proxy.status_code := 200;
     tradingview_proxy.content := "<html></html>";
     tradingview_proxy.text := "<html></html>";
     tradingview_proxy.content_type_header := Some "text/html";
     tradingview_proxy.json_body := None |}.

(** Environments in which the first attempt is answered with 503 and
    every later one with [html_page]. *)
Definition html_envs (k : nat) : tradingview_proxy.attempt_env :=
  match k with
  | O => failing_envs 3
  | S _ =>
      {| tradingview_proxy.proxy_draw := k;
         tradingview_proxy.fingerprint_env := sample_fp_env;
         tradingview_proxy.network := tradingview_proxy.Answers html_page;
         tradingview_proxy.jitter_draw := 0 |}
  end.

(** ** Vocabulary of the further properties *)

(** A text without a hyphen. *)
Definition hyphen_free (s : string) : Prop := Py.contains "-" s = false.

(** A decimal digit. *)
Definition is_digit (c : ascii) : bool :=
  (48 <=? nat_of_ascii c) && (nat_of_ascii c <=? 57).

(** A text made of decimal digits only. *)
Fixpoint all_digits (s : string) : bool :=
  match s with
  | EmptyString => true
  | String c rest => is_digit c && all_digits rest
  end.

(** The digits that follow the marker Chrome/ when [s] starts with it:
    what the version search matches at the head of [s]. *)
Definition version_here (s : string) : string :=
  if Py.startswith "Chrome/" s
  then tradingview_proxy.leading_digits (tradingview_proxy.string_drop 7 s)
  else EmptyString.

(** The symbol key of an output value (of its mapping). *)
Definition symbol_key_of (v : Json.json) : option Json.hkey :=
  match v with
  | Json.JObj kvs => symbol_key kvs
  | _ => None
  end.

(** What the normaliser guarantees of each item it emits: a mapping
    without provenance-only fields, with a symbol value, whose type is not
    the text spot. *)
Definition clean_item (v : Json.json) : Prop :=
  ∃ kvs, v = Json.JObj kvs ∧ no_provenance kvs ∧ has_symbol kvs = true ∧
         Json.dict_get "type" kvs ≠ Some (Json.JStr "spot").

(** An upstream list with a spot-crypto item carrying provenance fields, a
    duplicate of it, a futures item and a stock item. *)
Definition raw_items : list Json.json :=
  [ Json.JObj [("symbol", Json.JStr "BTCUSD"); ("type", Json.JStr "spot");
               ("typespecs", Json.JArr [Json.JStr "Crypto"]);
               ("provider_id", Json.JStr "binance"); ("source_id", Json.JStr "BINANCE")];
    Json.JObj [("symbol", Json.JStr "BTCUSD"); ("type", Json.JStr "spot");
               ("typeSpecs", Json.JArr [Json.JStr "crypto"]);
               ("provider_id", Json.JStr "coinbase")];
    Json.JStr "noise";
    Json.JObj [("symbol", Json.JStr "BTC1!"); ("type", Json.JStr "futures")];
    Json.JObj [("symbol", Json.JStr "AAPL"); ("type", Json.JStr "Stock");
               ("source2", Json.JObj [("id", Json.JStr "NASDAQ")])] ].

(** A 200 answer whose second item has the number 5 as its markers. *)
Definition unreadable_answer : tradingview_proxy.response :=
  {| tradingview_proxy.status_code := 200;
     tradingview_proxy.content := "raw bytes";
     tradingview_proxy.text := "raw bytes";
     tradingview_proxy.content_type_header := Some "application/json; charset=utf-8";
     tradingview_proxy.json_body :=
       Some (Json.JArr [ Json.JObj [("symbol", Json.JStr "AAPL"); ("type", Json.JStr "stock")];
                         Json.JObj [("symbol", Json.JStr "X"); ("typespecs", Json.JNum 5)] ]) |}.

(** A text of ASCII characters only. *)
Fixpoint ascii_text (s : string) : bool :=
  match s with
  | EmptyString => true
  | String c rest => (nat_of_ascii c <? 128) && ascii_text rest
  end.

(** A round fails: setting up its transport raises, or its GET is a
    retryable failure. *)
Definition round_fails (set_up : option string) (r : tradingview_proxy.reply) : Prop :=
  match set_up with
  | Some _ => True
  | None => retryable r
  end.

(** The diagnostic that a failed round records. *)
Definition round_diagnostic (set_up : option string) (r : tradingview_proxy.reply)
  : string :=
  match set_up with
  | Some message => message
  | None => diagnostic r
  end.

(** Those of the rounds [k], ..., [k + n - 1] whose transport is set up,
    and which therefore send their GET. *)
Definition sent_rounds (set_ups : nat → option string) (k n : nat) : list nat :=
  filter (λ i, set_ups i = None) (seq k n).

(** The diagnostic on record after [n] failed rounds that started at
    round [k] with [last_error] on record. *)
Definition last_diagnostic (envs : nat → tradingview_proxy.attempt_env)
    (set_ups : nat → option string) (last_error : option string) (k n : nat)
  : option string :=
  match n with
  | O => last_error
  | S n' =>
      Some (round_diagnostic (set_ups (k + n')) (tradingview_proxy.network (envs (k + n'))))
  end.

(** A user agent as [generate] composes it. *)
Definition sample_user_agent : string :=
  "Mozilla/5.0 (Windows NT 10.0; Win64; x64) AppleWebKit/537.36 (KHTML, like Gecko) Chrome/120.0.0.0 Safari/537.36".

(** Set-ups of which only the second succeeds. *)
Definition sample_set_ups (k : nat) : option string :=
  match k with
  | 1 => None
  | _ => Some "Invalid proxy URL"
  end.

(** The proxy URLs of the GETs of a run, in order. *)
Definition requests (tr : list tradingview_proxy.event) : list string :=
  omap (λ ev, match ev with
              | tradingview_proxy.Get url _ _ => Some url
              | tradingview_proxy.Sleep _ => None
              end) tr.

(** The raw proxy draws of the rounds [k], ..., [k + m - 1]. *)
Definition draws_from (envs : nat → tradingview_proxy.attempt_env) (k m : nat) : list nat :=
  (λ i, tradingview_proxy.proxy_draw (envs i)) <$> seq k m.

(** The diagnostic on record after [n] failed rounds that started at
    round [k] with [last_error] on record. *)
Definition diagnostic_after (envs : nat → tradingview_proxy.attempt_env)
    (last_error : option string) (k n : nat) : option string :=
  match n with
  | O => last_error
  | S n' => Some (diagnostic (tradingview_proxy.network (envs (k + n'))))
  end.

(** ** The request handler: vocabulary of the properties *)

(** The POSTs of a request, in order: URL, headers and body. *)
Definition posts_of (effs : list tradingview_main.effect)
  : list (string * gmap string string * Json.json) :=
  omap (λ ef, match ef with
              | tradingview_main.Post url hdrs body => Some (url, hdrs, body)
              | tradingview_main.Upstream _ => None
              end) effs.

(** The effects of the search within a request, in order. *)
Definition upstream_of (effs : list tradingview_main.effect)
  : list tradingview_proxy.event :=
  omap (λ ef, match ef with
              | tradingview_main.Upstream ev => Some ev
              | tradingview_main.Post _ _ _ => None
              end) effs.

(** The first answer of the ranking service is a 400 whose first 500
    characters mention a schema or structured output. *)
Definition schema_complaint (post1 : tradingview_proxy.reply) : Prop :=
  ∃ or_resp,
    post1 = tradingview_proxy.Answers or_resp ∧
    tradingview_proxy.status_code or_resp = 400%Z ∧
    (Py.contains "schema" (Py.take_chars 500 (tradingview_proxy.text or_resp)) = true ∨
     Py.contains "structured" (Py.take_chars 500 (tradingview_proxy.text or_resp)) = true).

(** The search returned a content that parses. *)
Definition readable_search (loads_utf8 : string → option Json.json)
    (search : tradingview_proxy.run) : Prop :=
  ∃ content content_type data,
    tradingview_proxy.outcome search = tradingview_proxy.Return content content_type ∧
    loads_utf8 content = Some data.

(** ** Sample data of the request handler *)

(** What the normaliser makes of [raw_items]. *)
Definition clean_items : list Json.json :=
  [ Json.JObj [("symbol", Json.JStr "BTCUSD"); ("type", Json.JStr "crypto");
               ("typespecs", Json.JArr [Json.JStr "Crypto"])];
    Json.JObj [("symbol", Json.JStr "AAPL"); ("type", Json.JStr "Stock")] ].

(** A 200 answer that carries [raw_items]. *)
Definition listing_answer : tradingview_proxy.response :=
  {| tradingview_proxy.status_code := 200;
     tradingview_proxy.content := "raw listing";
     tradingview_proxy.text := "raw listing";
     tradingview_proxy.content_type_header := Some "application/json";
     tradingview_proxy.json_body := Some (Json.JArr raw_items) |}.

(** Environments in which every attempt is answered with
    [listing_answer]. *)
Definition listing_envs (k : nat) : tradingview_proxy.attempt_env :=
  {| tradingview_proxy.proxy_draw := k;
     tradingview_proxy.fingerprint_env := sample_fp_env;
     tradingview_proxy.network := tradingview_proxy.Answers listing_answer;
     tradingview_proxy.jitter_draw := 0 |}.

(** A serialiser and a parser that agree on one text. *)
Definition sample_dumps (v : Json.json) : string := "listing".

Definition sample_loads (s : string) : option Json.json :=
  if decide (s = "listing") then Some (Json.JArr clean_items) else None.

(** [str()] of the handler's exceptions, for the samples. *)
Definition sample_str_exception (e : tradingview_main.exception) : string := "error".

(** The two bytes of the letter e with an acute accent. *)
Definition e_acute : string :=
  String (ascii_of_nat 195) (String (ascii_of_nat 169) EmptyString).

(** A 400 answer whose text is 300 accented letters, 600 bytes, followed
    by the word schema. *)
Definition accented_refusal : tradingview_proxy.response :=
  {| tradingview_proxy.status_code := 400;
     tradingview_proxy.content := EmptyString;
     tradingview_proxy.text := Nat.iter 300 (λ s, e_acute +:+ s) "schema";
     tradingview_proxy.content_type_header := None;
     tradingview_proxy.json_body := None |}.

(** A ranking service that refuses the schema. *)
Definition schema_refusal : tradingview_proxy.reply :=
  tradingview_proxy.Answers
    {| tradingview_proxy.status_code := 400;
       tradingview_proxy.content := "provider does not support structured outputs";
       tradingview_proxy.text := "provider does not support structured outputs";
       tradingview_proxy.content_type_header := Some "application/json";
       tradingview_proxy.json_body := None |}.

(** A 200 answer that carries an error object instead of symbols. *)
Definition error_answer : tradingview_proxy.response :=
  {| tradingview_proxy.status_code := 200;
     tradingview_proxy.content := "error object";
     tradingview_proxy.text := "error object";
     tradingview_proxy.content_type_header := None;
     tradingview_proxy.json_body := Some (Json.JObj [("error", Json.JStr "rate limited")]) |}.

(** Environments in which every attempt is answered with
    [error_answer]. *)
Definition error_envs (k : nat) : tradingview_proxy.attempt_env :=
  {| tradingview_proxy.proxy_draw := k;
     tradingview_proxy.fingerprint_env := sample_fp_env;
     tradingview_proxy.network := tradingview_proxy.Answers error_answer;
     tradingview_proxy.jitter_draw := 0 |}.

(** A parser that reads the body of [error_answer]. *)
Definition error_loads (s : string) : option Json.json :=
  if decide (s = "error object") then Some (Json.JObj [("error", Json.JStr "rate limited")])
  else None.

(** * Properties *)

(** ** Python primitives *)

Lemma choice_elem_of {A} (seq : list A) (r : nat) (x : A) :
  Py.choice seq r = Some x → x ∈ seq.
Proof. unfold Py.choice. intros H. apply list_elem_of_lookup. eauto. Qed.

Lemma choice_is_Some {A} (seq : list A) (r : nat) :
  seq ≠ [] → is_Some (Py.choice seq r).
Proof.
  intros Hne. unfold Py.choice. apply lookup_lt_is_Some.
  apply Nat.mod_upper_bound. destruct seq; simpl; [done | lia].
Qed.

(** ** The proxy selector *)

Section Selector.
Import proxy_pool.
Variable catalog : list ProxyLocation.
Hypothesis catalog_nonempty : catalog ≠ [].

Lemma catalog_length_pos : 0 < length catalog.
Proof. destruct catalog; simpl; [done | lia]. Qed.

(** From any cursor inside the catalogue, [n] round-robin calls succeed
    and the call number [i] returns the entry [i] places further on,
    wrapping around. *)
Lemma next_calls_from (n : nat) (p : ProxyPool) :
  current_index p < length catalog →
  ∃ locs p',
    next_calls catalog n p = Some (locs, p') ∧ length locs = n ∧
    ∀ i, i < n → locs !! i = catalog !! ((current_index p + i) mod length catalog).
Proof.
  revert p. induction n as [|n IH]; intros p Hlt.
  - exists [], p. split; [done|]. split; [done|]. intros i Hi. lia.
  - destruct (lookup_lt_is_Some_2 catalog (current_index p) Hlt) as [loc Hloc].
    set (p1 := {| current_index := (current_index p + 1) mod length catalog;
                  used_locations := used_locations p |}).
    destruct (IH p1) as (locs & p' & Hrun & Hlen & Hnth).
    { simpl. apply Nat.mod_upper_bound. lia. }
    exists (loc :: locs), p'. split; [|split].
    + simpl. unfold get_next_location. rewrite Hloc. simpl. fold p1.
      rewrite Hrun. reflexivity.
    + simpl. lia.
    + intros [|i] Hi; simpl.
      * rewrite Nat.add_0_r, Nat.mod_small; done.
      * rewrite Hnth by lia. simpl. f_equal.
        rewrite Nat.Div0.add_mod_idemp_l. f_equal. lia.
Qed.

(** A call of [get_random_location] clears the set exactly when every
    catalogue entry's string is in it. *)
Lemma resets_true_iff (p : ProxyPool) :
  resets catalog p = true ↔ ∀ l, l ∈ catalog → to_str l ∈ used_locations p.
Proof.
  unfold resets. destruct (available catalog p) as [|a rest] eqn:Hav; split.
  - intros _ l Hl. destruct (decide (to_str l ∈ used_locations p)) as [|Hn]; [done|].
    assert (l ∈ available catalog p) as Hin.
    { unfold available. apply list_elem_of_filter. done. }
    rewrite Hav in Hin. by apply elem_of_nil in Hin.
  - done.
  - done.
  - intros Hall. assert (a ∈ available catalog p) as Hin by (rewrite Hav; left).
    unfold available in Hin. apply list_elem_of_filter in Hin as [Hn Hc].
    destruct Hn. by apply Hall.
Qed.

(** One call of [get_random_location]: it succeeds, returns a catalogue
    entry, unused unless the call cleared the set, and records it. *)
Lemma get_random_location_step (r : nat) (p : ProxyPool) :
  ∃ loc,
    get_random_location catalog r p =
      Some (loc, {| current_index := current_index p;
                    used_locations :=
                      {[to_str loc]} ∪ (if resets catalog p then ∅ else used_locations p) |})
    ∧ loc ∈ catalog
    ∧ (resets catalog p = false → to_str loc ∉ used_locations p).
Proof.
  unfold get_random_location, resets.
  destruct (available catalog p) as [|a rest] eqn:Hav.
  - destruct (choice_is_Some catalog r catalog_nonempty) as [loc Hloc].
    exists loc. rewrite Hloc. simpl. split; [done|]. split; [|done].
    by eapply choice_elem_of.
  - destruct (choice_is_Some (a :: rest) r) as [loc Hloc]; [done|].
    exists loc. rewrite Hloc. simpl. split; [done|].
    apply choice_elem_of in Hloc. rewrite <- Hav in Hloc.
    unfold available in Hloc. apply list_elem_of_filter in Hloc as [Hn Hc].
    split; [done|]. intros _. done.
Qed.

Lemma since_reset_snoc (h : list (bool * ProxyLocation)) (c : bool * ProxyLocation) :
  since_reset (h ++ [c]) = if c.1 then [c.2] else since_reset h ++ [c.2].
Proof. unfold since_reset. rewrite foldl_app. reflexivity. Qed.

(** The invariant of randomised selection, from any state that agrees
    with a history [h] of earlier calls: the set holds exactly the strings
    returned since the last clearing, and these are pairwise distinct. *)
Lemma random_calls_from (draws : list nat) (h : list (bool * ProxyLocation)) (p : ProxyPool) :
  used_locations p = list_to_set (to_str <$> since_reset h) →
  NoDup (to_str <$> since_reset h) →
  ∃ tr p',
    random_calls catalog draws p = Some (tr, p') ∧ length tr = length draws ∧
    used_locations p' = list_to_set (to_str <$> since_reset (h ++ tr)) ∧
    NoDup (to_str <$> since_reset (h ++ tr)) ∧
    ∀ k c, tr !! k = Some c →
      c.2 ∈ catalog ∧
      (c.1 = true ↔ ∀ l, l ∈ catalog → to_str l ∈ to_str <$> since_reset (h ++ take k tr)) ∧
      (c.1 = false → to_str c.2 ∉ to_str <$> since_reset (h ++ take k tr)).
Proof.
  revert h p. induction draws as [|r rest IH]; intros h p Hused Hnd.
  - exists [], p. simpl. rewrite app_nil_r. repeat split; try done.
    all: intros; by rewrite lookup_nil in *.
  - destruct (get_random_location_step r p) as (loc & Hstep & Hin & Hfresh).
    set (c0 := (resets catalog p, loc)).
    set (p1 := {| current_index := current_index p;
                  used_locations :=
                    {[to_str loc]} ∪ (if resets catalog p then ∅ else used_locations p) |}) in *.
    assert (Hmem : ∀ s, s ∈ used_locations p ↔ s ∈ to_str <$> since_reset h).
    { intros s. rewrite Hused. apply elem_of_list_to_set. }
    destruct (IH (h ++ [c0]) p1) as (tr & p' & Hrun & Hlen & Hused' & Hnd' & Hall).
    { rewrite since_reset_snoc. subst c0 p1. simpl.
      destruct (resets catalog p); simpl.
      - by rewrite (right_id_L ∅ (∪)).
      - rewrite fmap_app, list_to_set_app_L, <- Hused. simpl.
        by rewrite (right_id_L ∅ (∪)), (comm_L (∪)). }
    { rewrite since_reset_snoc. subst c0. simpl.
      destruct (resets catalog p) eqn:Hr; simpl.
      - apply NoDup_singleton.
      - rewrite fmap_app. apply NoDup_app. split; [done|]. split.
        + intros s Hs Hs'. simpl in Hs'. apply list_elem_of_singleton in Hs'. subst s.
          apply (Hfresh eq_refl). by apply Hmem.
        + apply NoDup_singleton. }
    exists (c0 :: tr), p'. split; [|split; [|split; [|split]]].
    + simpl. rewrite Hstep. simpl. fold p1. rewrite Hrun. reflexivity.
    + simpl. lia.
    + rewrite (cons_middle c0 h tr), app_assoc. done.
    + rewrite (cons_middle c0 h tr), app_assoc. done.
    + intros [|k] c Hk; simpl in Hk.
      * injection Hk as <-. simpl. rewrite app_nil_r. split; [done|]. split.
        -- rewrite resets_true_iff. split; intros Ha l Hl; apply Hmem; by apply Ha.
        -- intros Hr Hs. apply (Hfresh Hr). by apply Hmem.
      * simpl. rewrite (cons_middle c0 h (take k tr)), app_assoc. by apply Hall.
Qed.

End Selector.

(** C3. On a freshly constructed selector over a non-empty catalogue of
    size N, any number of successive round-robin calls all succeed, and
    the call number i (from 0) returns the catalogue entry at index
    i mod N. *)
Theorem C3_round_robin (catalog : list proxy_pool.ProxyLocation) (n : nat) :
  catalog ≠ [] →
  ∃ locs p',
    proxy_pool.next_calls catalog n proxy_pool.ProxyPool_init = Some (locs, p') ∧
    length locs = n ∧
    ∀ i, i < n →
      ∃ loc, locs !! i = Some loc ∧ catalog !! (i mod length catalog) = Some loc.
Proof.
  intros Hne.
  destruct (next_calls_from catalog n proxy_pool.ProxyPool_init)
    as (locs & p' & Hrun & Hlen & Hnth).
  { simpl. by apply catalog_length_pos. }
  exists locs, p'. split; [done|]. split; [done|].
  intros i Hi. specialize (Hnth i Hi). simpl in Hnth.
  destruct (lookup_lt_is_Some_2 locs i) as [loc Hloc]; [lia|].
  exists loc. split; [done|]. by rewrite <- Hnth.
Qed.

Lemma C3_round_robin_witness :
  ∃ locs p',
    proxy_pool.next_calls proxy_pool.LOCATIONS 45 proxy_pool.ProxyPool_init
      = Some (locs, p') ∧
    length locs = 45 ∧
    ∀ i, i < 45 →
      ∃ loc, locs !! i = Some loc ∧
             proxy_pool.LOCATIONS !! (i mod length proxy_pool.LOCATIONS) = Some loc.
Proof. apply (C3_round_robin proxy_pool.LOCATIONS 45). discriminate. Defined.

(** C4. On a freshly constructed selector over a non-empty catalogue,
    every sequence of randomised selections succeeds call after call
    (whatever the random draws), each call returns a catalogue entry, and
    a call returns a string already returned since the last clearing only
    when every catalogue entry has been returned since then; that is
    exactly when the call clears the recently-used set and chooses from
    the full catalogue. The set always holds the strings returned since
    the last clearing, which are pairwise distinct. *)
Theorem C4_random_unused (catalog : list proxy_pool.ProxyLocation) (draws : list nat) :
  catalog ≠ [] →
  ∃ tr p',
    proxy_pool.random_calls catalog draws proxy_pool.ProxyPool_init = Some (tr, p') ∧
    length tr = length draws ∧
    proxy_pool.used_locations p'
      = list_to_set (proxy_pool.to_str <$> proxy_pool.since_reset tr) ∧
    NoDup (proxy_pool.to_str <$> proxy_pool.since_reset tr) ∧
    ∀ k reset loc, tr !! k = Some (reset, loc) →
      let recent := proxy_pool.to_str <$> proxy_pool.since_reset (take k tr) in
      loc ∈ catalog ∧
      (proxy_pool.to_str loc ∈ recent →
         ∀ l, l ∈ catalog → proxy_pool.to_str l ∈ recent) ∧
      (reset = true ↔ ∀ l, l ∈ catalog → proxy_pool.to_str l ∈ recent).
Proof.
  intros Hne.
  destruct (random_calls_from catalog Hne draws [] proxy_pool.ProxyPool_init)
    as (tr & p' & Hrun & Hlen & Hused & Hnd & Hall).
  { reflexivity. }
  { apply NoDup_nil_2. }
  exists tr, p'. simpl in *. repeat (split; [done|]).
  intros k reset loc Hk. destruct (Hall k _ Hk) as (Hin & Hreset & Hfresh). simpl in *.
  split; [done|]. split; [|done].
  intros Hrep. destruct reset; [by apply Hreset|]. by destruct (Hfresh eq_refl).
Qed.

Lemma C4_random_unused_witness :
  ∃ tr p',
    proxy_pool.random_calls proxy_pool.LOCATIONS [7; 7; 0; 123; 5] proxy_pool.ProxyPool_init
      = Some (tr, p') ∧
    length tr = length [7; 7; 0; 123; 5] ∧
    proxy_pool.used_locations p'
      = list_to_set (proxy_pool.to_str <$> proxy_pool.since_reset tr) ∧
    NoDup (proxy_pool.to_str <$> proxy_pool.since_reset tr) ∧
    ∀ k reset loc, tr !! k = Some (reset, loc) →
      let recent := proxy_pool.to_str <$> proxy_pool.since_reset (take k tr) in
      loc ∈ proxy_pool.LOCATIONS ∧
      (proxy_pool.to_str loc ∈ recent →
         ∀ l, l ∈ proxy_pool.LOCATIONS → proxy_pool.to_str l ∈ recent) ∧
      (reset = true ↔ ∀ l, l ∈ proxy_pool.LOCATIONS → proxy_pool.to_str l ∈ recent).
Proof. apply (C4_random_unused proxy_pool.LOCATIONS [7; 7; 0; 123; 5]). discriminate. Defined.

(** Seven round-robin calls over three locations. *)
Example round_robin_wraps :
  (λ x : list proxy_pool.ProxyLocation * proxy_pool.ProxyPool, proxy_pool.to_str <$> x.1)
    <$> proxy_pool.next_calls small_catalog 7 proxy_pool.ProxyPool_init
  = Some [ "us-ny-newyork"; "us-ca"; "us-tx-austin";
           "us-ny-newyork"; "us-ca"; "us-tx-austin"; "us-ny-newyork" ].
Proof. by vm_compute. Qed.

(** Four randomised selections over three locations: the fourth call finds
    every location used, clears the set and chooses from the full
    catalogue, where it may pick the location of the third call again. *)
Example random_repeat_after_clearing :
  (λ x : list (bool * proxy_pool.ProxyLocation) * proxy_pool.ProxyPool,
     (λ c : bool * proxy_pool.ProxyLocation, (c.1, proxy_pool.to_str c.2)) <$> x.1)
    <$> proxy_pool.random_calls small_catalog [0; 0; 0; 2] proxy_pool.ProxyPool_init
  = Some [ (false, "us-ny-newyork"); (false, "us-ca");
           (false, "us-tx-austin"); (true, "us-tx-austin") ].
Proof. by vm_compute. Qed.

(** ** Fingerprint generation *)

Section Fingerprint.
Import browser_config.

Lemma versions_nonempty (cfg : os_config) : cfg ∈ OS_CONFIGS → versions cfg ≠ [].
Proof.
  unfold OS_CONFIGS. intros H.
  repeat (apply elem_of_cons in H as [-> | H]); try done.
  by apply elem_of_nil in H.
Qed.

Lemma viewport_is_Some (location : ProxyLocation) (r : nat) :
  is_Some (_get_geographic_viewport location r).
Proof.
  unfold _get_geographic_viewport.
  repeat case_decide; by apply choice_is_Some.
Qed.

(** [generate] never fails, and its result is put together from one
    entry of each table and the region's time zone. *)
Lemma generate_total (proxy_location : ProxyLocation) (e : fp_env) :
  ∃ fp cfg os_version chrome_version,
    generate proxy_location e = Some fp ∧
    cfg ∈ OS_CONFIGS ∧ os_version ∈ versions cfg ∧ chrome_version ∈ CHROME_VERSIONS ∧
    user_agent fp = compose_user_agent cfg os_version chrome_version ∧
    timezone_id fp
      = default "America/Chicago" (TIMEZONE_MAP !! Py.lower (state proxy_location)) ∧
    headers fp !! "sec-ch-ua-timezone" = Some (timezone_id fp).
Proof.
  unfold generate.
  destruct (choice_is_Some OS_CONFIGS (r_os e)) as [cfg Hcfg]; [done|].
  pose proof (choice_elem_of _ _ _ Hcfg) as Hcfg_in.
  destruct (choice_is_Some (versions cfg) (r_version e)) as [ver Hver];
    [by apply versions_nonempty|].
  destruct (choice_is_Some CHROME_VERSIONS (r_chrome e)) as [chrome Hchrome]; [done|].
  destruct (viewport_is_Some proxy_location (r_viewport e)) as [vp Hvp].
  rewrite Hcfg. simpl. rewrite Hver. simpl. rewrite Hchrome. simpl. rewrite Hvp. simpl.
  eexists _, cfg, ver, chrome. split; [reflexivity|]. simpl.
  split; [done|]. split; [by eapply choice_elem_of|]. split; [by eapply choice_elem_of|].
  split; [done|]. split; [done|].
  rewrite lookup_insert_ne by done. by rewrite lookup_insert_eq.
Qed.

End Fingerprint.

(** The time-zone half of C8, which the code keeps: for every location
    and every environment the generated fingerprint's time-zone hint and
    time-zone identifier are the table's value for the lower-cased region,
    or America/Chicago for a region the table does not map. *)
Lemma generate_timezone (proxy_location : browser_config.ProxyLocation)
    (e : browser_config.fp_env) :
  ∃ fp,
    browser_config.generate proxy_location e = Some fp ∧
    browser_config.headers fp !! "sec-ch-ua-timezone"
      = Some (default "America/Chicago"
                (browser_config.TIMEZONE_MAP !! Py.lower (browser_config.state proxy_location))) ∧
    browser_config.timezone_id fp
      = default "America/Chicago"
          (browser_config.TIMEZONE_MAP !! Py.lower (browser_config.state proxy_location)).
Proof.
  destruct (generate_total proxy_location e)
    as (fp & cfg & ver & chrome & Hgen & _ & _ & _ & _ & Htz & Hhint).
  exists fp. split; [done|]. split; [|done]. by rewrite Hhint, Htz.
Qed.

(** C10. Generation never fails, and every user agent it produces holds
    Windows or Macintosh and the marker Chrome/ followed by one of the
    listed versions. So the client-hint derivation finds the Chrome marker
    (the match is never missing, the fallback major is not used), reads the
    leading number of that version, and its platform token is the Windows
    one or the macOS one, never the Linux one. *)
Theorem C10_user_agent_client_hints (proxy_location : browser_config.ProxyLocation)
    (e : browser_config.fp_env) :
  ∃ fp,
    browser_config.generate proxy_location e = Some fp ∧
    (Py.contains "Windows" (browser_config.user_agent fp) = true ∨
     Py.contains "Macintosh" (browser_config.user_agent fp) = true) ∧
    (∃ v, v ∈ browser_config.CHROME_VERSIONS ∧
          Py.contains ("Chrome/" +:+ v) (browser_config.user_agent fp) = true ∧
          tradingview_proxy.search_chrome_major (browser_config.user_agent fp)
            = Some (tradingview_proxy.leading_digits v)) ∧
    ((tradingview_proxy._infer_client_hints_from_ua (browser_config.user_agent fp)).1.1
       = Py.dq +:+ "Windows" +:+ Py.dq ∨
     (tradingview_proxy._infer_client_hints_from_ua (browser_config.user_agent fp)).1.1
       = Py.dq +:+ "macOS" +:+ Py.dq).
Proof.
  destruct (generate_total proxy_location e)
    as (fp & cfg & ver & chrome & Hgen & Hcfg & Hver & Hchrome & Hua & _ & _).
  exists fp. split; [done|]. rewrite Hua. clear Hgen Hua fp.
  unfold browser_config.OS_CONFIGS in Hcfg.
  repeat (apply elem_of_cons in Hcfg as [-> | Hcfg]);
    [| | by apply elem_of_nil in Hcfg];
    simpl in Hver;
    repeat (apply elem_of_cons in Hver as [-> | Hver]);
    try (by apply elem_of_nil in Hver);
    (split; [|split; [exists chrome; split; [done|] |]]);
    unfold browser_config.CHROME_VERSIONS in Hchrome;
    repeat (apply elem_of_cons in Hchrome as [-> | Hchrome]);
    try (by apply elem_of_nil in Hchrome);
    first [ split; vm_compute; reflexivity
          | left; vm_compute; reflexivity
          | right; vm_compute; reflexivity ].
Qed.

Lemma viewport_ca_wa (r : nat) :
  browser_config._get_geographic_viewport (browser_config.ProxyLocation_of_state "ca") r
  = browser_config._get_geographic_viewport (browser_config.ProxyLocation_of_state "wa") r.
Proof.
  unfold browser_config._get_geographic_viewport.
  destruct (decide (Py.lower (browser_config.state (browser_config.ProxyLocation_of_state "ca"))
                      ∈ ({[ "ny"; "nj"; "fl"; "ga" ]} : gset string))) as [H|_];
    [by vm_compute in H|].
  destruct (decide (Py.lower (browser_config.state (browser_config.ProxyLocation_of_state "wa"))
                      ∈ ({[ "ny"; "nj"; "fl"; "ga" ]} : gset string))) as [H|_];
    [by vm_compute in H|].
  destruct (decide (Py.lower (browser_config.state (browser_config.ProxyLocation_of_state "ca"))
                      ∈ ({[ "ca"; "wa" ]} : gset string))) as [_|H];
    [|by destruct H; vm_compute].
  destruct (decide (Py.lower (browser_config.state (browser_config.ProxyLocation_of_state "wa"))
                      ∈ ({[ "ca"; "wa" ]} : gset string))) as [_|H];
    [|by destruct H; vm_compute].
  reflexivity.
Qed.

(** C8 (what the code does with the locale). The locale table maps the
    region ca to en-CA and the region wa to en-US, yet for every
    environment the fingerprints generated for the two regions are the
    same: the looked-up locale reaches no field of the result. With the
    sample environment the fingerprint for ca ranks en-GB first in its
    accept-language value. *)
Theorem C8_locale_lookup_unused :
  browser_config.LOCALE_MAP !! "ca" = Some "en-CA" ∧
  browser_config.LOCALE_MAP !! "wa" = Some "en-US" ∧
  (∀ e, browser_config.generate (browser_config.ProxyLocation_of_state "ca") e
        = browser_config.generate (browser_config.ProxyLocation_of_state "wa") e) ∧
  ∃ fp,
    browser_config.generate (browser_config.ProxyLocation_of_state "ca") sample_fp_env
      = Some fp ∧
    browser_config.headers fp !! "accept-language"
      = Some "en-GB;q=1.0,en-CA;q=0.9,en;q=0.8,en-US;q=0.7" ∧
    browser_config.timezone_id fp = "America/Los_Angeles".
Proof.
  split; [by vm_compute|]. split; [by vm_compute|]. split.
  - intros e. unfold browser_config.generate. rewrite viewport_ca_wa.
    replace (browser_config.TIMEZONE_MAP
               !! Py.lower (browser_config.state (browser_config.ProxyLocation_of_state "ca")))
      with (Some "America/Los_Angeles") by (by vm_compute).
    replace (browser_config.TIMEZONE_MAP
               !! Py.lower (browser_config.state (browser_config.ProxyLocation_of_state "wa")))
      with (Some "America/Los_Angeles") by (by vm_compute).
    reflexivity.
  - eexists. split; [by vm_compute|]. split; by vm_compute.
Qed.

(** ** The result normaliser: deduplication *)

Section Dedupe.
Import Json tradingview_proxy.

Lemma truthy_hash_key (v : json) (k : hkey) :
  hash_key v = Some k → truthy v = key_truthy k.
Proof.
  destruct v as [|b|n|s|xs|kvs]; simpl; intros H; try discriminate;
    injection H as <-; try reflexivity.
  by destruct b.
Qed.

(** The loop agrees with the specification's wording, from any point of
    the iteration: [seen] holds the keys of the symbol values met so far. *)
Lemma dedupe_from_first_occurrences (items earlier : list dict)
    (seen : gset hkey) (acc : list dict) :
  Forall (λ item, has_symbol item = true → is_Some (symbol_key item)) items →
  (∀ k, k ∈ seen ↔ ∃ e, e ∈ earlier ∧ has_symbol e = true ∧ symbol_key e = Some k) →
  ∃ seen', dedupe_from (seen, acc) items
           = Some (seen', acc ++ first_occurrences earlier items).
Proof.
  revert earlier seen acc.
  induction items as [|item rest IH]; intros earlier seen acc Hhash Hseen.
  - exists seen. simpl. by rewrite app_nil_r.
  - apply Forall_cons in Hhash as [Hitem Hrest]. simpl.
    unfold dedupe_step. fold (symbol_of item). fold (has_symbol item). simpl.
    destruct (has_symbol item) eqn:Hsym; simpl.
    + destruct (Hitem eq_refl) as [k Hk]. unfold symbol_key in Hk. rewrite Hk. simpl.
      destruct (decide (k ∈ seen)) as [Hin | Hnin].
      * rewrite bool_decide_eq_false_2.
        2:{ intros Hall. apply Hseen in Hin as (e & He & _ & Hke).
            rewrite Forall_forall in Hall. apply (Hall e He).
            by rewrite Hke. }
        apply IH; [done|]. intros k'. rewrite Hseen. split.
        -- intros (e & He & Hs & Hke). exists e. split; [|done].
           apply elem_of_app. by left.
        -- intros (e & He & Hs & Hke). apply elem_of_app in He as [He | He].
           ++ by exists e.
           ++ apply list_elem_of_singleton in He. subst e.
              unfold symbol_key in Hke. rewrite Hk in Hke. injection Hke as <-.
              by apply Hseen.
      * rewrite bool_decide_eq_true_2.
        2:{ apply Forall_forall. intros e He Hke. apply Hnin. apply Hseen.
            exists e. split; [done|]. split; [|by rewrite Hke].
            unfold symbol_key in Hke. rewrite Hk in Hke.
            unfold has_symbol in *.
            rewrite (truthy_hash_key _ _ Hke). by rewrite <- (truthy_hash_key _ _ Hk). }
        destruct (IH (earlier ++ [item]) ({[k]} ∪ seen) (acc ++ [item]) Hrest)
          as [seen' Hrun].
        { intros k'. rewrite elem_of_union, elem_of_singleton, Hseen. split.
          - intros [-> | (e & He & Hs & Hke)].
            + exists item. split; [apply elem_of_app; right; by left|]. done.
            + exists e. split; [apply elem_of_app; by left|]. done.
          - intros (e & He & Hs & Hke). apply elem_of_app in He as [He | He].
            + right. by exists e.
            + apply list_elem_of_singleton in He. subst e.
              unfold symbol_key in Hke. rewrite Hk in Hke. injection Hke as <-. by left. }
        exists seen'. simpl. rewrite Hrun. by rewrite <- app_assoc.
    + apply IH; [done|]. intros k'. rewrite Hseen. split.
      * intros (e & He & Hs & Hke). exists e. split; [|done].
        apply elem_of_app. by left.
      * intros (e & He & Hs & Hke). apply elem_of_app in He as [He | He].
        -- by exists e.
        -- apply list_elem_of_singleton in He. subst e. congruence.
Qed.

Lemma first_occurrences_sublist (items earlier : list dict) :
  sublist (first_occurrences earlier items) items.
Proof.
  revert earlier. induction items as [|item rest IH]; intros earlier; simpl.
  - constructor.
  - destruct (_ && _); [by apply sublist_skip | by apply sublist_cons].
Qed.

Lemma first_occurrences_have_symbol (items earlier : list dict) :
  Forall (λ item, has_symbol item = true) (first_occurrences earlier items).
Proof.
  revert earlier. induction items as [|item rest IH]; intros earlier; simpl.
  - constructor.
  - destruct (has_symbol item) eqn:Hs; simpl; [|by apply IH].
    destruct (bool_decide _); [|by apply IH]. constructor; [done | by apply IH].
Qed.

Lemma first_occurrences_not_earlier (items earlier : list dict) (x e : dict) :
  x ∈ first_occurrences earlier items → e ∈ earlier → symbol_key e ≠ symbol_key x.
Proof.
  revert earlier. induction items as [|item rest IH]; intros earlier Hx He; simpl in Hx.
  - by apply elem_of_nil in Hx.
  - assert (e ∈ earlier ++ [item]) as He' by (apply elem_of_app; by left).
    destruct (has_symbol item && _) eqn:Htest; [|by eapply IH].
    apply elem_of_cons in Hx as [-> | Hx]; [|by eapply IH].
    apply andb_true_iff in Htest as [_ Hall]. apply bool_decide_eq_true in Hall.
    rewrite Forall_forall in Hall. by apply Hall.
Qed.

Lemma first_occurrences_NoDup (items earlier : list dict) :
  NoDup (symbol_key <$> first_occurrences earlier items).
Proof.
  revert earlier. induction items as [|item rest IH]; intros earlier; simpl.
  - constructor.
  - destruct (has_symbol item && _) eqn:Htest; [|by apply IH].
    rewrite fmap_cons. constructor; [|by apply IH].
    intros Hin. apply list_elem_of_fmap in Hin as (x & Hkey & Hx).
    eapply (first_occurrences_not_earlier rest (earlier ++ [item]) x item); [done| |done].
    apply elem_of_app. right. by left.
Qed.

Lemma first_occurrences_cover (items earlier : list dict) (item : dict) :
  item ∈ items → has_symbol item = true → is_Some (symbol_key item) →
  (∃ e, e ∈ earlier ∧ symbol_key e = symbol_key item) ∨
  (∃ kept, kept ∈ first_occurrences earlier items ∧ symbol_key kept = symbol_key item).
Proof.
  intros Hin Hs [k Hk]. revert earlier Hin.
  induction items as [|x rest IH]; intros earlier Hin.
  - by apply elem_of_nil in Hin.
  - simpl. apply elem_of_cons in Hin as [-> | Hin].
    + rewrite Hs. simpl. destruct (bool_decide _) eqn:Hall.
      * right. exists x. split; [by left | done].
      * left. apply bool_decide_eq_false in Hall.
        apply not_Forall_Exists in Hall; [|intros e; apply _].
        apply Exists_exists in Hall as (e & He & Hke).
        exists e. split; [done|]. by apply dec_stable.
    + destruct (IH (earlier ++ [x]) Hin) as [(e & He & Hke) | (kept & Hkept & Hke)].
      * apply elem_of_app in He as [He | He]; [left; by exists e|].
        apply list_elem_of_singleton in He. subst e.
        destruct (has_symbol x && _) eqn:Htest.
        -- right. exists x. split; [by left | done].
        -- apply andb_false_iff in Htest as [Hx | Hall].
           ++ unfold has_symbol, symbol_key in *. rewrite Hk in Hke.
              rewrite (truthy_hash_key _ _ Hk) in Hs.
              rewrite (truthy_hash_key _ _ Hke) in Hx. congruence.
           ++ left. apply bool_decide_eq_false in Hall.
              apply not_Forall_Exists in Hall; [|intros e; apply _].
              apply Exists_exists in Hall as (e & He & Hne).
              exists e. split; [done|]. apply dec_stable in Hne. congruence.
      * right. exists kept. split; [|done].
        destruct (has_symbol x && _); [by right | done].
Qed.


End Dedupe.

(** C6 fails as stated on a filtered sequence with a symbol value that
    cannot be put in a set. Both items of [list_symbol_items] pass the
    filter and have a symbol value; the symbol value of the second is a
    non-empty list, on which the membership test of the set raises: the
    deduplication does not complete and keeps nothing, not even the first
    item, and the normaliser as a whole raises, so that the 2xx branch
    hands the raw body back. *)
Lemma C6_counterexample :
  tradingview_proxy.filtered_of (Json.JObj <$> list_symbol_items) = Some list_symbol_items ∧
  Forall (λ item, has_symbol item = true) list_symbol_items ∧
  tradingview_proxy.dedupe list_symbol_items = None ∧
  tradingview_proxy.normalize (Json.JArr (Json.JObj <$> list_symbol_items)) = None.
Proof.
  split; [by vm_compute|]. split; [by repeat constructor|].
  split; by vm_compute.
Qed.

(** C6, amended. For every filtered sequence whose symbol values can be
    put in a set (null, booleans, numbers, text; a symbol that is empty or absent
    needs nothing), deduplication completes and keeps, in the original
    order, exactly the items that have a symbol value and are the first
    with that value: the result is a subsequence of the input, every kept
    item has a symbol value (an item without one is dropped), no symbol
    value is kept twice, every symbol value of the input is kept once, and
    of two items with one symbol value only the first survives. An item
    has a symbol value when the field is true in Python's sense. *)
Theorem C6_dedupe_first_occurrence (filtered : list Json.dict) :
  Forall (λ item, has_symbol item = true → is_Some (symbol_key item)) filtered →
  ∃ deduped,
    tradingview_proxy.dedupe filtered = Some deduped ∧
    deduped = first_occurrences [] filtered ∧
    sublist deduped filtered ∧
    Forall (λ item, has_symbol item = true) deduped ∧
    NoDup (symbol_key <$> deduped) ∧
    (∀ item, item ∈ filtered → has_symbol item = true →
       ∃ kept, kept ∈ deduped ∧ symbol_key kept = symbol_key item) ∧
    (∀ a b, filtered = [a; b] → has_symbol a = true →
       symbol_key b = symbol_key a → deduped = [a]).
Proof.
  intros Hhash.
  destruct (dedupe_from_first_occurrences filtered [] ∅ [] Hhash) as [seen' Hrun].
  { intros k. split; [intros H; by apply not_elem_of_empty in H|].
    intros (e & He & _). by apply elem_of_nil in He. }
  exists (first_occurrences [] filtered).
  split; [unfold tradingview_proxy.dedupe; by rewrite Hrun|].
  split; [done|].
  split; [apply first_occurrences_sublist|].
  split; [apply first_occurrences_have_symbol|].
  split; [apply first_occurrences_NoDup|].
  split.
  - intros item Hin Hs.
    assert (is_Some (symbol_key item)) as Hkey.
    { rewrite Forall_forall in Hhash. by apply Hhash. }
    destruct (first_occurrences_cover filtered [] item Hin Hs Hkey)
      as [(e & He & _) | Hkept]; [|done].
    by apply elem_of_nil in He.
  - intros a b -> Ha Hab. simpl. rewrite Ha. simpl.
    rewrite bool_decide_eq_false_2, andb_false_r; [done|].
    intros Hall. apply Forall_cons in Hall as [Hne _]. by apply Hne.
Qed.

Lemma C6_dedupe_first_occurrence_witness :
  ∃ deduped,
    tradingview_proxy.dedupe sample_filtered = Some deduped ∧
    deduped = first_occurrences [] sample_filtered ∧
    sublist deduped sample_filtered ∧
    Forall (λ item, has_symbol item = true) deduped ∧
    NoDup (symbol_key <$> deduped) ∧
    (∀ item, item ∈ sample_filtered → has_symbol item = true →
       ∃ kept, kept ∈ deduped ∧ symbol_key kept = symbol_key item) ∧
    (∀ a b, sample_filtered = [a; b] → has_symbol a = true →
       symbol_key b = symbol_key a → deduped = [a]).
Proof.
  apply (C6_dedupe_first_occurrence sample_filtered).
  unfold sample_filtered. repeat constructor; intros _; vm_compute; eauto.
Defined.

(** On the sample, deduplication keeps the first AAPL item and the MSFT
    item. *)
Example dedupe_sample :
  tradingview_proxy.dedupe sample_filtered
  = Some [ [("symbol", Json.JStr "AAPL"); ("type", Json.JStr "stock");
            ("provider_id", Json.JStr "ice")];
           [("symbol", Json.JStr "MSFT"); ("type", Json.JStr "stock")] ].
Proof. by vm_compute. Qed.

(** ** The result normaliser: filter, stripping, idempotence *)

Section Normalizer.
Import Json tradingview_proxy.

(** [keep] is the specification's rule on the lower-cased category and
    the crypto marker, whenever the markers can be iterated. *)
Lemma keep_is_keep_rule (item : dict) (crypto : bool) :
  has_crypto item = Some crypto → keep item = Some (keep_rule (category item) crypto).
Proof.
  intros Hc. unfold keep, keep_rule. rewrite Hc. simpl.
  assert (category item ∈ ({[ "index"; "forex"; "stock" ]} : gset string)
          ↔ category item = "index" ∨ category item = "forex" ∨ category item = "stock")
    as Hset.
  { rewrite !elem_of_union, !elem_of_singleton. tauto. }
  destruct (decide (category item ∈ ({[ "index"; "forex"; "stock" ]} : gset string)))
    as [Hin | Hnin];
    destruct (decide (category item = "index" ∨ category item = "forex"
                      ∨ category item = "stock")) as [Hcat | Hcat];
    try tauto.
  by destruct (decide (category item = "spot")).
Qed.

(** The filter's three cases as the specification lists them. *)
Lemma keep_cases (item : dict) (crypto : bool) :
  has_crypto item = Some crypto →
  (category item = "index" ∨ category item = "forex" ∨ category item = "stock" →
     keep item = Some (negb crypto)) ∧
  (category item = "spot" → keep item = Some crypto) ∧
  (¬ (category item = "index" ∨ category item = "forex" ∨ category item = "stock") →
     category item ≠ "spot" → keep item = Some false).
Proof.
  intros Hc. rewrite (keep_is_keep_rule item crypto Hc). unfold keep_rule.
  split; [|split].
  - intros H. by rewrite decide_True.
  - intros H. rewrite decide_False, decide_True; [done..|].
    rewrite H. intros [|[|]]; discriminate.
  - intros H1 H2. by rewrite !decide_False.
Qed.

Lemma dict_get_filter (k : string) (d : dict) :
  k ∉ remove_keys →
  dict_get k (filter (λ kv : string * json, kv.1 ∉ remove_keys) d) = dict_get k d.
Proof.
  intros Hk. induction d as [|[k' v] rest IH]; [done|].
  rewrite filter_cons. simpl. destruct (decide (k' ∉ remove_keys)) as [Hin | Hout]; simpl.
  - by rewrite IH.
  - rewrite IH. destruct (decide (k' = k)) as [-> | Hne]; [|done].
    by destruct Hout.
Qed.

Lemma filter_no_provenance (d : dict) :
  no_provenance d → filter (λ kv : string * json, kv.1 ∉ remove_keys) d = d.
Proof.
  unfold no_provenance. induction 1 as [|kv rest Hkv Hrest IH]; [done|].
  rewrite filter_cons, decide_True by done. by rewrite IH.
Qed.

Lemma not_provenance_key (k : string) :
  k = "type" ∨ k = "typespecs" ∨ k = "typeSpecs" ∨ k = "symbol" → k ∉ remove_keys.
Proof. intros [-> | [-> | [-> | ->]]] H; by vm_compute in H. Qed.

(** Stripping does not touch the fields that the filter reads. *)
Lemma has_crypto_filter (d : dict) :
  has_crypto (filter (λ kv : string * json, kv.1 ∉ remove_keys) d) = has_crypto d.
Proof.
  unfold has_crypto, typespecs_of, get_or_none.
  rewrite !dict_get_filter; [done | apply not_provenance_key; auto..].
Qed.

(** A surviving item whose type is exactly spot and whose markers hold a
    crypto marker leaves with the type crypto. *)
Lemma strip_rewrites_spot (item : dict) :
  dict_get "type" item = Some (JStr "spot") → has_crypto item = Some true →
  _strip_tv_fields (JObj item)
  = Some (JObj (dict_set "type" (JStr "crypto")
                  (filter (λ kv : string * json, kv.1 ∉ remove_keys) item))).
Proof.
  intros Ht Hc. unfold _strip_tv_fields.
  rewrite dict_get_filter by (apply not_provenance_key; auto).
  rewrite Ht, has_crypto_filter, Hc. reflexivity.
Qed.

Lemma category_spot (item : dict) :
  eq_text (dict_get "type" item) "spot" = true → category item = "spot".
Proof.
  unfold eq_text, category. destruct (dict_get "type" item) as [[| | |s| |]|]; try done.
  intros H. apply bool_decide_eq_true in H. by subst s.
Qed.





End Normalizer.

(** The filter example of the specification: AAPL is kept as it is, BTC
    is kept with the type crypto, ETHX is dropped. *)
Example normalize_filter_example :
  tradingview_proxy.normalize (Json.JArr filter_example)
  = Some (tradingview_proxy.Normalized (Json.JArr
      [ Json.JObj [("symbol", Json.JStr "AAPL"); ("type", Json.JStr "stock");
                   ("typespecs", Json.JArr [])];
        Json.JObj [("symbol", Json.JStr "BTC"); ("type", Json.JStr "crypto");
                   ("typespecs", Json.JArr [Json.JStr "crypto"])] ])).
Proof. by vm_compute. Qed.

(** C5 (the code on a spot item spelled in capitals). The filter lowers
    the category before comparing, so it treats the item as a spot item
    with a crypto marker and keeps it; the rewrite compares the type with
    the lower-case text only, so the item leaves with its type unchanged
    instead of crypto. The same item spelled in lower case leaves with
    the type crypto. *)
Theorem C5_spot_rewrite_misses_capitals :
  tradingview_proxy.category upper_spot_item = "spot" ∧
  tradingview_proxy.has_crypto upper_spot_item = Some true ∧
  tradingview_proxy.keep upper_spot_item = Some true ∧
  tradingview_proxy.normalize (Json.JArr [Json.JObj upper_spot_item])
  = Some (tradingview_proxy.Normalized (Json.JArr [Json.JObj upper_spot_item])) ∧
  tradingview_proxy.normalize
    (Json.JArr [Json.JObj (Json.dict_set "type" (Json.JStr "spot") upper_spot_item)])
  = Some (tradingview_proxy.Normalized (Json.JArr [Json.JObj crypto_item])).
Proof. repeat split; by vm_compute. Qed.





(** ** The search executor *)

Section SearchFacts.
Import Json tradingview_proxy.
Variable dumps : json → string.

Lemma classify_retryable (r : reply) :
  retryable r → classify dumps r = Failed (diagnostic r).
Proof.
  destruct r as [resp | message]; simpl; [|done].
  intros H. by rewrite decide_False.
Qed.

(** Every round selects a proxy, generates a fingerprint and issues one
    GET with the parameters it was given; how it ends is decided by what
    the GET does. *)
Lemma attempt_shape (params : gmap string string) (e : attempt_env)
    (proxy : proxy_pool.OxyLabsProxy) :
  ∃ proxy' url hdrs,
    attempt dumps params e proxy
    = (proxy', [Get url params hdrs], classify dumps (network e)).
Proof.
  unfold attempt, proxy_pool.get_random_proxy.
  destruct (get_random_location_step proxy_pool.LOCATIONS ltac:(done)
              (proxy_draw e) (proxy_pool._proxy_pool proxy)) as (loc & Hstep & _).
  rewrite Hstep. simpl.
  match goal with
  | |- context [browser_config.generate ?l ?env] =>
      destruct (generate_total l env) as (fp & _ & _ & _ & Hgen & _)
  end.
  rewrite Hgen. eauto.
Qed.

Lemma rounds_step_failed (params : gmap string string) (envs : nat → attempt_env)
    (n k : nat) (last_error : option string) (proxy : proxy_pool.OxyLabsProxy) :
  retryable (network (envs k)) →
  ∃ proxy' url hdrs,
    rounds dumps params envs (S n) k last_error proxy
    = after [Get url params hdrs; Sleep (jitter_of envs k)]
            (rounds dumps params envs n (S k) (Some (diagnostic (network (envs k)))) proxy').
Proof.
  intros Hfail. destruct (attempt_shape params (envs k) proxy) as (proxy' & url & hdrs & Hatt).
  exists proxy', url, hdrs. simpl. rewrite Hatt, (classify_retryable _ Hfail). reflexivity.
Qed.

Lemma rounds_step_done (params : gmap string string) (envs : nat → attempt_env)
    (n k : nat) (last_error : option string) (proxy : proxy_pool.OxyLabsProxy)
    (body content_type : string) :
  classify dumps (network (envs k)) = Done body content_type →
  ∃ proxy' url hdrs,
    rounds dumps params envs (S n) k last_error proxy
    = {| outcome := Return body content_type;
         trace := [Get url params hdrs];
         proxy_after := proxy' |}.
Proof.
  intros Hdone. destruct (attempt_shape params (envs k) proxy) as (proxy' & url & hdrs & Hatt).
  exists proxy', url, hdrs. simpl. rewrite Hatt, Hdone. reflexivity.
Qed.

(** Every GET of a run carries the parameters the loop was started with. *)
Lemma rounds_params (params : gmap string string) (envs : nat → attempt_env)
    (n k : nat) (last_error : option string) (proxy : proxy_pool.OxyLabsProxy) :
  Forall (λ ev, match ev with Get _ p _ => p = params | Sleep _ => True end)
         (trace (rounds dumps params envs n k last_error proxy)).
Proof.
  revert k last_error proxy. induction n as [|n IH]; intros k last_error proxy.
  - constructor.
  - destruct (attempt_shape params (envs k) proxy) as (proxy' & url & hdrs & Hatt).
    simpl. rewrite Hatt. destruct (classify dumps (network (envs k))); simpl.
    + by repeat constructor.
    + constructor; [done|]. constructor; [done|]. apply IH.
Qed.

(** A run returns what the first attempt that is not a retryable failure
    returns, provided the attempts before it are within the budget. *)
Lemma rounds_reach_done (params : gmap string string) (envs : nat → attempt_env)
    (j n k : nat) (last_error : option string) (proxy : proxy_pool.OxyLabsProxy)
    (body content_type : string) :
  j < n →
  (∀ i, i < j → retryable (network (envs (k + i)))) →
  classify dumps (network (envs (k + j))) = Done body content_type →
  outcome (rounds dumps params envs n k last_error proxy) = Return body content_type.
Proof.
  revert n k last_error proxy.
  induction j as [|j IH]; intros n k last_error proxy Hlt Hfail Hdone;
    (destruct n as [|n]; [lia|]).
  - rewrite Nat.add_0_r in Hdone.
    destruct (rounds_step_done params envs n k last_error proxy _ _ Hdone)
      as (proxy' & url & hdrs & ->). reflexivity.
  - destruct (rounds_step_failed params envs n k last_error proxy)
      as (proxy' & url & hdrs & ->).
    { specialize (Hfail 0 ltac:(lia)). by rewrite Nat.add_0_r in Hfail. }
    simpl. apply IH; [lia| |].
    + intros i Hi. specialize (Hfail (S i) ltac:(lia)).
      by replace (S k + i) with (k + S i) by lia.
    + by replace (S k + j) with (k + S j) by lia.
Qed.

(** A malformed 2xx answer is handed back raw, with the content type of
    the answer, or the JSON media type when the answer declares none. *)
Lemma on_success_raw (resp : response) :
  json_body resp = None ∨ (∃ data, json_body resp = Some data ∧ unknown_structure data) →
  on_success dumps resp
  = (content resp, default "application/json" (content_type_header resp)).
Proof.
  unfold on_success. intros [-> | (data & -> & Hshape)]; [done|].
  destruct data as [|b|n|s|xs|kvs]; simpl in *; try done.
  destruct (dict_get "symbols" kvs) as [[|b|n|s|items|kvs']|] eqn:Hsym; try done.
  by destruct (Hshape items).
Qed.

End SearchFacts.

Lemma jitter_in_window (u : Q) :
  (0 <= u)%Q → (u < 1)%Q →
  (1 # 4 <= tradingview_proxy.uniform (1 # 4) (4 # 5) u)%Q ∧
  (tradingview_proxy.uniform (1 # 4) (4 # 5) u <= 4 # 5)%Q.
Proof. unfold tradingview_proxy.uniform. intros H0 H1. split; lra. Qed.

(** C1 (what the code does when three attempts out of three fail). The
    search makes exactly three GETs and raises its one typed error with
    the diagnostic of the third attempt, and every delay lies in
    [1/4 s, 4/5 s]; but it sleeps after each of the three failures, the
    last one included, so the error is raised after three delays and not
    after two. *)
Theorem C1_three_failures_three_sleeps (dumps : Json.json → string)
    (proxy : proxy_pool.OxyLabsProxy) (params : gmap string string)
    (envs : nat → tradingview_proxy.attempt_env) :
  (∀ k, k < 3 → retryable (tradingview_proxy.network (envs k))) →
  (∀ k, k < 3 → (0 <= tradingview_proxy.jitter_draw (envs k))%Q ∧
                (tradingview_proxy.jitter_draw (envs k) < 1)%Q) →
  ∃ u0 h0 u1 h1 u2 h2,
    tradingview_proxy.outcome (tradingview_proxy.tradingview_symbol_search dumps proxy params 3 envs)
    = tradingview_proxy.TradingViewProxyError
        ("TradingView search failed after retries: "
           +:+ diagnostic (tradingview_proxy.network (envs 2))) ∧
    tradingview_proxy.trace (tradingview_proxy.tradingview_symbol_search dumps proxy params 3 envs)
    = [ tradingview_proxy.Get u0 (tradingview_proxy.outbound_params params) h0;
        tradingview_proxy.Sleep (jitter_of envs 0);
        tradingview_proxy.Get u1 (tradingview_proxy.outbound_params params) h1;
        tradingview_proxy.Sleep (jitter_of envs 1);
        tradingview_proxy.Get u2 (tradingview_proxy.outbound_params params) h2;
        tradingview_proxy.Sleep (jitter_of envs 2) ] ∧
    length (sleeps (tradingview_proxy.trace
              (tradingview_proxy.tradingview_symbol_search dumps proxy params 3 envs))) = 3 ∧
    ∀ k, k < 3 → (1 # 4 <= jitter_of envs k)%Q ∧ (jitter_of envs k <= 4 # 5)%Q.
Proof.
  intros Hfail Hdraw. unfold tradingview_proxy.tradingview_symbol_search.
  change (Z.to_nat 3) with 3.
  destruct (rounds_step_failed dumps (tradingview_proxy.outbound_params params) envs 2 0 None
              proxy (Hfail 0 ltac:(lia))) as (p1 & u0 & h0 & ->).
  destruct (rounds_step_failed dumps (tradingview_proxy.outbound_params params) envs 1 1
              (Some (diagnostic (tradingview_proxy.network (envs 0)))) p1
              (Hfail 1 ltac:(lia))) as (p2 & u1 & h1 & ->).
  destruct (rounds_step_failed dumps (tradingview_proxy.outbound_params params) envs 0 2
              (Some (diagnostic (tradingview_proxy.network (envs 1)))) p2
              (Hfail 2 ltac:(lia))) as (p3 & u2 & h2 & ->).
  exists u0, h0, u1, h1, u2, h2. simpl.
  split; [done|]. split; [done|]. split; [done|].
  intros k Hk. destruct (Hdraw k Hk). by apply jitter_in_window.
Qed.

Lemma C1_three_failures_three_sleeps_witness :
  ∃ u0 h0 u1 h1 u2 h2,
    tradingview_proxy.outcome
      (tradingview_proxy.tradingview_symbol_search (λ _, EmptyString) sample_proxy ∅ 3 failing_envs)
    = tradingview_proxy.TradingViewProxyError
        ("TradingView search failed after retries: "
           +:+ diagnostic (tradingview_proxy.network (failing_envs 2))) ∧
    tradingview_proxy.trace
      (tradingview_proxy.tradingview_symbol_search (λ _, EmptyString) sample_proxy ∅ 3 failing_envs)
    = [ tradingview_proxy.Get u0 (tradingview_proxy.outbound_params ∅) h0;
        tradingview_proxy.Sleep (jitter_of failing_envs 0);
        tradingview_proxy.Get u1 (tradingview_proxy.outbound_params ∅) h1;
        tradingview_proxy.Sleep (jitter_of failing_envs 1);
        tradingview_proxy.Get u2 (tradingview_proxy.outbound_params ∅) h2;
        tradingview_proxy.Sleep (jitter_of failing_envs 2) ] ∧
    length (sleeps (tradingview_proxy.trace
              (tradingview_proxy.tradingview_symbol_search (λ _, EmptyString) sample_proxy ∅ 3
                 failing_envs))) = 3 ∧
    ∀ k, k < 3 → (1 # 4 <= jitter_of failing_envs k)%Q ∧ (jitter_of failing_envs k <= 4 # 5)%Q.
Proof.
  apply (C1_three_failures_three_sleeps (λ _, EmptyString) sample_proxy ∅ failing_envs).
  - intros k Hk. simpl. lia.
  - intros k Hk. simpl. split; [discriminate | reflexivity].
Defined.

(** The run on [failing_envs] evaluated: the message carries the third
    diagnostic, and there are three sleeps. *)
Example three_failures_run :
  tradingview_proxy.outcome
    (tradingview_proxy.tradingview_symbol_search (λ _, EmptyString) sample_proxy ∅ 3 failing_envs)
  = tradingview_proxy.TradingViewProxyError "TradingView search failed after retries: 502 blocked"
  ∧ length (sleeps (tradingview_proxy.trace
      (tradingview_proxy.tradingview_symbol_search (λ _, EmptyString) sample_proxy ∅ 3
         failing_envs))) = 3.
Proof. split; by vm_compute. Qed.

(** C7. Whenever an attempt within the budget is answered with a 2xx
    status (the attempts before it having failed), and the body does not
    parse as JSON or parses to something that is neither a bare sequence
    nor a mapping with a sequence under symbols, the search does not
    raise: it returns the raw bytes of that answer with the answer's own
    content type (the JSON media type when the answer declares none). *)
Theorem C7_malformed_payload_passes_through (dumps : Json.json → string)
    (proxy : proxy_pool.OxyLabsProxy) (params : gmap string string) (attempts : Z)
    (envs : nat → tradingview_proxy.attempt_env) (j : nat)
    (resp : tradingview_proxy.response) :
  j < Z.to_nat attempts →
  (∀ i, i < j → retryable (tradingview_proxy.network (envs i))) →
  tradingview_proxy.network (envs j) = tradingview_proxy.Answers resp →
  (200 ≤ tradingview_proxy.status_code resp < 300)%Z →
  tradingview_proxy.json_body resp = None ∨
    (∃ data, tradingview_proxy.json_body resp = Some data ∧ unknown_structure data) →
  tradingview_proxy.outcome
    (tradingview_proxy.tradingview_symbol_search dumps proxy params attempts envs)
  = tradingview_proxy.Return
      (tradingview_proxy.content resp)
      (default "application/json" (tradingview_proxy.content_type_header resp)).
Proof.
  intros Hlt Hfail Hnet Hstatus Hbody.
  unfold tradingview_proxy.tradingview_symbol_search.
  apply (rounds_reach_done dumps _ envs j); [done | done |].
  simpl. rewrite Hnet. simpl. rewrite decide_True by done.
  by rewrite (on_success_raw dumps resp Hbody).
Qed.

Lemma C7_malformed_payload_passes_through_witness :
  tradingview_proxy.outcome
    (tradingview_proxy.tradingview_symbol_search (λ _, EmptyString) sample_proxy ∅ 3 html_envs)
  = tradingview_proxy.Return "<html></html>" "text/html".
Proof.
  apply (C7_malformed_payload_passes_through (λ _, EmptyString) sample_proxy ∅ 3 html_envs 1
           html_page).
  - simpl. lia.
  - intros i Hi. assert (i = 0) as -> by lia. simpl. lia.
  - reflexivity.
  - simpl. lia.
  - left. reflexivity.
Defined.

(** A payload that parses to a mapping without a symbols sequence is
    passed through as well. *)
Example unknown_structure_passes_through :
  tradingview_proxy.on_success (λ _, "re-serialised")
    {| tradingview_proxy.status_code := 200;
       tradingview_proxy.content := "{}";
       tradingview_proxy.text := "{}";
       tradingview_proxy.content_type_header := None;
       tradingview_proxy.json_body := Some (Json.JObj []) |}
  = ("{}", "application/json").
Proof. reflexivity. Qed.

(** [setdefault] leaves every key that is present as it is and adds the
    one key when it is missing. *)
Lemma lookup_setdefault (k v : string) (d : gmap string string) (key : string) :
  tradingview_proxy.setdefault k v d !! key
  = match d !! key with
    | Some x => Some x
    | None => if decide (key = k) then Some v else None
    end.
Proof.
  unfold tradingview_proxy.setdefault. destruct (d !! k) as [x|] eqn:Hk.
  - destruct (d !! key) eqn:Hkey; [done|].
    destruct (decide (key = k)) as [-> | Hne]; [congruence | done].
  - destruct (decide (key = k)) as [-> | Hne].
    + by rewrite lookup_insert_eq, Hk.
    + rewrite lookup_insert_ne by done. by destruct (d !! key).
Qed.

(** C9. The parameters of every GET of a search are the caller's
    parameters with lang=en added exactly when the caller gave no lang and
    limit=50 added exactly when the caller gave no limit: a key the caller
    supplied keeps the caller's value, and no other key is added. A search
    with at least one attempt starts with such a GET. *)
Theorem C9_outbound_parameters (dumps : Json.json → string)
    (proxy : proxy_pool.OxyLabsProxy) (params : gmap string string) (attempts : Z)
    (envs : nat → tradingview_proxy.attempt_env) :
  (∀ key : string,
     tradingview_proxy.outbound_params params !! key
     = match params !! key with
       | Some v => Some v
       | None => if decide (key = "lang") then Some "en"
                 else if decide (key = "limit") then Some "50"
                 else None
       end) ∧
  Forall (λ ev, match ev with
                | tradingview_proxy.Get _ p _ => p = tradingview_proxy.outbound_params params
                | tradingview_proxy.Sleep _ => True
                end)
         (tradingview_proxy.trace
            (tradingview_proxy.tradingview_symbol_search dumps proxy params attempts envs)) ∧
  ((0 < attempts)%Z →
   ∃ url hdrs rest,
     tradingview_proxy.trace
       (tradingview_proxy.tradingview_symbol_search dumps proxy params attempts envs)
     = tradingview_proxy.Get url (tradingview_proxy.outbound_params params) hdrs :: rest).
Proof.
  split; [|split].
  - intros key. unfold tradingview_proxy.outbound_params.
    rewrite !lookup_setdefault. destruct (params !! key); [done|].
    destruct (decide (key = "lang")) as [-> | Hne]; [done|].
    by destruct (decide (key = "limit")).
  - apply rounds_params.
  - intros Hpos. unfold tradingview_proxy.tradingview_symbol_search.
    destruct (Z.to_nat attempts) as [|n] eqn:Hn; [lia|].
    destruct (attempt_shape dumps (tradingview_proxy.outbound_params params) (envs 0) proxy)
      as (proxy' & url & hdrs & Hatt).
    simpl. rewrite Hatt.
    destruct (tradingview_proxy.classify dumps (tradingview_proxy.network (envs 0))); simpl; eauto.
Qed.

(** The defaults on three callers: none of the two keys given, both
    given, and only the limit given. *)
Example outbound_params_examples :
  tradingview_proxy.outbound_params {[ "text" := "btc" ]}
    = {[ "text" := "btc"; "lang" := "en"; "limit" := "50" ]} ∧
  tradingview_proxy.outbound_params {[ "lang" := "de"; "limit" := "5" ]}
    = {[ "lang" := "de"; "limit" := "5" ]} ∧
  tradingview_proxy.outbound_params {[ "limit" := "" ]}
    = {[ "limit" := ""; "lang" := "en" ]}.
Proof. repeat split; by vm_compute. Qed.

(** * Further properties *)

(** ** The selector under interleaved calls *)

Lemma selector_calls_from (catalog : list proxy_pool.ProxyLocation)
    (cs : list selector_call) (p : proxy_pool.ProxyPool) :
  catalog ≠ [] →
  proxy_pool.current_index p < length catalog →
  (∀ s, s ∈ proxy_pool.used_locations p → s ∈ proxy_pool.to_str <$> catalog) →
  ∃ locs p',
    selector_calls catalog cs p = Some (locs, p') ∧
    length locs = length cs ∧
    proxy_pool.current_index p' = (proxy_pool.current_index p + nexts cs) mod length catalog ∧
    (∀ i, cs !! i = Some CallNext →
       locs !! i = catalog !! ((proxy_pool.current_index p + nexts (take i cs))
                               mod length catalog)) ∧
    (∀ s, s ∈ proxy_pool.used_locations p' → s ∈ proxy_pool.to_str <$> catalog) ∧
    Forall (λ loc, loc ∈ catalog) locs.
Proof.
  intros Hne. revert p. induction cs as [|c rest IH]; intros p Hlt Hused.
  - exists [], p. simpl. rewrite Nat.add_0_r, Nat.mod_small by done.
    repeat split; done.
  - assert (0 < length catalog) as Hpos by lia.
    destruct c as [|r].
    + destruct (lookup_lt_is_Some_2 catalog (proxy_pool.current_index p) Hlt) as [loc Hloc].
      set (p1 := {| proxy_pool.current_index :=
                      (proxy_pool.current_index p + 1) mod length catalog;
                    proxy_pool.used_locations := proxy_pool.used_locations p |}).
      destruct (IH p1) as (locs & p' & Hrun & Hlen & Hcur & Hnth & Hsub & Hin).
      { simpl. apply Nat.mod_upper_bound. lia. }
      { done. }
      exists (loc :: locs), p'. split; [|split; [|split; [|split; [|split]]]].
      * simpl. unfold proxy_pool.get_next_location. rewrite Hloc. simpl. fold p1.
        rewrite Hrun. reflexivity.
      * simpl. lia.
      * rewrite Hcur. simpl. rewrite Nat.Div0.add_mod_idemp_l. f_equal. lia.
      * intros [|i] Hi; simpl in *.
        -- rewrite Nat.add_0_r, Nat.mod_small by done. done.
        -- rewrite (Hnth i Hi). simpl. f_equal.
           rewrite Nat.Div0.add_mod_idemp_l. f_equal. lia.
      * done.
      * constructor; [|done]. apply list_elem_of_lookup. eauto.
    + destruct (get_random_location_step catalog Hne r p) as (loc & Hstep & Hloc & _).
      set (p1 := {| proxy_pool.current_index := proxy_pool.current_index p;
                    proxy_pool.used_locations :=
                      {[proxy_pool.to_str loc]}
                      ∪ (if proxy_pool.resets catalog p then ∅
                         else proxy_pool.used_locations p) |}) in *.
      destruct (IH p1) as (locs & p' & Hrun & Hlen & Hcur & Hnth & Hsub & Hin).
      { done. }
      { intros s. simpl. rewrite elem_of_union, elem_of_singleton. intros [-> | Hs].
        - apply list_elem_of_fmap. by exists loc.
        - destruct (proxy_pool.resets catalog p); [by apply not_elem_of_empty in Hs|].
          by apply Hused. }
      exists (loc :: locs), p'. split; [|split; [|split; [|split; [|split]]]].
      * simpl. rewrite Hstep. simpl. fold p1. rewrite Hrun. reflexivity.
      * simpl. lia.
      * done.
      * intros [|i] Hi; simpl in *; [done|]. by apply Hnth.
      * done.
      * by constructor.
Qed.

(** X1. On a fresh selector over a non-empty catalogue, round-robin and
    randomised calls in any order all succeed; the randomised calls do not
    disturb the cursor, so the round-robin call that has [k] round-robin
    calls before it returns the entry [k mod N]; the set of used strings
    never holds anything but catalogue strings. *)
Theorem selector_calls_interleaved (catalog : list proxy_pool.ProxyLocation)
    (cs : list selector_call) :
  catalog ≠ [] →
  ∃ locs p',
    selector_calls catalog cs proxy_pool.ProxyPool_init = Some (locs, p') ∧
    length locs = length cs ∧
    proxy_pool.current_index p' = nexts cs mod length catalog ∧
    (∀ i, cs !! i = Some CallNext →
       locs !! i = catalog !! (nexts (take i cs) mod length catalog)) ∧
    (∀ s, s ∈ proxy_pool.used_locations p' → s ∈ proxy_pool.to_str <$> catalog) ∧
    Forall (λ loc, loc ∈ catalog) locs.
Proof.
  intros Hne.
  destruct (selector_calls_from catalog cs proxy_pool.ProxyPool_init Hne)
    as (locs & p' & H).
  - simpl. destruct catalog; simpl; [done | lia].
  - intros s Hs. by apply not_elem_of_empty in Hs.
  - exists locs, p'. exact H.
Qed.

Lemma selector_calls_interleaved_witness :
  ∃ locs p',
    selector_calls proxy_pool.LOCATIONS [CallNext; CallRandom 5; CallNext; CallRandom 77; CallNext]
      proxy_pool.ProxyPool_init = Some (locs, p') ∧
    length locs = length [CallNext; CallRandom 5; CallNext; CallRandom 77; CallNext] ∧
    proxy_pool.current_index p'
      = nexts [CallNext; CallRandom 5; CallNext; CallRandom 77; CallNext]
        mod length proxy_pool.LOCATIONS ∧
    (∀ i, [CallNext; CallRandom 5; CallNext; CallRandom 77; CallNext] !! i = Some CallNext →
       locs !! i
       = proxy_pool.LOCATIONS
           !! (nexts (take i [CallNext; CallRandom 5; CallNext; CallRandom 77; CallNext])
               mod length proxy_pool.LOCATIONS)) ∧
    (∀ s, s ∈ proxy_pool.used_locations p' → s ∈ proxy_pool.to_str <$> proxy_pool.LOCATIONS) ∧
    Forall (λ loc, loc ∈ proxy_pool.LOCATIONS) locs.
Proof.
  apply (selector_calls_interleaved proxy_pool.LOCATIONS
           [CallNext; CallRandom 5; CallNext; CallRandom 77; CallNext]).
  discriminate.
Defined.

(** ** A full cycle of randomised selections *)

Lemma since_reset_length (h : list (bool * proxy_pool.ProxyLocation)) :
  length (proxy_pool.since_reset h) ≤ length h.
Proof.
  induction h as [|c h IH] using rev_ind; [done|].
  rewrite since_reset_snoc, length_app. destruct c.1; simpl; [lia|].
  rewrite length_app. simpl. lia.
Qed.

Lemma since_reset_no_clearing (h : list (bool * proxy_pool.ProxyLocation)) :
  Forall (λ c, c.1 = false) h → proxy_pool.since_reset h = h.*2.
Proof.
  induction h as [|c h IH] using rev_ind; [done|].
  intros Hall. apply Forall_app in Hall as [Hh Hc]. apply Forall_cons in Hc as [Hc _]. simpl in Hc.
  rewrite since_reset_snoc, Hc, IH by done. by rewrite fmap_app.
Qed.

(** From an empty set of used strings, over a catalogue with pairwise
    distinct strings, up to N randomised selections never clear the set
    and return pairwise distinct locations; exactly N of them return a
    rearrangement of the catalogue and leave the set full. *)
Lemma random_calls_from_empty (catalog : list proxy_pool.ProxyLocation) (draws : list nat)
    (p : proxy_pool.ProxyPool) :
  proxy_pool.used_locations p = ∅ →
  NoDup (proxy_pool.to_str <$> catalog) →
  catalog ≠ [] →
  length draws ≤ length catalog →
  ∃ tr p',
    proxy_pool.random_calls catalog draws p = Some (tr, p') ∧
    Forall (λ c, c.1 = false) tr ∧
    NoDup (proxy_pool.to_str <$> tr.*2) ∧
    (length draws = length catalog →
       tr.*2 ≡ₚ catalog ∧ proxy_pool.resets catalog p' = true).
Proof.
  intros Hempty Hnd Hne Hlen.
  destruct (random_calls_from catalog Hne draws [] p)
    as (tr & p' & Hrun & Hlentr & Hused & Hndtr & Hall); [done | apply NoDup_nil_2 |].
  simpl in *.
  assert (Forall (λ c : bool * proxy_pool.ProxyLocation, c.1 = false) tr) as Hflags.
  { apply Forall_lookup. intros k c Hk.
    destruct (Hall k c Hk) as (_ & Hreset & _).
    destruct c.1 eqn:Hc; [|done]. exfalso.
    pose proof (proj1 Hreset eq_refl) as Hcover.
    assert (proxy_pool.to_str <$> catalog
            ⊆+ proxy_pool.to_str <$> proxy_pool.since_reset (take k tr)) as Hsub.
    { apply NoDup_submseteq; [done|]. intros s Hs.
      apply list_elem_of_fmap in Hs as (l & -> & Hl). by apply Hcover. }
    apply submseteq_length in Hsub. rewrite !length_fmap in Hsub.
    pose proof (since_reset_length (take k tr)) as Hle. rewrite length_take in Hle.
    apply lookup_lt_Some in Hk. lia. }
  exists tr, p'. split; [done|]. split; [done|].
  rewrite (since_reset_no_clearing tr Hflags) in Hndtr, Hused.
  split; [done|]. intros Heq.
  assert (tr.*2 ≡ₚ catalog) as Hperm.
  { apply submseteq_length_Permutation.
    - apply NoDup_submseteq; [by eapply NoDup_fmap_1|].
      intros l Hl. apply list_elem_of_fmap in Hl as (c & -> & Hc).
      apply list_elem_of_lookup in Hc as [k Hk]. by destruct (Hall k c Hk).
    - rewrite length_fmap. lia. }
  split; [done|]. apply resets_true_iff. intros l Hl.
  rewrite Hused. apply elem_of_list_to_set. apply list_elem_of_fmap.
  exists l. split; [done|]. by rewrite Hperm.
Qed.

(** X2. Over a catalogue whose location strings are pairwise distinct,
    the first N randomised selections on a fresh selector never clear the
    set and return pairwise distinct locations, whatever the draws; after
    exactly N selections every catalogue location has been returned
    exactly once, and the next selection is the one that clears the set. *)
Theorem random_full_cycle (catalog : list proxy_pool.ProxyLocation) (draws : list nat) :
  NoDup (proxy_pool.to_str <$> catalog) →
  catalog ≠ [] →
  length draws ≤ length catalog →
  ∃ tr p',
    proxy_pool.random_calls catalog draws proxy_pool.ProxyPool_init = Some (tr, p') ∧
    Forall (λ c, c.1 = false) tr ∧
    NoDup (proxy_pool.to_str <$> tr.*2) ∧
    (length draws = length catalog →
       tr.*2 ≡ₚ catalog ∧ proxy_pool.resets catalog p' = true).
Proof. by apply random_calls_from_empty. Qed.

Lemma random_full_cycle_witness :
  ∃ tr p',
    proxy_pool.random_calls small_catalog [4; 9; 2] proxy_pool.ProxyPool_init = Some (tr, p') ∧
    Forall (λ c, c.1 = false) tr ∧
    NoDup (proxy_pool.to_str <$> tr.*2) ∧
    (length [4; 9; 2] = length small_catalog →
       tr.*2 ≡ₚ small_catalog ∧ proxy_pool.resets small_catalog p' = true).
Proof.
  apply (random_full_cycle small_catalog [4; 9; 2]).
  - apply (bool_decide_unpack _). by vm_compute.
  - discriminate.
  - simpl. lia.
Defined.

(** ** Text primitives *)

Lemma string_app_nil_r (s : string) : s +:+ EmptyString = s.
Proof.
  induction s as [|c s IH]; [done|].
  change (String c s +:+ EmptyString) with (String c (s +:+ EmptyString)). by rewrite IH.
Qed.

Lemma string_app_assoc (a b c : string) : (a +:+ b) +:+ c = a +:+ b +:+ c.
Proof.
  induction a as [|x a IH]; [done|].
  change ((String x a +:+ b) +:+ c) with (String x ((a +:+ b) +:+ c)). by rewrite IH.
Qed.

Lemma string_app_length (a b : string) :
  String.length (a +:+ b) = String.length a + String.length b.
Proof.
  induction a as [|x a IH]; [done|].
  change (String x a +:+ b) with (String x (a +:+ b)). simpl. by rewrite IH.
Qed.

Lemma hyphen_free_cons (c : ascii) (s : string) :
  hyphen_free (String c s) ↔ c ≠ "-"%char ∧ hyphen_free s.
Proof.
  unfold hyphen_free.
  change (Py.contains "-" (String c s))
    with ((if Ascii.eqb "-" c then true else false) || Py.contains "-" s).
  destruct (Ascii.eqb_spec "-"%char c) as [<- | Hne]; simpl.
  - split; [done | by intros [H _]].
  - split; [intros H; split; [congruence | done] | by intros [_ H]].
Qed.

Lemma split_from_hyphen_free (cur a : string) :
  hyphen_free a → Py.split_from "-" cur a = [cur +:+ a].
Proof.
  revert cur. induction a as [|c a IH]; intros cur Ha; simpl.
  - by rewrite string_app_nil_r.
  - apply hyphen_free_cons in Ha as [Hc Ha].
    destruct (Ascii.eqb_spec c "-"%char) as [-> | _]; [done|].
    rewrite IH by done. by rewrite string_app_assoc.
Qed.

Lemma split_from_first_hyphen (cur a rest : string) :
  hyphen_free a →
  Py.split_from "-" cur (a +:+ String "-" rest)
  = (cur +:+ a) :: Py.split_from "-" EmptyString rest.
Proof.
  revert cur. induction a as [|c a IH]; intros cur Ha.
  - rewrite string_app_nil_r. reflexivity.
  - apply hyphen_free_cons in Ha as [Hc Ha]. simpl.
    destruct (Ascii.eqb_spec c "-"%char) as [-> | _]; [done|].
    rewrite IH by done. by rewrite string_app_assoc.
Qed.

Lemma split_from_nonempty (cur s : string) : 1 ≤ length (Py.split_from "-" cur s).
Proof.
  revert cur. induction s as [|c s IH]; intros cur; simpl; [lia|].
  destruct (Ascii.eqb c "-"); simpl; [lia | apply IH].
Qed.

Lemma split_from_head_second (cur s : string) :
  ∃ part parts, Py.split_from "-" cur s = part :: parts.
Proof.
  pose proof (split_from_nonempty cur s) as H.
  destruct (Py.split_from "-" cur s) as [|part parts]; simpl in H; [lia | eauto].
Qed.

(** ** The region of a location string *)

(** A location string without a hyphen reads as the region ca. *)
Lemma parse_state_no_hyphen (a : string) :
  hyphen_free a → tradingview_proxy._parse_state_from_location a = "ca".
Proof.
  intros Ha. unfold tradingview_proxy._parse_state_from_location, Py.split.
  rewrite split_from_hyphen_free by done. reflexivity.
Qed.

Lemma parse_state_two_fields (a b : string) :
  hyphen_free a → hyphen_free b →
  tradingview_proxy._parse_state_from_location (a +:+ "-" +:+ b) = b.
Proof.
  intros Ha Hb. unfold tradingview_proxy._parse_state_from_location, Py.split.
  change (a +:+ "-" +:+ b) with (a +:+ String "-" b).
  rewrite split_from_first_hyphen, split_from_hyphen_free by done. reflexivity.
Qed.

Lemma parse_state_three_fields (a b rest : string) :
  hyphen_free a → hyphen_free b →
  tradingview_proxy._parse_state_from_location (a +:+ "-" +:+ b +:+ "-" +:+ rest) = b.
Proof.
  intros Ha Hb. unfold tradingview_proxy._parse_state_from_location, Py.split.
  change (a +:+ "-" +:+ b +:+ "-" +:+ rest) with (a +:+ String "-" (b +:+ String "-" rest)).
  rewrite !split_from_first_hyphen by done.
  destruct (split_from_head_second EmptyString rest) as (part & parts & ->).
  reflexivity.
Qed.

(** X3. The region read back from a location string is the text between
    its first and its second hyphen (up to the end when there is no second
    hyphen), also when that text is empty; a string without a hyphen,
    the empty string included, reads as the region ca. *)
Theorem parse_state_fields (a b rest : string) :
  hyphen_free a → hyphen_free b →
  tradingview_proxy._parse_state_from_location a = "ca" ∧
  tradingview_proxy._parse_state_from_location (a +:+ "-" +:+ b) = b ∧
  tradingview_proxy._parse_state_from_location (a +:+ "-" +:+ b +:+ "-" +:+ rest) = b.
Proof.
  intros Ha Hb. split; [|split].
  - by apply parse_state_no_hyphen.
  - by apply parse_state_two_fields.
  - by apply parse_state_three_fields.
Qed.

Lemma parse_state_fields_witness :
  tradingview_proxy._parse_state_from_location "us" = "ca" ∧
  tradingview_proxy._parse_state_from_location ("us" +:+ "-" +:+ "ny") = "ny" ∧
  tradingview_proxy._parse_state_from_location ("us" +:+ "-" +:+ "ny" +:+ "-" +:+ "new-york")
  = "ny".
Proof. apply (parse_state_fields "us" "ny" "new-york"); reflexivity. Defined.

(** X4. Round trip between the two files: for a location whose state
    holds no hyphen, the region that the search reads back from the
    location string is the location's state, with or without a city. *)
Theorem parse_state_of_location_string (loc : proxy_pool.ProxyLocation) :
  hyphen_free (proxy_pool.state loc) →
  tradingview_proxy._parse_state_from_location (proxy_pool.to_str loc) = proxy_pool.state loc.
Proof.
  intros Hst. unfold proxy_pool.to_str.
  assert (hyphen_free "us") as Hus by reflexivity.
  destruct (proxy_pool.city loc) as [c|]; [destruct (Py.truthy_str c)|].
  - apply (parse_state_three_fields "us" (proxy_pool.state loc) c Hus Hst).
  - apply (parse_state_two_fields "us" (proxy_pool.state loc) Hus Hst).
  - apply (parse_state_two_fields "us" (proxy_pool.state loc) Hus Hst).
Qed.

Lemma parse_state_of_location_string_witness :
  tradingview_proxy._parse_state_from_location
    (proxy_pool.to_str (proxy_pool.ProxyLocation_init "TX" (Some "Austin")))
  = proxy_pool.state (proxy_pool.ProxyLocation_init "TX" (Some "Austin")).
Proof.
  apply (parse_state_of_location_string (proxy_pool.ProxyLocation_init "TX" (Some "Austin"))).
  reflexivity.
Defined.

(** ** Fingerprint generation: viewport and language list *)

(** X5. The viewport choice never fails and always yields one of the six
    listed resolutions; for an east-coast region (in any letter case) the
    width is at most 1440, for a west-coast region at least 1536. *)
Theorem viewport_by_region (location : browser_config.ProxyLocation) (r : nat) :
  ∃ vp,
    browser_config._get_geographic_viewport location r = Some vp ∧
    (browser_config.width vp, browser_config.height vp) ∈ browser_config.RESOLUTIONS ∧
    (Py.lower (browser_config.state location) ∈ ({[ "ny"; "nj"; "fl"; "ga" ]} : gset string) →
       (browser_config.width vp ≤ 1440)%Z) ∧
    (Py.lower (browser_config.state location) ∈ ({[ "ca"; "wa" ]} : gset string) →
       (1536 ≤ browser_config.width vp)%Z).
Proof.
  unfold browser_config._get_geographic_viewport.
  destruct (decide (Py.lower (browser_config.state location)
                      ∈ ({[ "ny"; "nj"; "fl"; "ga" ]} : gset string))) as [He | He].
  - match goal with |- context [Py.choice ?l r] =>
      destruct (choice_is_Some l r ltac:(done)) as [vp Hvp];
      pose proof (choice_elem_of _ _ _ Hvp) as Hin
    end.
    exists vp. split; [done|].
    repeat (apply elem_of_cons in Hin as [-> | Hin]);
      [| | | by apply elem_of_nil in Hin];
      (split; [by apply (bool_decide_unpack _); vm_compute|]);
      (split; [intros _; simpl; lia|]);
      intros Hw; exfalso; revert He Hw;
      generalize (Py.lower (browser_config.state location)); intros s;
      rewrite !elem_of_union, !elem_of_singleton; intros [[[->| ->]| ->]| ->] [H|H];
      discriminate.
  - destruct (decide (Py.lower (browser_config.state location)
                        ∈ ({[ "ca"; "wa" ]} : gset string))) as [Hw | Hw].
    + match goal with |- context [Py.choice ?l r] =>
        destruct (choice_is_Some l r ltac:(done)) as [vp Hvp];
        pose proof (choice_elem_of _ _ _ Hvp) as Hin
      end.
      exists vp. split; [done|].
      repeat (apply elem_of_cons in Hin as [-> | Hin]);
        [| | | by apply elem_of_nil in Hin];
        (split; [by apply (bool_decide_unpack _); vm_compute|]);
        (split; [done|]); intros _; simpl; lia.
    + match goal with |- context [Py.choice ?l r] =>
        destruct (choice_is_Some l r ltac:(done)) as [vp Hvp];
        pose proof (choice_elem_of _ _ _ Hvp) as Hin
      end.
      exists vp. split; [done|]. split; [|done].
      apply list_elem_of_fmap in Hin as ([w h] & -> & Hin). done.
Qed.

Lemma swap_Permutation {A} (x : list A) (i j : nat) : browser_config.swap x i j ≡ₚ x.
Proof.
  unfold browser_config.swap.
  destruct (x !! i) as [a|] eqn:Hi; [|done].
  destruct (x !! j) as [b|] eqn:Hj; [|done].
  by apply Permutation_insert_swap.
Qed.

Lemma shuffle_from_Permutation {A} (i : nat) (draw : nat → nat) (x : list A) :
  browser_config.shuffle_from i draw x ≡ₚ x.
Proof.
  revert x. induction i as [|i IH]; intros x; simpl; [done|].
  rewrite IH. apply swap_Permutation.
Qed.

Lemma shuffle_rearranges {A} (draw : nat → nat) (x : list A) :
  browser_config.shuffle draw x ≡ₚ x.
Proof. apply shuffle_from_Permutation. Qed.

(** What [generate] returns, spelled out on its random picks. *)
Lemma generate_result (proxy_location : browser_config.ProxyLocation)
    (e : browser_config.fp_env) :
  ∃ cfg os_version chrome_version vp,
    browser_config.generate proxy_location e
    = Some
        {| browser_config.user_agent :=
             browser_config.compose_user_agent cfg os_version chrome_version;
           browser_config.fp_viewport := vp;
           browser_config.headers :=
             list_to_map
               [ ("accept-language",
                  Py.join ","
                    (zip_with (λ lang q, lang +:+ ";q=" +:+ q)
                       (browser_config.shuffle (browser_config.r_shuffle e)
                          [ "en-US"; "en-GB"; "en-CA"; "en" ])
                       browser_config.quality_weights));
                 ("sec-ch-ua-timezone",
                  default "America/Chicago"
                    (browser_config.TIMEZONE_MAP
                       !! Py.lower (browser_config.state proxy_location)));
                 ("cookie",
                  "timezone_offset="
                    +:+ browser_config.utc_offset e
                          (default "America/Chicago"
                             (browser_config.TIMEZONE_MAP
                                !! Py.lower (browser_config.state proxy_location)))
                    +:+ ";") ];
           browser_config.timezone_id :=
             default "America/Chicago"
               (browser_config.TIMEZONE_MAP
                  !! Py.lower (browser_config.state proxy_location)) |} ∧
    browser_config._get_geographic_viewport proxy_location (browser_config.r_viewport e)
      = Some vp.
Proof.
  unfold browser_config.generate.
  destruct (choice_is_Some browser_config.OS_CONFIGS (browser_config.r_os e))
    as [cfg Hcfg]; [done|].
  pose proof (choice_elem_of _ _ _ Hcfg) as Hcfg_in.
  destruct (choice_is_Some (browser_config.versions cfg) (browser_config.r_version e))
    as [ver Hver]; [by apply versions_nonempty|].
  destruct (choice_is_Some browser_config.CHROME_VERSIONS (browser_config.r_chrome e))
    as [chrome Hchrome]; [done|].
  destruct (viewport_is_Some proxy_location (browser_config.r_viewport e)) as [vp Hvp].
  rewrite Hcfg. simpl. rewrite Hver. simpl. rewrite Hchrome. simpl. rewrite Hvp. simpl.
  by exists cfg, ver, chrome, vp.
Qed.

(** X6. Every generated fingerprint has exactly the three headers
    accept-language, sec-ch-ua-timezone and cookie. Its accept-language
    lists each of the four language tags exactly once, in some order, with
    the weights 1.0, 0.9, 0.8, 0.7 from first to last; its cookie carries
    the clock's offset for the very time zone of the time-zone hint. *)
Theorem generate_headers (proxy_location : browser_config.ProxyLocation)
    (e : browser_config.fp_env) :
  ∃ fp a b c d,
    browser_config.generate proxy_location e = Some fp ∧
    dom (browser_config.headers fp)
      = ({[ "accept-language"; "sec-ch-ua-timezone"; "cookie" ]} : gset string) ∧
    [a; b; c; d] ≡ₚ [ "en-US"; "en-GB"; "en-CA"; "en" ] ∧
    browser_config.headers fp !! "accept-language"
      = Some (a +:+ ";q=1.0," +:+ b +:+ ";q=0.9," +:+ c +:+ ";q=0.8," +:+ d +:+ ";q=0.7") ∧
    browser_config.headers fp !! "sec-ch-ua-timezone" = Some (browser_config.timezone_id fp) ∧
    browser_config.headers fp !! "cookie"
      = Some ("timezone_offset="
                +:+ browser_config.utc_offset e (browser_config.timezone_id fp) +:+ ";").
Proof.
  destruct (generate_result proxy_location e) as (cfg & ver & chrome & vp & Hgen & _).
  pose proof (shuffle_rearranges (browser_config.r_shuffle e)
                [ "en-US"; "en-GB"; "en-CA"; "en" ]) as Hperm.
  destruct (browser_config.shuffle (browser_config.r_shuffle e)
              [ "en-US"; "en-GB"; "en-CA"; "en" ]) as [|a [|b [|c [|d [|x rest]]]]] eqn:Hsh;
    try (apply Permutation_length in Hperm; simpl in Hperm; lia).
  eexists _, a, b, c, d. split; [exact Hgen|]. simpl.
  split; [|split; [done|split; [|split]]].
  - rewrite !dom_insert_L, dom_empty_L. set_solver.
  - rewrite lookup_insert_eq. f_equal. unfold Py.join. simpl.
    by rewrite !string_app_assoc.
  - rewrite lookup_insert_ne by done. by rewrite lookup_insert_eq.
  - rewrite !lookup_insert_ne by done. by rewrite lookup_insert_eq.
Qed.

(** ** The Chrome version search *)

Lemma startswith_app (p q s : string) :
  Py.startswith (p +:+ q) s
  = Py.startswith p s && Py.startswith q (tradingview_proxy.string_drop (String.length p) s).
Proof.
  revert s. induction p as [|a p IH]; intros s.
  - by destruct q.
  - change (String a p +:+ q) with (String a (p +:+ q)).
    destruct s as [|b s]; simpl; [done|].
    destruct (Ascii.eqb a b); [apply IH | done].
Qed.

Lemma leading_digits_cons (c : ascii) (t : string) :
  tradingview_proxy.leading_digits (String c t)
  = if is_digit c then String c (tradingview_proxy.leading_digits t) else EmptyString.
Proof. reflexivity. Qed.

Lemma startswith_leading_digits (t : string) :
  Py.startswith (tradingview_proxy.leading_digits t) t = true.
Proof.
  induction t as [|c t IH]; [done|].
  rewrite leading_digits_cons. destruct (is_digit c); [|done].
  simpl. by rewrite Ascii.eqb_refl.
Qed.

Lemma all_digits_leading_digits (t : string) :
  all_digits (tradingview_proxy.leading_digits t) = true.
Proof.
  induction t as [|c t IH]; [done|].
  rewrite leading_digits_cons. destruct (is_digit c) eqn:Hc; [|done].
  simpl. by rewrite Hc, IH.
Qed.

Lemma contains_cons (sub : string) (c : ascii) (s : string) :
  Py.contains sub (String c s) = Py.startswith sub (String c s) || Py.contains sub s.
Proof. reflexivity. Qed.

Lemma contains_startswith (sub s : string) :
  Py.startswith sub s = true → Py.contains sub s = true.
Proof. intros H. destruct s; simpl; by rewrite H. Qed.

Lemma search_chrome_major_cons (c : ascii) (ua : string) :
  tradingview_proxy.search_chrome_major (String c ua)
  = if Py.truthy_str (version_here (String c ua)) then Some (version_here (String c ua))
    else tradingview_proxy.search_chrome_major ua.
Proof. reflexivity. Qed.

(** A digit right after the marker at the head of [s]. *)
Lemma marker_digit_here (s : string) (d : ascii) :
  is_digit d = true →
  Py.startswith ("Chrome/" +:+ String d EmptyString) s = true →
  Py.truthy_str (version_here s) = true.
Proof.
  intros Hd. rewrite (startswith_app "Chrome/" (String d EmptyString) s).
  change (String.length "Chrome/") with 7.
  intros [Hp Hq]%andb_true_iff. unfold version_here. rewrite Hp.
  destruct (tradingview_proxy.string_drop 7 s) as [|c t]; [done|].
  simpl in Hq. destruct (Ascii.eqb_spec d c) as [<- | ]; [|done].
  by rewrite leading_digits_cons, Hd.
Qed.

Lemma version_here_marker (s : string) :
  Py.truthy_str (version_here s) = true →
  all_digits (version_here s) = true ∧
  Py.startswith ("Chrome/" +:+ version_here s) s = true.
Proof.
  unfold version_here. destruct (Py.startswith "Chrome/" s) eqn:Hp; [|done].
  intros _. split; [apply all_digits_leading_digits|].
  rewrite startswith_app, Hp. apply startswith_leading_digits.
Qed.

Lemma search_chrome_major_Some (ua m : string) :
  tradingview_proxy.search_chrome_major ua = Some m →
  Py.truthy_str m = true ∧ all_digits m = true ∧ Py.contains ("Chrome/" +:+ m) ua = true.
Proof.
  induction ua as [|c ua IH]; [discriminate|].
  rewrite search_chrome_major_cons.
  destruct (Py.truthy_str (version_here (String c ua))) eqn:Ht.
  - intros [= <-]. destruct (version_here_marker _ Ht) as [Hd Hs].
    split; [done|]. split; [done|]. by apply contains_startswith.
  - intros H. destruct (IH H) as (? & ? & Hc). split; [done|]. split; [done|].
    rewrite contains_cons, Hc. apply orb_true_r.
Qed.

Lemma search_chrome_major_None (ua : string) (d : ascii) :
  tradingview_proxy.search_chrome_major ua = None →
  is_digit d = true →
  Py.contains ("Chrome/" +:+ String d EmptyString) ua = false.
Proof.
  intros H Hd. induction ua as [|c ua IH]; [done|].
  rewrite search_chrome_major_cons in H. rewrite contains_cons.
  destruct (Py.startswith ("Chrome/" +:+ String d EmptyString) (String c ua)) eqn:Hs.
  - rewrite (marker_digit_here _ d Hd Hs) in H. discriminate.
  - destruct (Py.truthy_str _) in H; [discriminate|]. simpl. by apply IH.
Qed.

(** X7. The Chrome version search on a user agent of ASCII characters:
    when it finds a version, that version is a non-empty run of the
    digits 0 to 9 and the user agent holds the marker Chrome/ followed by
    it; it finds none exactly when the user agent nowhere holds Chrome/
    followed by such a digit. *)
Theorem search_chrome_major_spec (ua : string) :
  ascii_text ua = true →
  (∀ m, tradingview_proxy.search_chrome_major ua = Some m →
        Py.truthy_str m = true ∧ all_digits m = true ∧
        Py.contains ("Chrome/" +:+ m) ua = true) ∧
  (tradingview_proxy.search_chrome_major ua = None ↔
   ∀ d, is_digit d = true → Py.contains ("Chrome/" +:+ String d EmptyString) ua = false).
Proof.
  intros _. split; [intros m; apply search_chrome_major_Some|]. split.
  - intros H d. by apply search_chrome_major_None.
  - intros Hall. destruct (tradingview_proxy.search_chrome_major ua) as [m|] eqn:Hm; [|done].
    exfalso. destruct (search_chrome_major_Some ua m Hm) as (Ht & Hdig & Hc).
    destruct m as [|d m]; [done|]. simpl in Hdig. apply andb_true_iff in Hdig as [Hd _].
    specialize (Hall d Hd). clear Hm.
    induction ua as [|c ua IH]; [done|].
    rewrite contains_cons in Hc, Hall.
    apply orb_false_iff in Hall as [Hs Hr]. apply orb_true_iff in Hc as [Hc | Hc].
    + rewrite (startswith_app "Chrome/" (String d EmptyString)) in Hs.
      rewrite (startswith_app "Chrome/" (String d m)) in Hc.
      apply andb_true_iff in Hc as [Hp Hq]. rewrite Hp in Hs.
      destruct (tradingview_proxy.string_drop (String.length "Chrome/") (String c ua))
        as [|x t]; [done|].
      change (Py.startswith (String d m) (String x t))
        with (if Ascii.eqb d x then Py.startswith m t else false) in Hq.
      change (true && Py.startswith (String d EmptyString) (String x t))
        with (if Ascii.eqb d x then Py.startswith EmptyString t else false) in Hs.
      destruct (Ascii.eqb d x); [|done]. by destruct t.
    + by apply IH.
Qed.

Lemma search_chrome_major_spec_witness :
  (∀ m, tradingview_proxy.search_chrome_major sample_user_agent = Some m →
        Py.truthy_str m = true ∧ all_digits m = true ∧
        Py.contains ("Chrome/" +:+ m) sample_user_agent = true) ∧
  (tradingview_proxy.search_chrome_major sample_user_agent = None ↔
   ∀ d, is_digit d = true →
        Py.contains ("Chrome/" +:+ String d EmptyString) sample_user_agent = false).
Proof. apply (search_chrome_major_spec sample_user_agent). reflexivity. Defined.

(** ** The result normaliser: what stripping does and what comes out *)

Section NormalizerOutput.
Import Json tradingview_proxy.

Lemma no_provenance_filter (d : dict) :
  no_provenance (filter (λ kv : string * json, kv.1 ∉ remove_keys) d).
Proof.
  unfold no_provenance. apply Forall_forall. intros kv Hkv.
  by apply list_elem_of_filter in Hkv as [H _].
Qed.

Lemma dict_get_removed (k : string) (d : dict) :
  no_provenance d → k ∈ remove_keys → dict_get k d = None.
Proof.
  unfold no_provenance. induction 1 as [|[k' v] rest Hkv Hrest IH]; intros Hk; [done|].
  simpl. destruct (decide (k' = k)) as [-> | _]; [done | by apply IH].
Qed.

Lemma dict_get_set_eq (k : string) (v : json) (d : dict) :
  dict_get k (dict_set k v d) = Some v.
Proof.
  induction d as [|[k' v'] rest IH]; simpl.
  - by rewrite decide_True.
  - destruct (decide (k' = k)) as [-> | Hne]; simpl.
    + by rewrite decide_True.
    + by rewrite decide_False.
Qed.

Lemma dict_get_set_ne (k k0 : string) (v : json) (d : dict) :
  k0 ≠ k → dict_get k0 (dict_set k v d) = dict_get k0 d.
Proof.
  intros Hne. induction d as [|[k' v'] rest IH]; simpl.
  - by rewrite decide_False.
  - destruct (decide (k' = k)) as [-> | Hk]; simpl.
    + by rewrite !decide_False.
    + by rewrite IH.
Qed.

Lemma no_provenance_dict_set (k : string) (v : json) (d : dict) :
  k ∉ remove_keys → no_provenance d → no_provenance (dict_set k v d).
Proof.
  unfold no_provenance. intros Hk. induction 1 as [|[k' v'] rest Hkv Hrest IH]; simpl.
  - by repeat constructor.
  - destruct (decide (k' = k)); constructor; done.
Qed.

Lemma dict_set_keys (k : string) (v : json) (d : dict) :
  is_Some (dict_get k d) → (dict_set k v d).*1 = d.*1.
Proof.
  induction d as [|[k' v'] rest IH]; simpl; [by intros [? ?]|].
  destruct (decide (k' = k)) as [-> | Hne]; [done|].
  intros H. rewrite !fmap_cons. f_equal. by apply IH.
Qed.

Lemma has_crypto_dict_set_type (v : json) (d : dict) :
  has_crypto (dict_set "type" v d) = has_crypto d.
Proof.
  unfold has_crypto, typespecs_of, get_or_none. by rewrite !dict_get_set_ne.
Qed.

Lemma eq_text_true (v : option json) (s : string) :
  eq_text v s = true ↔ v = Some (JStr s).
Proof.
  unfold eq_text. destruct v as [[| | |s'| |]|]; try (split; [done | discriminate]).
  rewrite bool_decide_eq_true. split; [by intros -> | by intros [= ->]].
Qed.

(** The two ways in which stripping a mapping ends. *)
Lemma strip_dict_cases (kvs : dict) (out : json) :
  _strip_tv_fields (JObj kvs) = Some out →
  (out = JObj (filter (λ kv : string * json, kv.1 ∉ remove_keys) kvs) ∧
   (dict_get "type" kvs ≠ Some (JStr "spot") ∨ has_crypto kvs = Some false)) ∨
  (out = JObj (dict_set "type" (JStr "crypto")
                 (filter (λ kv : string * json, kv.1 ∉ remove_keys) kvs)) ∧
   dict_get "type" kvs = Some (JStr "spot") ∧ has_crypto kvs = Some true).
Proof.
  unfold _strip_tv_fields.
  rewrite dict_get_filter by (apply not_provenance_key; auto).
  rewrite has_crypto_filter.
  destruct (eq_text (dict_get "type" kvs) "spot") eqn:Hspot.
  - apply eq_text_true in Hspot.
    destruct (has_crypto kvs) as [[|]|]; simpl; intros [= <-]; [right | left]; auto.
  - intros [= <-]. left. split; [done|]. left. intros H.
    apply eq_text_true in H. congruence.
Qed.

(** X8. Stripping is idempotent: stripping what stripping returned
    changes nothing more. *)
Theorem strip_idempotent (item out : json) :
  _strip_tv_fields item = Some out → _strip_tv_fields out = Some out.
Proof.
  destruct item as [| | | | |kvs]; try (by intros [= <-]).
  intros H. apply strip_dict_cases in H as [[-> Hcase] | (-> & Ht & Hc)].
  - unfold _strip_tv_fields.
    rewrite (filter_no_provenance _ (no_provenance_filter kvs)).
    rewrite dict_get_filter by (apply not_provenance_key; auto).
    rewrite has_crypto_filter.
    destruct (eq_text (dict_get "type" kvs) "spot") eqn:Hspot; [|done].
    apply eq_text_true in Hspot. destruct Hcase as [Hne | ->]; [done | done].
  - unfold _strip_tv_fields.
    rewrite filter_no_provenance.
    2:{ apply no_provenance_dict_set; [apply not_provenance_key; auto|].
        apply no_provenance_filter. }
    by rewrite dict_get_set_eq.
Qed.

Lemma strip_idempotent_witness :
  _strip_tv_fields
    (JObj [("symbol", JStr "BTC"); ("type", JStr "crypto"); ("typespecs", JArr [JStr "crypto"])])
  = Some (JObj [("symbol", JStr "BTC"); ("type", JStr "crypto");
                ("typespecs", JArr [JStr "crypto"])]).
Proof.
  apply (strip_idempotent
           (JObj [("provider_id", JStr "x"); ("symbol", JStr "BTC"); ("type", JStr "spot");
                  ("typespecs", JArr [JStr "crypto"])])).
  by vm_compute.
Defined.

(** X9. What stripping changes in a mapping: the four provenance-only
    keys are gone; every other key except type keeps its value; the type
    keeps its value too, unless it was the text spot with a crypto marker
    among the markers, when it becomes crypto. *)
Theorem strip_fields (kvs : dict) (out : json) :
  _strip_tv_fields (JObj kvs) = Some out →
  ∃ kvs',
    out = JObj kvs' ∧
    (∀ k, k ∈ remove_keys → dict_get k kvs' = None) ∧
    (∀ k, k ∉ remove_keys → k ≠ "type" → dict_get k kvs' = dict_get k kvs) ∧
    (dict_get "type" kvs' = dict_get "type" kvs ∧
       (dict_get "type" kvs ≠ Some (JStr "spot") ∨ has_crypto kvs = Some false)
     ∨ dict_get "type" kvs = Some (JStr "spot") ∧ has_crypto kvs = Some true ∧
       dict_get "type" kvs' = Some (JStr "crypto")).
Proof.
  intros H. apply strip_dict_cases in H as [[-> Hcase] | (-> & Ht & Hc)]; eexists;
    (split; [reflexivity|]).
  - split; [|split].
    + intros k Hk. apply dict_get_removed; [apply no_provenance_filter | done].
    + intros k Hk _. by apply dict_get_filter.
    + left. split; [|done]. apply dict_get_filter, not_provenance_key. auto.
  - split; [|split].
    + intros k Hk. apply dict_get_removed; [|done].
      apply no_provenance_dict_set; [apply not_provenance_key; auto|].
      apply no_provenance_filter.
    + intros k Hk Hne. rewrite dict_get_set_ne by done. by apply dict_get_filter.
    + right. split; [done|]. split; [done|]. apply dict_get_set_eq.
Qed.

Lemma strip_fields_witness :
  ∃ kvs',
    JObj [("symbol", JStr "BTC"); ("type", JStr "crypto"); ("typeSpecs", JArr [JStr "CRYPTO"])]
      = JObj kvs' ∧
    (∀ k, k ∈ remove_keys → dict_get k kvs' = None) ∧
    (∀ k, k ∉ remove_keys → k ≠ "type" →
       dict_get k kvs'
       = dict_get k [("source2", JNull); ("symbol", JStr "BTC"); ("type", JStr "spot");
                     ("typeSpecs", JArr [JStr "CRYPTO"])]) ∧
    (dict_get "type" kvs'
       = dict_get "type" [("source2", JNull); ("symbol", JStr "BTC"); ("type", JStr "spot");
                          ("typeSpecs", JArr [JStr "CRYPTO"])] ∧
       (dict_get "type" [("source2", JNull); ("symbol", JStr "BTC"); ("type", JStr "spot");
                         ("typeSpecs", JArr [JStr "CRYPTO"])] ≠ Some (JStr "spot") ∨
        has_crypto [("source2", JNull); ("symbol", JStr "BTC"); ("type", JStr "spot");
                    ("typeSpecs", JArr [JStr "CRYPTO"])] = Some false)
     ∨ dict_get "type" [("source2", JNull); ("symbol", JStr "BTC"); ("type", JStr "spot");
                        ("typeSpecs", JArr [JStr "CRYPTO"])] = Some (JStr "spot") ∧
       has_crypto [("source2", JNull); ("symbol", JStr "BTC"); ("type", JStr "spot");
                   ("typeSpecs", JArr [JStr "CRYPTO"])] = Some true ∧
       dict_get "type" kvs' = Some (JStr "crypto")).
Proof.
  apply (strip_fields
           [("source2", JNull); ("symbol", JStr "BTC"); ("type", JStr "spot");
            ("typeSpecs", JArr [JStr "CRYPTO"])]).
  by vm_compute.
Defined.

End NormalizerOutput.

Section NormalizerPipeline.
Import Json tradingview_proxy.

Lemma filtered_of_Some (items : list json) (filtered : list dict) :
  filtered_of items = Some filtered →
  length filtered ≤ length items ∧ Forall (λ item, keep item = Some true) filtered.
Proof.
  revert filtered. induction items as [|x rest IH]; intros filtered.
  - intros [= <-]. split; [done | constructor].
  - assert (filtered_of rest = Some filtered →
            length filtered ≤ length (x :: rest)
            ∧ Forall (λ item, keep item = Some true) filtered) as Hskip.
    { intros H. destruct (IH _ H). split; [simpl; lia | done]. }
    destruct x as [| | | | |item]; try exact Hskip.
    simpl. destruct (keep item) as [k|] eqn:Hk; [|done]. simpl.
    destruct (filtered_of rest) as [tail|] eqn:Htail; [|done]. simpl.
    destruct (IH tail eq_refl) as [Hlen Hall].
    destruct k; intros [= <-]; (split; [simpl; lia|]); [by constructor | done].
Qed.

Lemma filtered_of_raises (items : list json) (item : dict) :
  JObj item ∈ items → keep item = None → filtered_of items = None.
Proof.
  intros Hin Hk. induction items as [|x rest IH]; [by apply elem_of_nil in Hin|].
  apply elem_of_cons in Hin as [<- | Hin].
  - simpl. by rewrite Hk.
  - specialize (IH Hin). destruct x as [| | | | |item']; simpl; try done.
    rewrite IH. by destruct (keep item').
Qed.

Lemma dedupe_from_Some_hashable (items : list dict) (st st' : gset hkey * list dict) :
  dedupe_from st items = Some st' →
  Forall (λ item, has_symbol item = true → is_Some (symbol_key item)) items.
Proof.
  revert st. induction items as [|item rest IH]; intros st; [constructor|].
  simpl. destruct (dedupe_step st item) as [st1|] eqn:Hstep; [|done]. simpl.
  intros Hrest. constructor; [|by eapply IH].
  intros Hs. unfold dedupe_step in Hstep. fold (symbol_of item) in Hstep.
  fold (has_symbol item) in Hstep. rewrite Hs in Hstep. unfold symbol_key.
  destruct (hash_key (symbol_of item)); [eauto | done].
Qed.

(** What stripping makes of an item that the filter kept. *)
Lemma strip_kept_item (item : dict) (out : json) :
  keep item = Some true → has_symbol item = true →
  _strip_tv_fields (JObj item) = Some out →
  clean_item out ∧ symbol_key_of out = symbol_key item.
Proof.
  intros Hkeep Hsym Hstrip.
  assert (∀ kvs' : dict,
            dict_get "symbol" kvs' = dict_get "symbol" item →
            has_symbol kvs' = true ∧ symbol_key kvs' = symbol_key item) as Hsame.
  { intros kvs' Hget. unfold has_symbol, symbol_key, symbol_of, get_or_none in *.
    by rewrite Hget. }
  apply strip_dict_cases in Hstrip as [[-> Hcase] | (-> & Ht & Hc)].
  - destruct (Hsame (filter (λ kv : string * json, kv.1 ∉ remove_keys) item)) as [Hs Hk].
    { apply dict_get_filter, not_provenance_key. auto. }
    split; [|done]. eexists. split; [reflexivity|].
    split; [apply no_provenance_filter|]. split; [done|].
    rewrite dict_get_filter by (apply not_provenance_key; auto).
    destruct Hcase as [Hne | Hfalse]; [done|]. intros Ht.
    assert (category item = "spot") as Hcat.
    { apply category_spot. by apply eq_text_true. }
    destruct (keep_cases item false Hfalse) as (_ & Hspot & _).
    rewrite (Hspot Hcat) in Hkeep. discriminate.
  - destruct (Hsame (dict_set "type" (JStr "crypto")
                       (filter (λ kv : string * json, kv.1 ∉ remove_keys) item)))
      as [Hs Hk].
    { rewrite dict_get_set_ne by done. apply dict_get_filter, not_provenance_key. auto. }
    split; [|done]. eexists. split; [reflexivity|]. split.
    { apply no_provenance_dict_set; [apply not_provenance_key; auto|].
      apply no_provenance_filter. }
    split; [done|]. by rewrite dict_get_set_eq.
Qed.

(** X10. Whenever filter, deduplication and stripping complete on a
    sequence of upstream values, the result is no longer than the input,
    no two of its items share a symbol value, and each item is a mapping
    with a symbol value, without any of the four provenance-only fields,
    and with a type other than the text spot. *)
Theorem normalized_items_are_clean (items out : list json) :
  deduped_clean_of items = Some out →
  length out ≤ length items ∧
  NoDup (symbol_key_of <$> out) ∧
  Forall clean_item out.
Proof.
  unfold deduped_clean_of.
  destruct (filtered_of items) as [filtered|] eqn:Hf; [|done]. simpl.
  destruct (dedupe filtered) as [deduped|] eqn:Hd; [|done]. simpl.
  intros Hstrip. apply mapM_Some in Hstrip.
  destruct (filtered_of_Some _ _ Hf) as [Hlen Hkept].
  unfold dedupe in Hd.
  destruct (dedupe_from (∅, []) filtered) as [st'|] eqn:Hrun; [|done].
  injection Hd as Hd.
  pose proof (dedupe_from_Some_hashable _ _ _ Hrun) as Hhash.
  destruct (dedupe_from_first_occurrences filtered [] ∅ [] Hhash) as [seen' Hrun'].
  { intros k. split; [intros H; by apply not_elem_of_empty in H|].
    intros (e & He & _). by apply elem_of_nil in He. }
  rewrite Hrun in Hrun'. injection Hrun' as ->. simpl in Hd. subst deduped.
  pose proof (first_occurrences_sublist filtered []) as Hsub.
  pose proof (first_occurrences_have_symbol filtered []) as Hsym.
  pose proof (first_occurrences_NoDup filtered []) as Hnd.
  assert (Forall (λ item, keep item = Some true) (first_occurrences [] filtered)) as Hkept'.
  { apply Forall_forall. intros item Hitem. rewrite Forall_forall in Hkept.
    apply Hkept. by eapply elem_of_sublist. }
  apply sublist_length in Hsub.
  pose proof (Forall2_length _ _ _ Hstrip) as Hlen'.
  split; [lia|].
  revert Hsym Hnd Hkept'. clear -Hstrip.
  induction Hstrip as [|item v rest outs Hv Hrest IH]; intros Hsym Hnd Hkept.
  - split; constructor.
  - apply Forall_cons in Hsym as [Hs Hsym]. apply Forall_cons in Hkept as [Hk Hkept].
    rewrite fmap_cons in Hnd. apply NoDup_cons in Hnd as [Hnotin Hnd].
    destruct (IH Hsym Hnd Hkept) as [IHnd IHclean].
    destruct (strip_kept_item item v Hk Hs Hv) as [Hclean Hkey].
    assert (symbol_key_of <$> outs = symbol_key <$> rest) as Hkeys.
    { clear -Hrest Hsym Hkept. induction Hrest as [|i o r os Ho Hr IHr]; [done|].
      apply Forall_cons in Hsym as [Hs Hsym]. apply Forall_cons in Hkept as [Hk Hkept].
      rewrite !fmap_cons, (IHr Hsym Hkept).
      by destruct (strip_kept_item i o Hk Hs Ho) as [_ ->]. }
    split; [|by constructor].
    rewrite fmap_cons, Hkey, Hkeys. by constructor.
Qed.

End NormalizerPipeline.

Lemma normalized_items_are_clean_witness :
  length [ Json.JObj [("symbol", Json.JStr "BTCUSD"); ("type", Json.JStr "crypto");
                      ("typespecs", Json.JArr [Json.JStr "Crypto"])];
           Json.JObj [("symbol", Json.JStr "AAPL"); ("type", Json.JStr "Stock")] ]
    ≤ length raw_items ∧
  NoDup (symbol_key_of
           <$> [ Json.JObj [("symbol", Json.JStr "BTCUSD"); ("type", Json.JStr "crypto");
                            ("typespecs", Json.JArr [Json.JStr "Crypto"])];
                 Json.JObj [("symbol", Json.JStr "AAPL"); ("type", Json.JStr "Stock")] ]) ∧
  Forall clean_item
    [ Json.JObj [("symbol", Json.JStr "BTCUSD"); ("type", Json.JStr "crypto");
                 ("typespecs", Json.JArr [Json.JStr "Crypto"])];
      Json.JObj [("symbol", Json.JStr "AAPL"); ("type", Json.JStr "Stock")] ].
Proof. apply (normalized_items_are_clean raw_items). by vm_compute. Defined.

(** X11. When the payload is a mapping with a sequence under symbols and
    normalisation completes, the new payload has the same keys in the same
    order, every field other than symbols keeps its value, and symbols
    holds the filtered, deduplicated and stripped items. *)
Theorem normalize_mapping_keeps_fields (kvs : Json.dict) (payload : Json.json) :
  tradingview_proxy.normalize (Json.JObj kvs) = Some (tradingview_proxy.Normalized payload) →
  ∃ kvs' items clean,
    payload = Json.JObj kvs' ∧
    kvs'.*1 = kvs.*1 ∧
    (∀ k, k ≠ "symbols" → Json.dict_get k kvs' = Json.dict_get k kvs) ∧
    Json.dict_get "symbols" kvs = Some (Json.JArr items) ∧
    tradingview_proxy.deduped_clean_of items = Some clean ∧
    Json.dict_get "symbols" kvs' = Some (Json.JArr clean).
Proof.
  unfold tradingview_proxy.normalize.
  destruct (Json.dict_get "symbols" kvs) as [[| | | |items|]|] eqn:Hsym; try done.
  destruct (tradingview_proxy.deduped_clean_of items) as [clean|] eqn:Hclean; [|done].
  simpl. intros [= <-]. eexists _, items, clean. split; [reflexivity|].
  split; [apply dict_set_keys; by rewrite Hsym|].
  split; [intros k Hk; by apply dict_get_set_ne|].
  split; [done|]. split; [done|]. apply dict_get_set_eq.
Qed.

Lemma normalize_mapping_keeps_fields_witness :
  ∃ kvs' items clean,
    Json.JObj [("symbols_remaining", Json.JNum 7); ("symbols", Json.JArr []); ("id", Json.JNull)]
      = Json.JObj kvs' ∧
    kvs'.*1
      = [("symbols_remaining", Json.JNum 7); ("symbols", Json.JArr [Json.JNum 1]);
         ("id", Json.JNull)].*1 ∧
    (∀ k, k ≠ "symbols" →
       Json.dict_get k kvs'
       = Json.dict_get k [("symbols_remaining", Json.JNum 7);
                          ("symbols", Json.JArr [Json.JNum 1]); ("id", Json.JNull)]) ∧
    Json.dict_get "symbols" [("symbols_remaining", Json.JNum 7);
                             ("symbols", Json.JArr [Json.JNum 1]); ("id", Json.JNull)]
      = Some (Json.JArr items) ∧
    tradingview_proxy.deduped_clean_of items = Some clean ∧
    Json.dict_get "symbols" kvs' = Some (Json.JArr clean).
Proof.
  apply (normalize_mapping_keeps_fields
           [("symbols_remaining", Json.JNum 7); ("symbols", Json.JArr [Json.JNum 1]);
            ("id", Json.JNull)]).
  by vm_compute.
Defined.

(** X12. A list payload in which some mapping has, as its markers, a
    number other than zero cannot be normalised (the markers cannot be
    iterated); the 2xx branch then hands back the raw bytes with the
    answer's content type instead of failing, whatever the other items
    are. *)
Theorem unreadable_markers_pass_through (dumps : Json.json → string)
    (resp : tradingview_proxy.response) (items : list Json.json) (item : Json.dict)
    (n : Z) :
  tradingview_proxy.json_body resp = Some (Json.JArr items) →
  Json.JObj item ∈ items →
  Json.dict_get "typespecs" item = Some (Json.JNum n) →
  n ≠ 0%Z →
  tradingview_proxy.on_success dumps resp
  = (tradingview_proxy.content resp,
     default "application/json" (tradingview_proxy.content_type_header resp)).
Proof.
  intros Hbody Hin Hts Hn. unfold tradingview_proxy.on_success. rewrite Hbody.
  assert (tradingview_proxy.keep item = None) as Hkeep.
  { unfold tradingview_proxy.keep, tradingview_proxy.has_crypto,
      tradingview_proxy.typespecs_of, Json.get_or_none, Json.py_or.
    assert (Json.truthy (Json.JNum n) = true) as Htruthy.
    { simpl. apply Z.eqb_neq in Hn. by rewrite Hn. }
    rewrite Hts. change (default Json.JNull (Some (Json.JNum n))) with (Json.JNum n).
    rewrite Htruthy. rewrite Htruthy. reflexivity. }
  unfold tradingview_proxy.normalize, tradingview_proxy.deduped_clean_of.
  by rewrite (filtered_of_raises items item Hin Hkeep).
Qed.

Lemma unreadable_markers_pass_through_witness :
  tradingview_proxy.on_success (λ _, EmptyString) unreadable_answer
  = (tradingview_proxy.content unreadable_answer,
     default "application/json" (tradingview_proxy.content_type_header unreadable_answer)).
Proof.
  apply (unreadable_markers_pass_through (λ _, EmptyString) unreadable_answer
           [ Json.JObj [("symbol", Json.JStr "AAPL"); ("type", Json.JStr "stock")];
             Json.JObj [("symbol", Json.JStr "X"); ("typespecs", Json.JNum 5)] ]
           [("symbol", Json.JStr "X"); ("typespecs", Json.JNum 5)] 5).
  - reflexivity.
  - right. left.
  - reflexivity.
  - discriminate.
Defined.

(** ** The search executor: every run *)

Section SearchRuns.
Import Json tradingview_proxy.
Variable dumps : json → string.

Lemma classify_Failed (r : reply) (message : string) :
  classify dumps r = Failed message → retryable r ∧ message = diagnostic r.
Proof.
  destruct r as [resp | m]; simpl.
  - destruct (decide (200 ≤ status_code resp < 300)%Z) as [H | H].
    + by destruct (on_success dumps resp).
    + by intros [= <-].
  - by intros [= <-].
Qed.

Lemma classify_Done_not_retryable (r : reply) (body content_type : string) :
  classify dumps r = Done body content_type → ¬ retryable r.
Proof. intros Hd Hr. by rewrite (classify_retryable dumps r Hr) in Hd. Qed.

Lemma sleeps_app (a b : list event) : sleeps (a ++ b) = sleeps a ++ sleeps b.
Proof. unfold sleeps. apply omap_app. Qed.

Lemma requests_app (a b : list event) : requests (a ++ b) = requests a ++ requests b.
Proof. unfold requests. apply omap_app. Qed.

(** One round in detail: which location is selected and marked as used,
    through which URL the GET goes, and what the headers say about the
    location's region. *)
Lemma attempt_detail (params : gmap string string) (e : attempt_env)
    (proxy : proxy_pool.OxyLabsProxy) :
  ∃ loc pool' fp,
    proxy_pool.get_random_location proxy_pool.LOCATIONS (proxy_draw e)
      (proxy_pool._proxy_pool proxy) = Some (loc, pool') ∧
    loc ∈ proxy_pool.LOCATIONS ∧
    browser_config.generate
      (browser_config.ProxyLocation_of_state
         (_parse_state_from_location (proxy_pool.to_str loc)))
      (fingerprint_env e) = Some fp ∧
    attempt dumps params e proxy
    = (proxy_pool.with_pool proxy pool',
       [Get (proxy_pool.get_url proxy loc) params (outbound_headers fp)],
       classify dumps (network e)).
Proof.
  unfold attempt, proxy_pool.get_random_proxy.
  destruct (get_random_location_step proxy_pool.LOCATIONS ltac:(done)
              (proxy_draw e) (proxy_pool._proxy_pool proxy)) as (loc & Hstep & Hin & _).
  rewrite Hstep. simpl.
  assert (proxy_pool.proxy_conf proxy loc !! "location" = Some (proxy_pool.to_str loc))
    as Hlocation.
  { unfold proxy_pool.proxy_conf. simpl.
    rewrite !lookup_insert_ne by done. by rewrite lookup_insert_eq. }
  assert (proxy_pool.proxy_conf proxy loc !! "url" = Some (proxy_pool.get_url proxy loc))
    as Hurl.
  { unfold proxy_pool.proxy_conf. simpl. by rewrite lookup_insert_eq. }
  rewrite Hlocation, Hurl. simpl.
  destruct (generate_total
              (browser_config.ProxyLocation_of_state
                 (_parse_state_from_location (proxy_pool.to_str loc)))
              (fingerprint_env e)) as (fp & _ & _ & _ & Hgen & _).
  rewrite Hgen. eexists loc, _, fp. done.
Qed.

Lemma random_calls_cons (catalog : list proxy_pool.ProxyLocation) (r : nat)
    (rest : list nat) (p p1 : proxy_pool.ProxyPool) (loc : proxy_pool.ProxyLocation)
    (tr : list (bool * proxy_pool.ProxyLocation)) (p2 : proxy_pool.ProxyPool) :
  proxy_pool.get_random_location catalog r p = Some (loc, p1) →
  proxy_pool.random_calls catalog rest p1 = Some (tr, p2) →
  proxy_pool.random_calls catalog (r :: rest) p
  = Some ((proxy_pool.resets catalog p, loc) :: tr, p2).
Proof. intros H1 H2. simpl. rewrite H1. simpl. rewrite H2. reflexivity. Qed.

(** Every run of the loop: the rounds made are selections on the pool in
    order, one GET each through the selected location; the run either
    returns at the first round that is not a retryable failure, having
    slept once after each round before it, or raises after all [n] rounds
    have failed, having slept once after each of them. *)
Lemma rounds_run (params : gmap string string) (envs : nat → attempt_env)
    (n k : nat) (last_error : option string) (proxy : proxy_pool.OxyLabsProxy) :
  ∃ m tr pool',
    m ≤ n ∧
    proxy_pool.random_calls proxy_pool.LOCATIONS (draws_from envs k m)
      (proxy_pool._proxy_pool proxy) = Some (tr, pool') ∧
    proxy_after (rounds dumps params envs n k last_error proxy)
      = proxy_pool.with_pool proxy pool' ∧
    requests (trace (rounds dumps params envs n k last_error proxy))
      = proxy_pool.get_url proxy <$> tr.*2 ∧
    ((m = n ∧
      (∀ i, i < n → retryable (network (envs (k + i)))) ∧
      outcome (rounds dumps params envs n k last_error proxy)
        = TradingViewProxyError
            ("TradingView search failed after retries: "
               +:+ show_last_error (diagnostic_after envs last_error k n)) ∧
      sleeps (trace (rounds dumps params envs n k last_error proxy))
        = jitter_of envs <$> seq k n)
     ∨ (∃ j body content_type,
          m = S j ∧
          (∀ i, i < j → retryable (network (envs (k + i)))) ∧
          classify dumps (network (envs (k + j))) = Done body content_type ∧
          outcome (rounds dumps params envs n k last_error proxy)
            = Return body content_type ∧
          sleeps (trace (rounds dumps params envs n k last_error proxy))
            = jitter_of envs <$> seq k j)).
Proof.
  revert k last_error proxy. induction n as [|n IH]; intros k last_error proxy.
  - exists 0, [], (proxy_pool._proxy_pool proxy). simpl.
    split; [done|]. split; [done|]. split; [by destruct proxy|]. split; [done|].
    left. split; [done|]. split; [intros i Hi; lia|]. done.
  - destruct (attempt_detail params (envs k) proxy)
      as (loc & pool1 & fp & Hsel & Hloc & Hgen & Hatt).
    simpl. rewrite Hatt.
    destruct (classify dumps (network (envs k))) as [body ct | message] eqn:Hcls.
    + exists 1, [(proxy_pool.resets proxy_pool.LOCATIONS (proxy_pool._proxy_pool proxy), loc)],
        pool1.
      split; [lia|]. split; [|split; [done|split; [done|]]].
      { unfold draws_from. simpl. rewrite Hsel. reflexivity. }
      right. exists 0, body, ct. rewrite Nat.add_0_r.
      split; [done|]. split; [intros i Hi; lia|]. done.
    + apply classify_Failed in Hcls as [Hretry ->].
      destruct (IH (S k) (Some (diagnostic (network (envs k))))
                  (proxy_pool.with_pool proxy pool1))
        as (m & tr & pool' & Hm & Hcalls & Hafter & Hreq & Hcases).
      exists (S m), ((proxy_pool.resets proxy_pool.LOCATIONS (proxy_pool._proxy_pool proxy),
                      loc) :: tr), pool'.
      split; [lia|]. split; [|split; [|split]].
      * unfold draws_from. simpl seq. rewrite fmap_cons.
        apply (random_calls_cons _ _ _ _ pool1); [exact Hsel | exact Hcalls].
      * simpl. by rewrite Hafter.
      * simpl. rewrite Hreq. reflexivity.
      * destruct Hcases as [(-> & Hall & Hout & Hsl) | (j & body & ct & -> & Hall & Hd & Hout & Hsl)].
        -- left. split; [done|]. split; [|split].
           ++ intros [|i] Hi; [by rewrite Nat.add_0_r|].
              replace (k + S i) with (S k + i) by lia. apply Hall. lia.
           ++ simpl. rewrite Hout. do 3 f_equal.
              destruct n as [|n']; simpl; [by rewrite Nat.add_0_r|].
              by replace (k + S n') with (S (k + n')) by lia.
           ++ simpl. rewrite Hsl. reflexivity.
        -- right. exists (S j), body, ct. split; [done|]. split; [|split; [|split]].
           ++ intros [|i] Hi; [by rewrite Nat.add_0_r|].
              replace (k + S i) with (S k + i) by lia. apply Hall. lia.
           ++ by replace (k + S j) with (S k + j) by lia.
           ++ simpl. by rewrite Hout.
           ++ simpl. rewrite Hsl. reflexivity.
Qed.

Lemma random_calls_length (draws : list nat) (p p' : proxy_pool.ProxyPool)
    (tr : list (bool * proxy_pool.ProxyLocation)) :
  proxy_pool.random_calls proxy_pool.LOCATIONS draws p = Some (tr, p') →
  length tr = length draws.
Proof.
  revert p tr. induction draws as [|r rest IH]; intros p tr; simpl.
  - by intros [= <- _].
  - destruct (proxy_pool.get_random_location _ r p) as [[loc p1]|]; [|done]. simpl.
    destruct (proxy_pool.random_calls _ rest p1) as [[tr' p2]|] eqn:Hrest; [|done]. simpl.
    intros [= <- ?]. subst p2. simpl. f_equal. by eapply IH.
Qed.

End SearchRuns.

(** The loop when its first 2xx answer comes in round [j], from the
    start. *)
Lemma rounds_first_success (dumps : Json.json → string)
    (proxy : proxy_pool.OxyLabsProxy) (params : gmap string string) (n : nat)
    (envs : nat → tradingview_proxy.attempt_env) (j : nat)
    (resp : tradingview_proxy.response) :
  j < n →
  (∀ i, i < j → retryable (tradingview_proxy.network (envs i))) →
  tradingview_proxy.network (envs j) = tradingview_proxy.Answers resp →
  (200 ≤ tradingview_proxy.status_code resp < 300)%Z →
  tradingview_proxy.outcome (tradingview_proxy.rounds dumps params envs n 0 None proxy)
  = tradingview_proxy.Return (tradingview_proxy.on_success dumps resp).1
                             (tradingview_proxy.on_success dumps resp).2 ∧
  length (requests (tradingview_proxy.trace
            (tradingview_proxy.rounds dumps params envs n 0 None proxy))) = S j ∧
  sleeps (tradingview_proxy.trace (tradingview_proxy.rounds dumps params envs n 0 None proxy))
  = jitter_of envs <$> seq 0 j.
Proof.
  intros Hlt Hfail Hnet Hstatus.
  assert (tradingview_proxy.classify dumps (tradingview_proxy.network (envs j))
          = tradingview_proxy.Done (tradingview_proxy.on_success dumps resp).1
                                   (tradingview_proxy.on_success dumps resp).2) as Hdone.
  { rewrite Hnet. simpl. rewrite decide_True by done.
    by destruct (tradingview_proxy.on_success dumps resp). }
  destruct (rounds_run dumps params envs n 0 None proxy)
    as (m & tr & pool' & Hm & Hcalls & _ & Hreq & Hcases).
  apply random_calls_length in Hcalls. unfold draws_from in Hcalls.
  rewrite length_fmap, length_seq in Hcalls.
  rewrite Hreq, !length_fmap, Hcalls.
  destruct Hcases as [(-> & Hall & _) | (j' & body & ct & -> & Hall & Hd & Hout & Hsl)].
  - exfalso. apply (classify_Done_not_retryable dumps _ _ _ Hdone). by apply Hall.
  - simpl in *. assert (j' = j) as ->.
    { destruct (Nat.lt_trichotomy j' j) as [Hlt' | [-> | Hgt]]; [|done|].
      - exfalso. apply (classify_Done_not_retryable dumps _ _ _ Hd). by apply Hfail.
      - exfalso. apply (classify_Done_not_retryable dumps _ _ _ Hdone). by apply Hall. }
    rewrite Hdone in Hd. injection Hd as <- <-. done.
Qed.



(** ** The search executor: the rounds in full *)

Section SearchRunsWithSetup.
Import Json tradingview_proxy.
Variable dumps : json → string.

(** One round in full: the selection and the fingerprint are made in
    any case; the GET is sent exactly when the transport is set up. *)
Lemma attempt_with_setup_detail (params : gmap string string) (e : attempt_env)
    (set_up : option string) (proxy : proxy_pool.OxyLabsProxy) :
  ∃ loc pool' fp,
    proxy_pool.get_random_location proxy_pool.LOCATIONS (proxy_draw e)
      (proxy_pool._proxy_pool proxy) = Some (loc, pool') ∧
    loc ∈ proxy_pool.LOCATIONS ∧
    browser_config.generate
      (browser_config.ProxyLocation_of_state
         (_parse_state_from_location (proxy_pool.to_str loc)))
      (fingerprint_env e) = Some fp ∧
    attempt_with_setup dumps params e set_up proxy
    = (proxy_pool.with_pool proxy pool',
       match set_up with
       | None => [Get (proxy_pool.get_url proxy loc) params (outbound_headers fp)]
       | Some _ => []
       end,
       match set_up with
       | None => classify dumps (network e)
       | Some message => Failed message
       end).
Proof.
  unfold attempt_with_setup, proxy_pool.get_random_proxy.
  destruct (get_random_location_step proxy_pool.LOCATIONS ltac:(done)
              (proxy_draw e) (proxy_pool._proxy_pool proxy)) as (loc & Hstep & Hin & _).
  rewrite Hstep. simpl.
  assert (proxy_pool.proxy_conf proxy loc !! "location" = Some (proxy_pool.to_str loc))
    as Hlocation.
  { unfold proxy_pool.proxy_conf. simpl.
    rewrite !lookup_insert_ne by done. by rewrite lookup_insert_eq. }
  assert (proxy_pool.proxy_conf proxy loc !! "url" = Some (proxy_pool.get_url proxy loc))
    as Hurl.
  { unfold proxy_pool.proxy_conf. simpl. by rewrite lookup_insert_eq. }
  rewrite Hlocation, Hurl. simpl.
  destruct (generate_total
              (browser_config.ProxyLocation_of_state
                 (_parse_state_from_location (proxy_pool.to_str loc)))
              (fingerprint_env e)) as (fp & _ & _ & _ & Hgen & _).
  rewrite Hgen. eexists loc, _, fp. by destruct set_up.
Qed.

(** A round whose transport is set up is the round [attempt]. *)
Lemma attempt_with_setup_set_up (params : gmap string string) (e : attempt_env)
    (proxy : proxy_pool.OxyLabsProxy) :
  attempt_with_setup dumps params e None proxy = attempt dumps params e proxy.
Proof.
  destruct (attempt_with_setup_detail params e None proxy)
    as (loc & pool' & fp & Hsel & _ & Hgen & ->).
  destruct (attempt_detail dumps params e proxy)
    as (loc' & pool'' & fp' & Hsel' & _ & Hgen' & ->).
  rewrite Hsel in Hsel'. injection Hsel' as <- <-.
  rewrite Hgen in Hgen'. by injection Hgen' as <-.
Qed.

(** When the transport is set up in every round, the loop in full is the
    loop [rounds]. *)
Lemma rounds_with_setup_set_up (params : gmap string string) (envs : nat → attempt_env)
    (set_ups : nat → option string) (n k : nat) (last_error : option string)
    (proxy : proxy_pool.OxyLabsProxy) :
  (∀ i, set_ups i = None) →
  rounds_with_setup dumps params envs set_ups n k last_error proxy
  = rounds dumps params envs n k last_error proxy.
Proof.
  intros Hset. revert k last_error proxy.
  induction n as [|n IH]; intros k last_error proxy; [done|].
  simpl. rewrite Hset, attempt_with_setup_set_up.
  destruct (attempt dumps params (envs k) proxy) as [[proxy' evs] [body ct | message]];
    [done|]. by rewrite IH.
Qed.

(** One round of the loop in full, by what the set-up and the GET do. *)
Lemma rounds_with_setup_round (params : gmap string string) (envs : nat → attempt_env)
    (set_ups : nat → option string) (n k : nat) (last_error : option string)
    (proxy : proxy_pool.OxyLabsProxy) :
  ∃ proxy' url hdrs,
    rounds_with_setup dumps params envs set_ups (S n) k last_error proxy
    = match set_ups k with
      | Some message =>
          after [Sleep (jitter_of envs k)]
                (rounds_with_setup dumps params envs set_ups n (S k) (Some message) proxy')
      | None =>
          match classify dumps (network (envs k)) with
          | Done body content_type =>
              {| outcome := Return body content_type;
                 trace := [Get url params hdrs];
                 proxy_after := proxy' |}
          | Failed message =>
              after [Get url params hdrs; Sleep (jitter_of envs k)]
                    (rounds_with_setup dumps params envs set_ups n (S k) (Some message)
                       proxy')
          end
      end.
Proof.
  destruct (attempt_with_setup_detail params (envs k) (set_ups k) proxy)
    as (loc & pool' & fp & _ & _ & _ & Hatt).
  exists (proxy_pool.with_pool proxy pool'), (proxy_pool.get_url proxy loc),
    (outbound_headers fp).
  simpl. rewrite Hatt. destruct (set_ups k); [reflexivity|].
  by destruct (classify dumps (network (envs k))).
Qed.

Lemma sent_rounds_skip (set_ups : nat → option string) (k n : nat) (message : string) :
  set_ups k = Some message →
  sent_rounds set_ups k (S n) = sent_rounds set_ups (S k) n.
Proof.
  intros Hk. unfold sent_rounds. simpl seq. rewrite filter_cons_False; [done|].
  by rewrite Hk.
Qed.

Lemma sent_rounds_send (set_ups : nat → option string) (k n : nat) :
  set_ups k = None →
  sent_rounds set_ups k (S n) = k :: sent_rounds set_ups (S k) n.
Proof.
  intros Hk. unfold sent_rounds. simpl seq. by rewrite filter_cons_True.
Qed.

Lemma sent_rounds_length (set_ups : nat → option string) (k n : nat) :
  length (sent_rounds set_ups k n) ≤ n.
Proof.
  unfold sent_rounds. etrans; [apply length_filter|]. by rewrite length_seq.
Qed.

(** The loop in full when all its rounds fail. *)
Lemma rounds_with_setup_exhausted (params : gmap string string)
    (envs : nat → attempt_env) (set_ups : nat → option string) (n k : nat)
    (last_error : option string) (proxy : proxy_pool.OxyLabsProxy) :
  (∀ i, i < n → round_fails (set_ups (k + i)) (network (envs (k + i)))) →
  outcome (rounds_with_setup dumps params envs set_ups n k last_error proxy)
  = TradingViewProxyError
      ("TradingView search failed after retries: "
         +:+ show_last_error (last_diagnostic envs set_ups last_error k n)) ∧
  sleeps (trace (rounds_with_setup dumps params envs set_ups n k last_error proxy))
  = jitter_of envs <$> seq k n ∧
  length (requests (trace (rounds_with_setup dumps params envs set_ups n k last_error proxy)))
  = length (sent_rounds set_ups k n).
Proof.
  revert k last_error proxy. induction n as [|n IH]; intros k last_error proxy Hfail; [done|].
  destruct (rounds_with_setup_round params envs set_ups n k last_error proxy)
    as (proxy' & url & hdrs & ->).
  pose proof (Hfail 0 ltac:(lia)) as Hk. rewrite Nat.add_0_r in Hk.
  assert (∀ i, i < n → round_fails (set_ups (S k + i)) (network (envs (S k + i)))) as Hrest.
  { intros i Hi. replace (S k + i) with (k + S i) by lia. apply Hfail. lia. }
  assert (∀ message,
            round_diagnostic (set_ups k) (network (envs k)) = message →
            show_last_error (last_diagnostic envs set_ups (Some message) (S k) n)
            = show_last_error (last_diagnostic envs set_ups last_error k (S n))) as Hlast.
  { intros message <-. destruct n as [|n']; simpl; [by rewrite Nat.add_0_r|].
    by replace (k + S n') with (S (k + n')) by lia. }
  destruct (set_ups k) as [message|] eqn:Hset.
  - destruct (IH (S k) (Some message) proxy' Hrest) as (Hout & Hsl & Hreq).
    rewrite (sent_rounds_skip _ _ _ _ Hset).
    split; [|split].
    + simpl outcome. rewrite Hout. by rewrite (Hlast message).
    + simpl. by rewrite Hsl.
    + simpl. by rewrite Hreq.
  - simpl in Hk. rewrite (classify_retryable dumps _ Hk).
    destruct (IH (S k) (Some (diagnostic (network (envs k)))) proxy' Hrest)
      as (Hout & Hsl & Hreq).
    rewrite (sent_rounds_send _ _ _ Hset).
    split; [|split].
    + simpl outcome. rewrite Hout. by rewrite (Hlast (diagnostic (network (envs k)))).
    + simpl. by rewrite Hsl.
    + simpl. by rewrite Hreq.
Qed.

(** Every run of the loop in full: how often it sleeps and how many GETs
    it sends. *)
Lemma rounds_with_setup_effects (params : gmap string string)
    (envs : nat → attempt_env) (set_ups : nat → option string) (n k : nat)
    (last_error : option string) (proxy : proxy_pool.OxyLabsProxy) :
  match outcome (rounds_with_setup dumps params envs set_ups n k last_error proxy) with
  | Return _ _ =>
      length (sleeps (trace
                (rounds_with_setup dumps params envs set_ups n k last_error proxy))) < n ∧
      set_ups (k + length (sleeps (trace
                (rounds_with_setup dumps params envs set_ups n k last_error proxy)))) = None ∧
      length (requests (trace
                (rounds_with_setup dumps params envs set_ups n k last_error proxy)))
      = length (sent_rounds set_ups k
                  (S (length (sleeps (trace
                     (rounds_with_setup dumps params envs set_ups n k last_error proxy))))))
  | TradingViewProxyError _ =>
      length (sleeps (trace
                (rounds_with_setup dumps params envs set_ups n k last_error proxy))) = n ∧
      length (requests (trace
                (rounds_with_setup dumps params envs set_ups n k last_error proxy)))
      = length (sent_rounds set_ups k n)
  end.
Proof.
  revert k last_error proxy. induction n as [|n IH]; intros k last_error proxy; [done|].
  destruct (rounds_with_setup_round params envs set_ups n k last_error proxy)
    as (proxy' & url & hdrs & ->).
  destruct (set_ups k) as [message|] eqn:Hset.
  - specialize (IH (S k) (Some message) proxy').
    simpl. destruct (outcome _).
    + destruct IH as (Hlt & Hsent & Hreq). split; [lia|]. split.
      * by replace (k + S _) with (S k + length (sleeps (trace
          (rounds_with_setup dumps params envs set_ups n (S k) (Some message) proxy'))))
          by lia.
      * by rewrite (sent_rounds_skip _ _ _ _ Hset).
    + destruct IH as (Hsl & Hreq). split; [lia|].
      by rewrite (sent_rounds_skip _ _ _ _ Hset).
  - destruct (classify dumps (network (envs k))) as [body ct | message].
    + simpl. split; [lia|]. rewrite Nat.add_0_r. split; [done|].
      by rewrite (sent_rounds_send _ _ _ Hset).
    + specialize (IH (S k) (Some message) proxy').
      simpl. destruct (outcome _).
      * destruct IH as (Hlt & Hsent & Hreq). split; [lia|]. split.
        -- by replace (k + S _) with (S k + length (sleeps (trace
             (rounds_with_setup dumps params envs set_ups n (S k) (Some message) proxy'))))
             by lia.
        -- rewrite (sent_rounds_send _ _ _ Hset). simpl. by rewrite Hreq.
      * destruct IH as (Hsl & Hreq). split; [lia|].
        rewrite (sent_rounds_send _ _ _ Hset). simpl. by rewrite Hreq.
Qed.

End SearchRunsWithSetup.

(** X14. When every round of the budget fails, because setting up its
    transport raises or because its GET is answered with a status outside
    2xx or raises, then for any budget the search raises its error with
    the diagnostic of the last round, after exactly as many sleeps as the
    budget, one after each round, the last included, and after one GET
    for each round whose transport was set up; with a budget of zero or
    less it raises at once, without any GET or sleep, and the message
    ends in None. *)
Theorem search_exhausts_budget (dumps : Json.json → string)
    (proxy : proxy_pool.OxyLabsProxy) (params : gmap string string) (attempts : Z)
    (envs : nat → tradingview_proxy.attempt_env) (set_ups : nat → option string) :
  (∀ i, i < Z.to_nat attempts →
        round_fails (set_ups i) (tradingview_proxy.network (envs i))) →
  tradingview_proxy.outcome
    (tradingview_proxy.tradingview_symbol_search_with_setup dumps proxy params attempts envs
       set_ups)
  = tradingview_proxy.TradingViewProxyError
      ("TradingView search failed after retries: "
         +:+ tradingview_proxy.show_last_error
               (last_diagnostic envs set_ups None 0 (Z.to_nat attempts))) ∧
  sleeps (tradingview_proxy.trace
            (tradingview_proxy.tradingview_symbol_search_with_setup dumps proxy params attempts
               envs set_ups))
  = jitter_of envs <$> seq 0 (Z.to_nat attempts) ∧
  length (requests (tradingview_proxy.trace
            (tradingview_proxy.tradingview_symbol_search_with_setup dumps proxy params attempts
               envs set_ups)))
  = length (sent_rounds set_ups 0 (Z.to_nat attempts)) ∧
  ((attempts ≤ 0)%Z →
   tradingview_proxy.tradingview_symbol_search_with_setup dumps proxy params attempts envs
     set_ups
   = {| tradingview_proxy.outcome :=
          tradingview_proxy.TradingViewProxyError
            "TradingView search failed after retries: None";
        tradingview_proxy.trace := [];
        tradingview_proxy.proxy_after := proxy |}).
Proof.
  intros Hfail. unfold tradingview_proxy.tradingview_symbol_search_with_setup.
  destruct (rounds_with_setup_exhausted dumps (tradingview_proxy.outbound_params params)
              envs set_ups (Z.to_nat attempts) 0 None proxy Hfail) as (Hout & Hsl & Hreq).
  split; [done|]. split; [done|]. split; [done|].
  intros Hle. replace (Z.to_nat attempts) with 0 by lia. reflexivity.
Qed.

Lemma search_exhausts_budget_witness :
  tradingview_proxy.outcome
    (tradingview_proxy.tradingview_symbol_search_with_setup (λ _, EmptyString) sample_proxy ∅
       3 failing_envs sample_set_ups)
  = tradingview_proxy.TradingViewProxyError
      ("TradingView search failed after retries: "
         +:+ tradingview_proxy.show_last_error
               (last_diagnostic failing_envs sample_set_ups None 0 (Z.to_nat 3))) ∧
  sleeps (tradingview_proxy.trace
            (tradingview_proxy.tradingview_symbol_search_with_setup (λ _, EmptyString)
               sample_proxy ∅ 3 failing_envs sample_set_ups))
  = jitter_of failing_envs <$> seq 0 (Z.to_nat 3) ∧
  length (requests (tradingview_proxy.trace
            (tradingview_proxy.tradingview_symbol_search_with_setup (λ _, EmptyString)
               sample_proxy ∅ 3 failing_envs sample_set_ups)))
  = length (sent_rounds sample_set_ups 0 (Z.to_nat 3)) ∧
  ((3 ≤ 0)%Z →
   tradingview_proxy.tradingview_symbol_search_with_setup (λ _, EmptyString) sample_proxy ∅ 3
     failing_envs sample_set_ups
   = {| tradingview_proxy.outcome :=
          tradingview_proxy.TradingViewProxyError
            "TradingView search failed after retries: None";
        tradingview_proxy.trace := [];
        tradingview_proxy.proxy_after := sample_proxy |}).
Proof.
  apply (search_exhausts_budget (λ _, EmptyString) sample_proxy ∅ 3 failing_envs
           sample_set_ups).
  intros i Hi. destruct i as [|[|[|i]]]; simpl; [done | lia | done | lia].
Defined.

(** X15. Every search, whatever the set-ups and the network do. It sends
    at most as many GETs as the budget. It sleeps once after each failed
    round and never otherwise: a search that raises has slept exactly as
    often as the budget, a search that returns has slept less often, once
    for each round before the one that returned. It sends one GET for
    each round made whose transport was set up, the round that returned
    among them, and no other. *)
Theorem search_effects_bounded (dumps : Json.json → string)
    (proxy : proxy_pool.OxyLabsProxy) (params : gmap string string) (attempts : Z)
    (envs : nat → tradingview_proxy.attempt_env) (set_ups : nat → option string) :
  length (requests (tradingview_proxy.trace
            (tradingview_proxy.tradingview_symbol_search_with_setup dumps proxy params attempts
               envs set_ups)))
    ≤ Z.to_nat attempts ∧
  match tradingview_proxy.outcome
          (tradingview_proxy.tradingview_symbol_search_with_setup dumps proxy params attempts
             envs set_ups) with
  | tradingview_proxy.Return _ _ =>
      length (sleeps (tradingview_proxy.trace
                (tradingview_proxy.tradingview_symbol_search_with_setup dumps proxy params
                   attempts envs set_ups))) < Z.to_nat attempts ∧
      set_ups (length (sleeps (tradingview_proxy.trace
                 (tradingview_proxy.tradingview_symbol_search_with_setup dumps proxy params
                    attempts envs set_ups)))) = None ∧
      length (requests (tradingview_proxy.trace
                (tradingview_proxy.tradingview_symbol_search_with_setup dumps proxy params
                   attempts envs set_ups)))
      = length (sent_rounds set_ups 0
                  (S (length (sleeps (tradingview_proxy.trace
                        (tradingview_proxy.tradingview_symbol_search_with_setup dumps proxy
                           params attempts envs set_ups))))))
  | tradingview_proxy.TradingViewProxyError _ =>
      length (sleeps (tradingview_proxy.trace
                (tradingview_proxy.tradingview_symbol_search_with_setup dumps proxy params
                   attempts envs set_ups))) = Z.to_nat attempts ∧
      length (requests (tradingview_proxy.trace
                (tradingview_proxy.tradingview_symbol_search_with_setup dumps proxy params
                   attempts envs set_ups)))
      = length (sent_rounds set_ups 0 (Z.to_nat attempts))
  end.
Proof.
  unfold tradingview_proxy.tradingview_symbol_search_with_setup.
  pose proof (rounds_with_setup_effects dumps (tradingview_proxy.outbound_params params) envs
                set_ups (Z.to_nat attempts) 0 None proxy) as Heff.
  destruct (tradingview_proxy.outcome _).
  - destruct Heff as (Hlt & Hsent & Hreq). split; [|done].
    rewrite Hreq. etrans; [apply sent_rounds_length|]. lia.
  - destruct Heff as (Hsl & Hreq). split; [|done].
    rewrite Hreq. apply sent_rounds_length.
Qed.

(** The proxy URL tells location strings apart. *)
Lemma string_app_cancel_r (a b t : string) : a +:+ t = b +:+ t → a = b.
Proof.
  revert b. induction a as [|x a IH]; intros b H.
  - destruct b as [|y b]; [done|]. exfalso.
    apply (f_equal String.length) in H. rewrite !string_app_length in H. simpl in H. lia.
  - destruct b as [|y b].
    + exfalso. apply (f_equal String.length) in H.
      rewrite !string_app_length in H. simpl in H. lia.
    + change (String x (a +:+ t) = String y (b +:+ t)) in H.
      injection H as -> H. f_equal. by apply IH.
Qed.

Lemma get_url_to_str_inj (proxy : proxy_pool.OxyLabsProxy)
    (l1 l2 : proxy_pool.ProxyLocation) :
  proxy_pool.get_url proxy l1 = proxy_pool.get_url proxy l2 →
  proxy_pool.to_str l1 = proxy_pool.to_str l2.
Proof.
  unfold proxy_pool.get_url, proxy_pool._get_full_username. intros H.
  apply (inj (String.app _)) in H.
  rewrite <- !string_app_assoc in H. apply string_app_cancel_r in H.
  apply string_app_cancel_r in H. apply string_app_cancel_r in H.
  rewrite !string_app_assoc in H.
  apply (inj (String.app _)) in H. apply (inj (String.app _)) in H.
  by apply (inj (String.app _)) in H.
Qed.

(** X16. A search on a proxy object whose pool has no used location, with
    a budget of at most twenty attempts, never sends two of its GETs
    through the same proxy URL: every attempt goes out through a location
    of its own. *)
Theorem search_proxies_distinct (dumps : Json.json → string)
    (proxy : proxy_pool.OxyLabsProxy) (params : gmap string string) (attempts : Z)
    (envs : nat → tradingview_proxy.attempt_env) :
  proxy_pool.used_locations (proxy_pool._proxy_pool proxy) = ∅ →
  (attempts ≤ 20)%Z →
  NoDup (requests (tradingview_proxy.trace
           (tradingview_proxy.tradingview_symbol_search dumps proxy params attempts envs))).
Proof.
  intros Hempty Hle. unfold tradingview_proxy.tradingview_symbol_search.
  destruct (rounds_run dumps (tradingview_proxy.outbound_params params) envs
              (Z.to_nat attempts) 0 None proxy)
    as (m & tr & pool' & Hm & Hcalls & _ & Hreq & _).
  rewrite Hreq.
  destruct (random_calls_from_empty proxy_pool.LOCATIONS (draws_from envs 0 m)
              (proxy_pool._proxy_pool proxy) Hempty)
    as (tr' & p' & Hcalls' & _ & Hnd & _).
  - apply (bool_decide_unpack _). by vm_compute.
  - done.
  - unfold draws_from. rewrite length_fmap, length_seq.
    change (length proxy_pool.LOCATIONS) with 20. lia.
  - rewrite Hcalls in Hcalls'. injection Hcalls' as <- <-.
    revert Hnd. generalize (tr.*2). intros locs. induction locs as [|l locs IH].
    + constructor.
    + rewrite !fmap_cons. intros [Hnotin Hnd]%NoDup_cons. constructor; [|by apply IH].
      intros Hin. apply Hnotin. apply list_elem_of_fmap in Hin as (l' & Hurl & Hl').
      apply list_elem_of_fmap. exists l'. split; [|done]. by eapply get_url_to_str_inj.
Qed.

Lemma search_proxies_distinct_witness :
  NoDup (requests (tradingview_proxy.trace
           (tradingview_proxy.tradingview_symbol_search (λ _, EmptyString) sample_proxy ∅ 3
              failing_envs))).
Proof.
  apply (search_proxies_distinct (λ _, EmptyString) sample_proxy ∅ 3 failing_envs).
  - reflexivity.
  - lia.
Defined.

(** ** One attempt, from the proxy to the headers *)

(** On every catalogue location the search reads back the location's
    own state. *)
Lemma LOCATIONS_parse_state :
  Forall (λ loc, tradingview_proxy._parse_state_from_location (proxy_pool.to_str loc)
                 = proxy_pool.state loc) proxy_pool.LOCATIONS.
Proof. repeat constructor. Qed.

(** X17. Region consistency of a round, across the three modules. The
    round selects a catalogue location and generates the fingerprint for
    that location's own state. When setting up the transport raises, the
    round sends nothing and fails with that exception's message, whatever
    the network would answer. When the transport is set up, the round
    sends a single GET, through that location's proxy URL and with the
    caller's parameters, and how it ends is decided by what the GET does.
    The headers prepared for that GET are region-consistent: the
    time-zone hint is the time-zone table's value for the state of the
    selected location (Chicago's zone when the table has none), the
    cookie carries the clock's offset for that zone, the accept-language
    is the fingerprint's own and never the fallback, and the header set
    is the fifteen fixed names plus Cookie and sec-ch-ua-timezone. *)
Theorem attempt_region_consistent (dumps : Json.json → string)
    (params : gmap string string) (e : tradingview_proxy.attempt_env)
    (set_up : option string) (proxy : proxy_pool.OxyLabsProxy) :
  ∃ loc pool' fp hdrs,
    proxy_pool.get_random_location proxy_pool.LOCATIONS (tradingview_proxy.proxy_draw e)
      (proxy_pool._proxy_pool proxy) = Some (loc, pool') ∧
    loc ∈ proxy_pool.LOCATIONS ∧
    browser_config.generate (browser_config.ProxyLocation_of_state (proxy_pool.state loc))
      (tradingview_proxy.fingerprint_env e) = Some fp ∧
    tradingview_proxy.attempt_with_setup dumps params e set_up proxy
    = (proxy_pool.with_pool proxy pool',
       match set_up with
       | None => [tradingview_proxy.Get (proxy_pool.get_url proxy loc) params hdrs]
       | Some _ => []
       end,
       match set_up with
       | None => tradingview_proxy.classify dumps (tradingview_proxy.network e)
       | Some message => tradingview_proxy.Failed message
       end) ∧
    hdrs !! "sec-ch-ua-timezone"
    = Some (default "America/Chicago"
              (browser_config.TIMEZONE_MAP !! Py.lower (proxy_pool.state loc))) ∧
    hdrs !! "Cookie"
    = Some ("timezone_offset="
              +:+ browser_config.utc_offset (tradingview_proxy.fingerprint_env e)
                    (default "America/Chicago"
                       (browser_config.TIMEZONE_MAP !! Py.lower (proxy_pool.state loc)))
              +:+ ";") ∧
    hdrs !! "User-Agent" = Some (browser_config.user_agent fp) ∧
    hdrs !! "Accept-Language" = browser_config.headers fp !! "accept-language" ∧
    dom hdrs
    = (list_to_set
         [ "User-Agent"; "Accept"; "Accept-Language"; "Accept-Encoding"; "Origin";
           "Referer"; "Connection"; "Pragma"; "Cache-Control"; "sec-ch-ua";
           "sec-ch-ua-mobile"; "sec-ch-ua-platform"; "Sec-Fetch-Site"; "Sec-Fetch-Mode";
           "Sec-Fetch-Dest"; "Cookie"; "sec-ch-ua-timezone" ] : gset string).
Proof.
  destruct (attempt_with_setup_detail dumps params e set_up proxy)
    as (loc & pool' & fp & Hsel & Hin & Hgen & Hatt).
  rewrite (proj1 (Forall_forall _ _) LOCATIONS_parse_state loc Hin) in Hgen.
  exists loc, pool', fp, (tradingview_proxy.outbound_headers fp).
  split; [done|]. split; [done|]. split; [done|]. split; [done|].
  destruct (generate_result
              (browser_config.ProxyLocation_of_state (proxy_pool.state loc))
              (tradingview_proxy.fingerprint_env e))
    as (cfg & ver & chrome & vp & Hres & _).
  rewrite Hgen in Hres. injection Hres as ->.
  unfold tradingview_proxy.outbound_headers.
  destruct (tradingview_proxy._infer_client_hints_from_ua _) as [[platform ua] mobile].
  cbn [browser_config.headers browser_config.user_agent browser_config.state
       browser_config.ProxyLocation_of_state].
  set (al := Py.join _ _). set (tz := default _ _).
  set (ck := "timezone_offset=" +:+ _ +:+ ";").
  change (list_to_map [("accept-language", al); ("sec-ch-ua-timezone", tz); ("cookie", ck)]
          : gmap string string)
    with (<["accept-language" := al]> (<["sec-ch-ua-timezone" := tz]>
            (<["cookie" := ck]> (∅ : gmap string string)))).
  rewrite (lookup_insert_ne _ "accept-language" "cookie") by done.
  rewrite (lookup_insert_ne _ "sec-ch-ua-timezone" "cookie") by done.
  rewrite (lookup_insert_ne _ "accept-language" "sec-ch-ua-timezone") by done.
  rewrite !lookup_insert_eq. cbn [default].
  split; [done|].
  split; [rewrite lookup_insert_ne by done; by rewrite lookup_insert_eq|].
  split; [|split].
  - rewrite !lookup_insert_ne by done. cbn [list_to_map foldr fst snd].
    by rewrite lookup_insert_eq.
  - rewrite !lookup_insert_ne by done. cbn [list_to_map foldr fst snd].
    rewrite !lookup_insert_ne by done. by rewrite lookup_insert_eq.
  - rewrite !dom_insert_L. cbn [list_to_map foldr fst snd].
    rewrite !dom_insert_L, dom_empty_L.
    apply (bool_decide_unpack _). by vm_compute.
Qed.

(** ** The request handler *)

Lemma contains_drop (sub : string) (n : nat) (s : string) :
  Py.contains sub (tradingview_proxy.string_drop n s) = true → Py.contains sub s = true.
Proof.
  revert s. induction n as [|n IH]; intros s H; [done|].
  destruct s as [|c s]; [done|].
  rewrite contains_cons. apply orb_true_iff. right. by apply IH.
Qed.

(** A text that mentions json_schema mentions schema. *)
Lemma contains_json_schema (t : string) :
  Py.contains "json_schema" t = true → Py.contains "schema" t = true.
Proof.
  induction t as [|c t IH]; intros H; [by vm_compute in H|].
  rewrite contains_cons in H. apply orb_true_iff in H as [H | H].
  - change "json_schema" with ("json_" +:+ "schema") in H.
    rewrite startswith_app in H. apply andb_true_iff in H as [_ H].
    apply contains_startswith in H. by apply contains_drop in H.
  - rewrite contains_cons. apply orb_true_iff. right. by apply IH.
Qed.

Lemma upstream_of_search (tr : list tradingview_proxy.event) :
  upstream_of (tradingview_main.Upstream <$> tr) = tr.
Proof.
  induction tr as [|ev tr IH]; [done|].
  change (ev :: upstream_of (tradingview_main.Upstream <$> tr) = ev :: tr). by f_equal.
Qed.

Lemma posts_of_search (tr : list tradingview_proxy.event) :
  posts_of (tradingview_main.Upstream <$> tr) = [].
Proof. induction tr as [|ev tr IH]; [done|]. exact IH. Qed.

(** A slice counts characters: the word schema after 300 two-byte
    letters lies within the first 500 characters of the text, though not
    within its first 500 bytes, and the answer counts as a schema
    complaint. *)
Lemma accented_refusal_is_schema_complaint :
  Py.take_chars 2 (e_acute +:+ "ab") = e_acute +:+ "a" ∧
  Py.len_chars (tradingview_proxy.text accented_refusal) = 306 ∧
  String.length (tradingview_proxy.text accented_refusal) = 606 ∧
  tradingview_main.schema_refused accented_refusal = true.
Proof. repeat split; by vm_compute. Qed.

Section HandlerRuns.
Import Json tradingview_proxy tradingview_main.
Variable dumps : json → string.
Variable loads_utf8 : string → option json.
Variable dumps_unicode : json → string.
Variable loads : string → option json.
Variable str_exception : exception → string.
Variable OPENROUTER_API_KEY : string.

Lemma schema_refused_iff (or_resp : tradingview_proxy.response) :
  schema_refused or_resp = true ↔ schema_complaint (Answers or_resp).
Proof.
  unfold schema_refused, schema_complaint. split.
  - intros [Hst Htxt]%andb_true_iff. exists or_resp. split; [done|].
    split; [by apply Z.eqb_eq|].
    apply orb_true_iff in Htxt as [Htxt | Htxt]; [|by left].
    apply orb_true_iff in Htxt as [Htxt | Htxt]; [|by right].
    left. by apply contains_json_schema.
  - intros (r & [= <-] & Hst & Htxt). apply andb_true_iff. split; [by apply Z.eqb_eq|].
    destruct Htxt as [-> | ->]; [by rewrite orb_true_r | by rewrite orb_true_r].
Qed.

Lemma schema_refused_not_2xx (or_resp : tradingview_proxy.response) :
  schema_refused or_resp = true → not_2xx or_resp = true.
Proof.
  unfold schema_refused, not_2xx. intros [Hst _]%andb_true_iff.
  apply Z.eqb_eq in Hst. by rewrite Hst.
Qed.

(** The POSTs of step 4: one, and a second without [response_format]
    exactly on a schema complaint. *)
Lemma call_openrouter_posts (body : dict) (post1 post2 : reply) :
  (schema_complaint post1 ∧
   (call_openrouter dumps_unicode loads str_exception OPENROUTER_API_KEY body post1 post2).2
   = [ Post OPENROUTER_URL (headers OPENROUTER_API_KEY) (JObj body);
       Post OPENROUTER_URL (headers OPENROUTER_API_KEY) (JObj (pop "response_format" body)) ])
  ∨ (¬ schema_complaint post1 ∧
     (call_openrouter dumps_unicode loads str_exception OPENROUTER_API_KEY body post1 post2).2
     = [ Post OPENROUTER_URL (headers OPENROUTER_API_KEY) (JObj body) ]).
Proof.
  unfold call_openrouter. destruct post1 as [or_resp | message].
  - destruct (schema_refused or_resp) eqn:Hrefused.
    + left. split; [by apply schema_refused_iff|].
      rewrite (schema_refused_not_2xx _ Hrefused).
      destruct post2 as [or_resp' | message']; [destruct (not_2xx or_resp')|]; done.
    + right. split.
      * intros Hc%schema_refused_iff. congruence.
      * by destruct (not_2xx or_resp).
  - right. split; [|done]. by intros (r & [=] & _).
Qed.

Lemma parsed_of_list (llm_json parsed : json) :
  parsed_of loads llm_json = Some parsed → ∃ xs, parsed = JArr xs.
Proof.
  unfold parsed_of. intros H. apply bind_Some in H as (p & _ & [= <-]).
  destruct p; eauto.
Qed.

Lemma content_of_list (llm_json : json) :
  content_of dumps_unicode loads llm_json = "[]" ∨
  ∃ xs, content_of dumps_unicode loads llm_json = dumps_unicode (JArr xs).
Proof.
  unfold content_of. destruct (truthy llm_json); [|by left].
  destruct (parsed_of loads llm_json) as [parsed|] eqn:Hp; [|by left].
  right. apply parsed_of_list in Hp as [xs ->]. by exists xs.
Qed.

(** How a request may end once step 4 is reached. *)
Definition step4_end (h : handled) : Prop :=
  match h with
  | Response content media_type =>
      media_type = "application/json" ∧
      (content = "[]" ∨ ∃ xs, content = dumps_unicode (JArr xs))
  | HTTPException status_code detail =>
      status_code = 500%Z ∨
      (status_code = 502%Z ∧ detail = "LLM ranking service unavailable")
  | ProxyError _ => False
  end.

Lemma ranked_end (or_resp : tradingview_proxy.response) :
  step4_end (ranked dumps_unicode loads str_exception or_resp).
Proof.
  unfold ranked. destruct (llm_json_of or_resp) as [e | llm_json]; simpl; [by left|].
  split; [done|]. apply content_of_list.
Qed.

Lemma call_openrouter_end (body : dict) (post1 post2 : reply) :
  step4_end
    (call_openrouter dumps_unicode loads str_exception OPENROUTER_API_KEY body post1 post2).1.
Proof.
  unfold call_openrouter.
  destruct post1 as [or_resp | message]; [|by left].
  destruct (not_2xx or_resp); [|by apply ranked_end].
  destruct (schema_refused or_resp); [|by right].
  destruct post2 as [or_resp' | message']; [|by left].
  destruct (not_2xx or_resp'); [by right | by apply ranked_end].
Qed.

Lemma pop_payload (query : string) (items : list json) :
  pop "response_format" (payload dumps_unicode query items)
  = take 5 (payload dumps_unicode query items).
Proof. reflexivity. Qed.

(** X18. However the search, the two parsers and the ranking service
    behave, a request ends in one of three ways: a 200 response of media
    type application/json whose content is the text [[]] or the
    serialisation of a list; an HTTP error 500, or 502 with the detail
    LLM ranking service unavailable; or the error of the search, when the
    search itself raised it, which the registered handler answers with
    502. No other status is produced. *)
Theorem handler_end (tv_proxy : proxy_pool.OxyLabsProxy) (params : gmap string string)
    (envs : nat → attempt_env) (post1 post2 : reply) :
  match response
          (tradingview_search dumps loads_utf8 dumps_unicode loads str_exception
             OPENROUTER_API_KEY tv_proxy params envs post1 post2) with
  | Response content media_type =>
      media_type = "application/json" ∧
      (content = "[]" ∨ ∃ xs, content = dumps_unicode (JArr xs))
  | HTTPException status_code detail =>
      status_code = 500%Z ∨
      (status_code = 502%Z ∧ detail = "LLM ranking service unavailable")
  | ProxyError message =>
      outcome (tradingview_symbol_search dumps tv_proxy params 3 envs)
      = TradingViewProxyError message
  end ∧
  status_of (response
               (tradingview_search dumps loads_utf8 dumps_unicode loads str_exception
                  OPENROUTER_API_KEY tv_proxy params envs post1 post2))
    ∈ [200%Z; 500%Z; 502%Z].
Proof.
  unfold tradingview_search.
  destruct (outcome (tradingview_symbol_search dumps tv_proxy params 3 envs))
    as [content content_type | message] eqn:Hout.
  - destruct (loads_utf8 content) as [data|].
    + pose proof (call_openrouter_end (payload dumps_unicode (user_query params) (items_of data))
                    post1 post2) as Hend.
      destruct (call_openrouter _ _ _ _ _ _ _) as [h posts]. simpl in *.
      destruct h as [c m | st d | m]; simpl in *.
      * split; [done|]. repeat constructor.
      * split; [done|]. destruct Hend as [-> | [-> _]]; repeat constructor.
      * done.
    + simpl. split; [by left|]. repeat constructor.
  - simpl. split; [done|]. repeat constructor.
Qed.

(** X19. The effects of a request are those of the search followed by at
    most two POSTs, each to the ranking service's URL with the same two
    headers. A POST is made exactly when the search returned a content
    that parses; a second POST is made exactly when, in addition, the
    first answer is a 400 whose first 500 characters mention schema or
    structured, and its body is the first body without the entry
    response_format, the five other entries unchanged. The test for
    json_schema in the source adds nothing to the test for schema. The
    request leaves the proxy object as the search left it. *)
Theorem handler_posts (tv_proxy : proxy_pool.OxyLabsProxy) (params : gmap string string)
    (envs : nat → attempt_env) (post1 post2 : reply) :
  ∃ posts,
    effects (tradingview_search dumps loads_utf8 dumps_unicode loads str_exception
               OPENROUTER_API_KEY tv_proxy params envs post1 post2)
    = (Upstream <$> trace (tradingview_symbol_search dumps tv_proxy params 3 envs)) ++ posts ∧
    tradingview_main.proxy_after
      (tradingview_search dumps loads_utf8 dumps_unicode loads str_exception
         OPENROUTER_API_KEY tv_proxy params envs post1 post2)
    = tradingview_proxy.proxy_after (tradingview_symbol_search dumps tv_proxy params 3 envs) ∧
    (posts = [] ∨
     ∃ body,
       dict_get "response_format" body ≠ None ∧
       (posts = [ Post OPENROUTER_URL (headers OPENROUTER_API_KEY) (JObj body) ] ∨
        posts = [ Post OPENROUTER_URL (headers OPENROUTER_API_KEY) (JObj body);
                  Post OPENROUTER_URL (headers OPENROUTER_API_KEY) (JObj (take 5 body)) ] ∧
        dict_get "response_format" (take 5 body) = None)) ∧
    (posts ≠ [] ↔
       readable_search loads_utf8 (tradingview_symbol_search dumps tv_proxy params 3 envs)) ∧
    (length posts = 2 ↔
       readable_search loads_utf8 (tradingview_symbol_search dumps tv_proxy params 3 envs) ∧
       schema_complaint post1).
Proof.
  unfold tradingview_search, readable_search.
  destruct (outcome (tradingview_symbol_search dumps tv_proxy params 3 envs))
    as [content content_type | message] eqn:Hout.
  - destruct (loads_utf8 content) as [data|] eqn:Hloads.
    + pose proof (call_openrouter_posts (payload dumps_unicode (user_query params) (items_of data))
                    post1 post2) as Hposts.
      destruct (call_openrouter _ _ _ _ _ _ _) as [h posts]. simpl in *.
      exists posts. split; [done|]. split; [done|].
      assert (∃ content0 content_type0 data0,
                Return content content_type = Return content0 content_type0 ∧
                loads_utf8 content0 = Some data0) as Hreadable by eauto.
      destruct Hposts as [[Hc ->] | [Hc ->]].
      * split; [|split; [by split | by split]].
        right. exists (payload dumps_unicode (user_query params) (items_of data)).
        split; [done|]. right. by rewrite pop_payload.
      * split; [|split; [by split|]].
        -- right. exists (payload dumps_unicode (user_query params) (items_of data)).
           split; [done|]. by left.
        -- split; [done|]. by intros [_ ?].
    + exists []. simpl. rewrite app_nil_r. split; [done|]. split; [done|].
      split; [by left|]. split.
      * split; [done|]. intros (c & ct & d & [= <- <-] & Hl). congruence.
      * split; [done|]. intros [(c & ct & d & [= <- <-] & Hl) _]. congruence.
  - exists []. simpl. rewrite app_nil_r. split; [done|]. split; [done|].
    split; [by left|]. split.
    + split; [done|]. by intros (c & ct & d & [=] & _).
    + split; [done|]. by intros [(c & ct & d & [=] & _) _].
Qed.

(** X20. When the three rounds of the search fail, because setting up
    the transport raises or because the GET is answered with a status
    outside 2xx or raises, the request sleeps three times, sends one GET
    for each round whose transport was set up and no POST, and ends with
    the error of the search, whose message carries the diagnostic of the
    third round: the error is raised again as it is and is not turned
    into an HTTP 500. The registered handler answers it with status 502
    and the message under the key error. *)
Theorem handler_search_failure (tv_proxy : proxy_pool.OxyLabsProxy)
    (params : gmap string string) (envs : nat → attempt_env)
    (set_ups : nat → option string) (post1 post2 : reply) :
  (∀ i, i < 3 → round_fails (set_ups i) (network (envs i))) →
  response (tradingview_search_with_setup dumps loads_utf8 dumps_unicode loads str_exception
              OPENROUTER_API_KEY tv_proxy params envs set_ups post1 post2)
  = ProxyError ("TradingView search failed after retries: "
                  +:+ round_diagnostic (set_ups 2) (network (envs 2))) ∧
  tv_proxy_error_handler
    ("TradingView search failed after retries: "
       +:+ round_diagnostic (set_ups 2) (network (envs 2)))
  = (502%Z,
     JObj [ ("error",
             JStr ("TradingView search failed after retries: "
                     +:+ round_diagnostic (set_ups 2) (network (envs 2)))) ]) ∧
  posts_of (effects (tradingview_search_with_setup dumps loads_utf8 dumps_unicode loads
                       str_exception OPENROUTER_API_KEY tv_proxy params envs set_ups
                       post1 post2)) = [] ∧
  length (sleeps (upstream_of
            (effects (tradingview_search_with_setup dumps loads_utf8 dumps_unicode loads
                        str_exception OPENROUTER_API_KEY tv_proxy params envs set_ups
                        post1 post2)))) = 3 ∧
  length (requests (upstream_of
            (effects (tradingview_search_with_setup dumps loads_utf8 dumps_unicode loads
                        str_exception OPENROUTER_API_KEY tv_proxy params envs set_ups
                        post1 post2))))
  = length (sent_rounds set_ups 0 3).
Proof.
  intros Hfail.
  pose proof (rounds_with_setup_exhausted dumps (outbound_params params) envs set_ups 3 0
                None tv_proxy Hfail) as Hrun.
  change (rounds_with_setup dumps (outbound_params params) envs set_ups 3 0 None tv_proxy)
    with (tradingview_symbol_search_with_setup dumps tv_proxy params 3 envs set_ups) in Hrun.
  destruct Hrun as (Hout & Hsl & Hreq).
  unfold tradingview_search_with_setup. rewrite Hout. simpl.
  rewrite upstream_of_search, posts_of_search, Hreq, Hsl. done.
Qed.

Lemma normalize_Normalized (data shaped_payload : json) :
  normalize data = Some (Normalized shaped_payload) →
  ∃ items clean,
    deduped_clean_of items = Some clean ∧
    items_of shaped_payload = clean ∧
    (data = JArr items ∨
     ∃ kvs, data = JObj kvs ∧ dict_get "symbols" kvs = Some (JArr items)).
Proof.
  destruct data as [|b|n|s|items|kvs]; simpl; try done.
  - intros H. apply bind_Some in H as (clean & Hclean & [= <-]).
    exists items, clean. eauto.
  - destruct (dict_get "symbols" kvs) as [[|b|n|s|items|kvs']|] eqn:Hsym; try done.
    intros H. apply bind_Some in H as (clean & Hclean & [= <-]).
    exists items, clean. split; [done|]. split; [|by eauto].
    simpl. by rewrite dict_get_set_eq.
Qed.

(** The effects of a request whose search returned a content that
    parses: the first POST carries the items of the parsed content. *)
Lemma handler_first_post (tv_proxy : proxy_pool.OxyLabsProxy) (params : gmap string string)
    (envs : nat → attempt_env) (post1 post2 : reply)
    (content content_type : string) (data : json) :
  outcome (tradingview_symbol_search dumps tv_proxy params 3 envs)
  = Return content content_type →
  loads_utf8 content = Some data →
  hd_error (posts_of
     (effects (tradingview_search dumps loads_utf8 dumps_unicode loads str_exception
                 OPENROUTER_API_KEY tv_proxy params envs post1 post2)))
  = Some (OPENROUTER_URL, headers OPENROUTER_API_KEY,
          JObj (payload dumps_unicode (user_query params) (items_of data))).
Proof.
  intros Hout Hloads. unfold tradingview_search. rewrite Hout, Hloads.
  pose proof (call_openrouter_posts (payload dumps_unicode (user_query params) (items_of data))
                post1 post2) as Hposts.
  destruct (call_openrouter _ _ _ _ _ _ _) as [h posts]. simpl in *.
  unfold posts_of. rewrite omap_app. fold (posts_of (Upstream <$>
    trace (tradingview_symbol_search dumps tv_proxy params 3 envs))).
  rewrite posts_of_search. by destruct Hposts as [[_ ->] | [_ ->]].
Qed.


(** X22. When the first 2xx answer of the upstream, within the three
    attempts, carries a list, or a mapping with a list under symbols, on
    which the normaliser completes, and the parser reads the search's
    serialisation back, the items put before the ranking service in the
    first POST are exactly the filtered, deduplicated and stripped items
    of that list. *)
Theorem handler_forwards_normalised_items (tv_proxy : proxy_pool.OxyLabsProxy)
    (params : gmap string string) (envs : nat → attempt_env) (post1 post2 : reply)
    (j : nat) (resp : tradingview_proxy.response) (data shaped_payload : json) :
  j < 3 →
  (∀ i, i < j → retryable (network (envs i))) →
  network (envs j) = Answers resp →
  (200 ≤ status_code resp < 300)%Z →
  json_body resp = Some data →
  normalize data = Some (Normalized shaped_payload) →
  loads_utf8 (dumps shaped_payload) = Some shaped_payload →
  ∃ items clean,
    (data = JArr items ∨
     ∃ kvs, data = JObj kvs ∧ dict_get "symbols" kvs = Some (JArr items)) ∧
    deduped_clean_of items = Some clean ∧
    hd_error (posts_of
       (effects (tradingview_search dumps loads_utf8 dumps_unicode loads str_exception
                   OPENROUTER_API_KEY tv_proxy params envs post1 post2)))
    = Some (OPENROUTER_URL, headers OPENROUTER_API_KEY,
            JObj (payload dumps_unicode (user_query params) clean)).
Proof.
  intros Hj Hfail Hnet Hstatus Hbody Hnorm Hloads.
  pose proof (rounds_first_success dumps tv_proxy (outbound_params params) 3 envs j resp
                Hj Hfail Hnet Hstatus) as Hrun.
  change (rounds dumps (outbound_params params) envs 3 0 None tv_proxy)
    with (tradingview_symbol_search dumps tv_proxy params 3 envs) in Hrun.
  destruct Hrun as (Hout & _).
  unfold on_success in Hout. rewrite Hbody, Hnorm in Hout. simpl in Hout.
  destruct (normalize_Normalized _ _ Hnorm) as (items & clean & Hclean & Hitems & Hshape).
  exists items, clean. split; [done|]. split; [done|].
  rewrite <- Hitems. by eapply handler_first_post.
Qed.

(** X23. When the first 2xx answer of the upstream, within the three
    attempts, is JSON of an unknown structure (neither a list nor a
    mapping with a list under symbols) and the parser reads its body as
    that value, the request does not end there: the ranking service is
    asked with an empty list of items. *)
Theorem handler_unknown_structure_asks_with_no_items (tv_proxy : proxy_pool.OxyLabsProxy)
    (params : gmap string string) (envs : nat → attempt_env) (post1 post2 : reply)
    (j : nat) (resp : tradingview_proxy.response) (data : json) :
  j < 3 →
  (∀ i, i < j → retryable (network (envs i))) →
  network (envs j) = Answers resp →
  (200 ≤ status_code resp < 300)%Z →
  json_body resp = Some data →
  unknown_structure data →
  loads_utf8 (content resp) = Some data →
  hd_error (posts_of
     (effects (tradingview_search dumps loads_utf8 dumps_unicode loads str_exception
                 OPENROUTER_API_KEY tv_proxy params envs post1 post2)))
  = Some (OPENROUTER_URL, headers OPENROUTER_API_KEY,
          JObj (payload dumps_unicode (user_query params) [])).
Proof.
  intros Hj Hfail Hnet Hstatus Hbody Hshape Hloads.
  pose proof (rounds_first_success dumps tv_proxy (outbound_params params) 3 envs j resp
                Hj Hfail Hnet Hstatus) as Hrun.
  change (rounds dumps (outbound_params params) envs 3 0 None tv_proxy)
    with (tradingview_symbol_search dumps tv_proxy params 3 envs) in Hrun.
  destruct Hrun as (Hout & _).
  rewrite on_success_raw in Hout by (right; eauto). simpl in Hout.
  assert (items_of data = []) as Hitems.
  { destruct data as [|b|n|s|xs|kvs]; simpl in *; try done.
    destruct (dict_get "symbols" kvs) as [[|b|n|s|items|kvs']|] eqn:Hsym; try done.
    by destruct (Hshape items). }
  rewrite <- Hitems. by eapply handler_first_post.
Qed.

End HandlerRuns.

Lemma handler_search_failure_witness :
  tradingview_main.response
    (tradingview_main.tradingview_search_with_setup sample_dumps sample_loads sample_dumps
       sample_loads sample_str_exception "key" sample_proxy ∅ failing_envs sample_set_ups
       schema_refusal schema_refusal)
  = tradingview_main.ProxyError
      ("TradingView search failed after retries: "
         +:+ round_diagnostic (sample_set_ups 2)
               (tradingview_proxy.network (failing_envs 2))) ∧
  tradingview_main.tv_proxy_error_handler
    ("TradingView search failed after retries: "
       +:+ round_diagnostic (sample_set_ups 2) (tradingview_proxy.network (failing_envs 2)))
  = (502%Z,
     Json.JObj [ ("error",
                  Json.JStr ("TradingView search failed after retries: "
                               +:+ round_diagnostic (sample_set_ups 2)
                                     (tradingview_proxy.network (failing_envs 2)))) ]) ∧
  posts_of (tradingview_main.effects
     (tradingview_main.tradingview_search_with_setup sample_dumps sample_loads sample_dumps
        sample_loads sample_str_exception "key" sample_proxy ∅ failing_envs sample_set_ups
        schema_refusal schema_refusal))
  = [] ∧
  length (sleeps (upstream_of (tradingview_main.effects
     (tradingview_main.tradingview_search_with_setup sample_dumps sample_loads sample_dumps
        sample_loads sample_str_exception "key" sample_proxy ∅ failing_envs sample_set_ups
        schema_refusal schema_refusal))))
  = 3 ∧
  length (requests (upstream_of (tradingview_main.effects
     (tradingview_main.tradingview_search_with_setup sample_dumps sample_loads sample_dumps
        sample_loads sample_str_exception "key" sample_proxy ∅ failing_envs sample_set_ups
        schema_refusal schema_refusal))))
  = length (sent_rounds sample_set_ups 0 3).
Proof.
  apply (handler_search_failure sample_dumps sample_loads sample_dumps sample_loads
           sample_str_exception "key" sample_proxy ∅ failing_envs sample_set_ups
           schema_refusal schema_refusal).
  intros i Hi. destruct i as [|[|[|i]]]; simpl; [done | lia | done | lia].
Defined.


Lemma handler_forwards_normalised_items_witness :
  ∃ items clean,
    (Json.JArr raw_items = Json.JArr items ∨
     ∃ kvs, Json.JArr raw_items = Json.JObj kvs ∧
            Json.dict_get "symbols" kvs = Some (Json.JArr items)) ∧
    tradingview_proxy.deduped_clean_of items = Some clean ∧
    hd_error (posts_of (tradingview_main.effects
       (tradingview_main.tradingview_search sample_dumps sample_loads sample_dumps sample_loads
          sample_str_exception "key" sample_proxy {[ "text" := "btc" ]} listing_envs
          schema_refusal schema_refusal)))
    = Some (tradingview_main.OPENROUTER_URL, tradingview_main.headers "key",
            Json.JObj (tradingview_main.payload sample_dumps
                         (tradingview_main.user_query {[ "text" := "btc" ]}) clean)).
Proof.
  apply (handler_forwards_normalised_items sample_dumps sample_loads sample_dumps sample_loads
           sample_str_exception "key" sample_proxy {[ "text" := "btc" ]} listing_envs
           schema_refusal schema_refusal 0 listing_answer (Json.JArr raw_items)
           (Json.JArr clean_items)).
  - lia.
  - intros i Hi. lia.
  - reflexivity.
  - simpl. lia.
  - reflexivity.
  - by vm_compute.
  - reflexivity.
Defined.

Lemma handler_unknown_structure_asks_with_no_items_witness :
  hd_error (posts_of (tradingview_main.effects
     (tradingview_main.tradingview_search sample_dumps error_loads sample_dumps sample_loads
        sample_str_exception "key" sample_proxy ∅ error_envs schema_refusal schema_refusal)))
  = Some (tradingview_main.OPENROUTER_URL, tradingview_main.headers "key",
          Json.JObj (tradingview_main.payload sample_dumps
                       (tradingview_main.user_query ∅) [])).
Proof.
  apply (handler_unknown_structure_asks_with_no_items sample_dumps error_loads sample_dumps
           sample_loads sample_str_exception "key" sample_proxy ∅ error_envs schema_refusal
           schema_refusal 0 error_answer (Json.JObj [("error", Json.JStr "rate limited")])).
  - lia.
  - intros i Hi. lia.
  - reflexivity.
  - simpl. lia.
  - reflexivity.
  - intros items. done.
  - reflexivity.
Defined.
